(** * AutoMinds Voice: the persistent memory core of [app.py]

    A shallow embedding of the SQLite-backed memory system of the voice
    service (message log, long-term facts, summaries), of the keyword fact
    extractor, of the post-call summarizer and of the JSON export/import
    used for the Drive backup, together with the properties of these
    functions.

    Conventions of the embedding.
    - Python [str] values are [string]s whose characters are the code
      points below 256; [lower] and [strip] are Python's [str.lower] and
      [str.strip] on that range.
    - A Python value that comes out of [json.loads] is a [pyval].
    - A function that can raise returns [exec]; [Raise] carries the
      exception class.
    - The three tables are lists of rows in insertion order; a row carries
      its AUTOINCREMENT id; the columns declared [TEXT NOT NULL] hold a
      [string], since SQLite stores every bound number as text there.
      No row is ever deleted, so the id sequence of [messages] and of
      [summaries] is at their largest id; the sequence of [memories] is
      kept apart, because an ignored INSERT OR IGNORE uses up an id.
    - [datetime.now(timezone.utc).isoformat()] is an input: the functions
      that read the clock take the reading(s) as an argument.
    - The storage lock only serialises the calls; each function below is
      one such serialised call. *)

From Stdlib Require Import List Bool Arith ZArith Lia String Ascii.
From Stdlib Require Import DecimalString Permutation PrimFloat.
Import ListNotations.
Open Scope string_scope.

(** ** Python text primitives *)

Module PyStr.

(** [str.lower] on one code point below 256: A-Z and the Latin-1 capitals
    (0xC0-0xDE except the multiplication sign 0xD7) move up by 32. *)
Definition lower_char (c : ascii) : ascii :=
  let n := nat_of_ascii c in
  if (((65 <=? n) && (n <=? 90))
      || ((192 <=? n) && (n <=? 222) && negb (n =? 215)))%nat
  then ascii_of_nat (n + 32) else c.

Fixpoint lower (s : string) : string :=
  match s with
  | EmptyString => EmptyString
  | String c r => String (lower_char c) (lower r)
  end.

(** [str.isspace] on one code point below 256. *)
Definition is_space (c : ascii) : bool :=
  let n := nat_of_ascii c in
  (((9 <=? n) && (n <=? 13)) || ((28 <=? n) && (n <=? 32))
   || (n =? 133) || (n =? 160))%nat.

Fixpoint lstrip (s : string) : string :=
  match s with
  | EmptyString => EmptyString
  | String c r => if is_space c then lstrip r else s
  end.

Fixpoint rev (s : string) : string :=
  match s with
  | EmptyString => EmptyString
  | String c r => rev r ++ String c EmptyString
  end.

Definition rstrip (s : string) : string := rev (lstrip (rev s)).

(** [s.strip()] *)
Definition strip (s : string) : string := rstrip (lstrip s).

(** [s.startswith(p)] *)
Fixpoint startswith (p s : string) : bool :=
  match p, s with
  | EmptyString, _ => true
  | String a p', String b s' => Ascii.eqb a b && startswith p' s'
  | String _ _, EmptyString => false
  end.

(** [kw in s]: [kw] occurs in [s] as a substring. *)
Fixpoint contains (kw s : string) : bool :=
  startswith kw s
  || match s with
     | EmptyString => false
     | String _ r => contains kw r
     end.

(** [s[n:]] *)
Fixpoint drop (n : nat) (s : string) : string :=
  match n, s with
  | O, _ => s
  | S n', String _ r => drop n' r
  | S _, EmptyString => EmptyString
  end.

(** The text after the first occurrence of [sep], if [sep] occurs. *)
Fixpoint after_first (sep s : string) : option string :=
  if startswith sep s then Some (drop (String.length sep) s)
  else match s with
       | EmptyString => None
       | String _ r => after_first sep r
       end.

(** The text before the last occurrence of [sep], if [sep] occurs;
    found by scanning from the right, as [rsplit] does. *)
Definition before_last (sep s : string) : option string :=
  match after_first (rev sep) (rev s) with
  | Some r => Some (rev r)
  | None => None
  end.

Definition newline : string := String (ascii_of_nat 10) EmptyString.

(** ["\n".join(parts)] *)
Fixpoint join_lines (parts : list string) : string :=
  match parts with
  | [] => EmptyString
  | [p] => p
  | p :: rest => p ++ newline ++ join_lines rest
  end.

End PyStr.

Open Scope list_scope.

(** ** Python values, exceptions *)

(** A value as [json.loads] builds it; a [dict] keeps its items in order. *)
#[local] Unset Elimination Schemes.
Inductive pyval : Type :=
| PNone
| PBool (b : bool)
| PInt (n : Z)
| PFloat (f : float)
| PStr (s : string)
| PList (l : list pyval)
| PDict (d : list (string * pyval)).
#[local] Set Elimination Schemes.

(** The exception classes the modelled code can meet. [SqliteError] is
    any exception of the [sqlite3] module (a parameter of an unsupported
    type, a NOT NULL violation); [ExternalError] is whatever the model
    client raises. *)
Inductive exn : Type :=
| AttributeError | IndexError | KeyError | TypeError | ValueError
| OverflowError | SqliteError | ExternalError.

Inductive exec (A : Type) : Type :=
| Done (a : A)
| Raise (e : exn).
Arguments Done {A} a.
Arguments Raise {A} e.

Definition bind {A B : Type} (m : exec A) (k : A -> exec B) : exec B :=
  match m with
  | Done a => k a
  | Raise e => Raise e
  end.

Declare Scope exec_scope.
Delimit Scope exec_scope with exec.
Notation "x <- m ;; k" := (bind m (fun x => k))
  (at level 61, m at next level, right associativity) : exec_scope.
Open Scope exec_scope.

(** [try: ... except Exception: pass] around one step that updates [a]. *)
Definition try_pass {A : Type} (a : A) (m : exec A) : A :=
  match m with
  | Done a' => a'
  | Raise _ => a
  end.

Module Py.

Fixpoint lookup (key : string) (d : list (string * pyval)) : option pyval :=
  match d with
  | [] => None
  | (k, v) :: rest => if String.eqb k key then Some v else lookup key rest
  end.

(** [d.get(key, default)]; only a dict has [get]. *)
Definition get (d : pyval) (key : string) (default : pyval) : exec pyval :=
  match d with
  | PDict items =>
      Done (match lookup key items with Some v => v | None => default end)
  | _ => Raise AttributeError
  end.

(** [m[key]] for a string key. *)
Definition getitem (m : pyval) (key : string) : exec pyval :=
  match m with
  | PDict items =>
      match lookup key items with
      | Some v => Done v
      | None => Raise KeyError
      end
  | _ => Raise TypeError
  end.

Fixpoint chars (s : string) : list pyval :=
  match s with
  | EmptyString => []
  | String c r => PStr (String c EmptyString) :: chars r
  end.

(** The items a [for] loop over [v] visits. *)
Definition iter (v : pyval) : exec (list pyval) :=
  match v with
  | PList l => Done l
  | PStr s => Done (chars s)
  | PDict items => Done (map (fun kv => PStr (fst kv)) items)
  | _ => Raise TypeError
  end.

(** [len(v)] *)
Definition len (v : pyval) : exec nat :=
  match v with
  | PList l => Done (List.length l)
  | PStr s => Done (String.length s)
  | PDict items => Done (List.length items)
  | _ => Raise TypeError
  end.

(** [bool(v)], the test of [if v:]. *)
Definition truthy (v : pyval) : bool :=
  match v with
  | PNone => false
  | PBool b => b
  | PInt n => negb (n =? 0)%Z
  | PFloat f => negb (PrimFloat.eqb f 0%float)
  | PStr s => negb (String.eqb s EmptyString)
  | PList l => match l with [] => false | _ => true end
  | PDict d => match d with [] => false | _ => true end
  end.

End Py.

(** ** The SQLite layer *)

Inductive sqlval : Type :=
| SNull
| SInteger (n : Z)
| SReal (f : float)
| SText (s : string).

Module Sql.

Definition min_int64 : Z := (- 2 ^ 63)%Z.
Definition max_int64 : Z := (2 ^ 63 - 1)%Z.

Definition in_int64 (n : Z) : bool :=
  ((min_int64 <=? n) && (n <=? max_int64))%Z.

(** How the [sqlite3] module binds one statement parameter. *)
Definition bind_param (v : pyval) : exec sqlval :=
  match v with
  | PNone => Done SNull
  | PBool b => Done (SInteger (if b then 1 else 0))
  | PInt n => if in_int64 n then Done (SInteger n) else Raise OverflowError
  | PFloat f => if PrimFloat.is_nan f then Done SNull else Done (SReal f)
  | PStr s => Done (SText s)
  | PList _ | PDict _ => Raise SqliteError
  end.

Definition decimal (n : Z) : string := NilZero.string_of_int (Z.to_int n).

(** INTEGER affinity, given the engine's conversions of a REAL and of a
    text to a number. *)
Definition integer_affinity_with
    (rn : float -> sqlval) (tn : string -> sqlval) (v : sqlval) : sqlval :=
  match v with
  | SNull => SNull
  | SInteger n => SInteger n
  | SReal f => rn f
  | SText s => tn s
  end.

(** A cell of an INTEGER column as it reads back: the affinity leaves it
    alone, an integer fits 64 bits and a REAL is not a NaN (which is
    stored as NULL). *)
Definition settled (rn : float -> sqlval) (tn : string -> sqlval)
    (v : sqlval) : Prop :=
  integer_affinity_with rn tn v = v
  /\ match v with
     | SInteger n => in_int64 n = true
     | SReal f => PrimFloat.is_nan f = false
     | _ => True
     end.

(** What a [SELECT] hands back to Python for a cell. *)
Definition to_py (v : sqlval) : pyval :=
  match v with
  | SNull => PNone
  | SInteger n => PInt n
  | SReal f => PFloat f
  | SText s => PStr s
  end.

Definition text_to_py (s : string) : pyval := PStr s.

Definition opt_text_to_py (c : option string) : pyval :=
  match c with
  | Some s => PStr s
  | None => PNone
  end.

(** AUTOINCREMENT: one more than the largest id in use. *)
Definition next_id (ids : list Z) : Z := (1 + fold_right Z.max 0 ids)%Z.

(** [LIMIT k]: a negative [k] means no limit. *)
Definition limit {A : Type} (k : Z) (rows : list A) : list A :=
  if (k <? 0)%Z then rows else firstn (Z.to_nat k) rows.

Section OrderBy.
Context {A : Type} (key : A -> Z).

Fixpoint insert_asc (x : A) (l : list A) : list A :=
  match l with
  | [] => [x]
  | y :: r => if (key x <=? key y)%Z then x :: l else y :: insert_asc x r
  end.

(** [ORDER BY key] *)
Definition order_by (l : list A) : list A := fold_right insert_asc [] l.

Fixpoint insert_desc (x : A) (l : list A) : list A :=
  match l with
  | [] => [x]
  | y :: r => if (key y <=? key x)%Z then x :: l else y :: insert_desc x r
  end.

(** [ORDER BY key DESC] *)
Definition order_by_desc (l : list A) : list A := fold_right insert_desc [] l.
End OrderBy.

End Sql.

(** What the embedding takes from the Python runtime and the SQLite engine
    without defining it: the text SQLite stores for a REAL bound to a TEXT
    column, the numbers it stores for a REAL or a text bound to an INTEGER
    column, Python's [str()] of a value that is not a [str], and
    [json.loads] ([None] when it raises). *)
Class Runtime : Type := {
  real_text : float -> string;
  real_numeric : float -> sqlval;
  text_numeric : string -> sqlval;
  py_str : pyval -> string;
  json_loads : string -> option pyval;
  real_numeric_settled :
    forall f, PrimFloat.is_nan f = false ->
              Sql.settled real_numeric text_numeric (real_numeric f);
  text_numeric_settled :
    forall s, Sql.settled real_numeric text_numeric (text_numeric s)
}.

(** ** The three tables *)

Record message_row : Type := {
  msg_id : Z;
  msg_phone : string;
  msg_role : string;
  msg_content : string;
  msg_timestamp : string
}.

Record memory_row : Type := {
  mem_id : Z;
  mem_phone : string;
  mem_fact : string;
  mem_category : option string;
  mem_timestamp : string
}.

Record summary_row : Type := {
  sum_id : Z;
  sum_phone : string;
  sum_summary : string;
  sum_message_count : sqlval;
  sum_timestamp : string
}.

Record store : Type := {
  messages : list message_row;
  memories : list memory_row;
  memories_seq : Z;
  summaries : list summary_row
}.

(** The database [init_db] leaves when no file exists yet. *)
Definition empty_store : store :=
  {| messages := []; memories := []; memories_seq := 0; summaries := [] |}.

(** One element of the lists [get_conversation_history] and
    [get_all_history] return. *)
Record history_entry : Type := {
  role : string;
  content : string;
  timestamp : string
}.

Definition entry_of_row (r : message_row) : history_entry :=
  {| role := msg_role r; content := msg_content r;
     timestamp := msg_timestamp r |}.

Section Memory.
Context {rt : Runtime}.

(** TEXT affinity: the text a TEXT column stores for a bound value,
    [None] for NULL. *)
Definition text_cell (v : sqlval) : option string :=
  match v with
  | SNull => None
  | SInteger n => Some (Sql.decimal n)
  | SReal f => Some (real_text f)
  | SText s => Some s
  end.

Definition integer_affinity : sqlval -> sqlval :=
  Sql.integer_affinity_with real_numeric text_numeric.

(** *** The SQL statements *)

(** [INSERT INTO messages (phone, role, content, timestamp) VALUES (?,?,?,?)] *)
Definition insert_message (tbl : list message_row)
    (phone role content timestamp : pyval) : exec (list message_row) :=
  p <- Sql.bind_param phone ;;
  r <- Sql.bind_param role ;;
  c <- Sql.bind_param content ;;
  t <- Sql.bind_param timestamp ;;
  match text_cell p, text_cell r, text_cell c, text_cell t with
  | Some p, Some r, Some c, Some t =>
      Done (tbl ++ [{| msg_id := Sql.next_id (map msg_id tbl);
                       msg_phone := p; msg_role := r; msg_content := c;
                       msg_timestamp := t |}])
  | _, _, _, _ => Raise SqliteError
  end.

(** The [UNIQUE(phone, fact)] index: is the pair taken? *)
Definition has_fact (tbl : list memory_row) (phone fact : string) : bool :=
  existsb (fun r => String.eqb (mem_phone r) phone
                    && String.eqb (mem_fact r) fact) tbl.

(** [INSERT OR IGNORE INTO memories (phone, fact, category, timestamp)
    VALUES (?,?,?,?)] on the rows and the id sequence of the table: a row
    that breaks NOT NULL or UNIQUE is dropped without an error, and the
    statement uses up the next id whether the row is kept or dropped. *)
Definition insert_or_ignore_memory (tbl : list memory_row) (seq : Z)
    (phone fact category timestamp : pyval)
    : exec (list memory_row * Z) :=
  p <- Sql.bind_param phone ;;
  f <- Sql.bind_param fact ;;
  c <- Sql.bind_param category ;;
  t <- Sql.bind_param timestamp ;;
  let id := Sql.next_id (seq :: map mem_id tbl) in
  match text_cell p, text_cell f, text_cell t with
  | Some p, Some f, Some t =>
      if has_fact tbl p f then Done (tbl, id)
      else Done (tbl ++ [{| mem_id := id; mem_phone := p; mem_fact := f;
                            mem_category := text_cell c;
                            mem_timestamp := t |}], id)
  | _, _, _ => Done (tbl, id)
  end.

(** [INSERT INTO summaries (phone, summary, message_count, timestamp)
    VALUES (?,?,?,?)] *)
Definition insert_summary (tbl : list summary_row)
    (phone summary message_count timestamp : pyval)
    : exec (list summary_row) :=
  p <- Sql.bind_param phone ;;
  s <- Sql.bind_param summary ;;
  n <- Sql.bind_param message_count ;;
  t <- Sql.bind_param timestamp ;;
  match text_cell p, text_cell s, text_cell t with
  | Some p, Some s, Some t =>
      Done (tbl ++ [{| sum_id := Sql.next_id (map sum_id tbl);
                       sum_phone := p; sum_summary := s;
                       sum_message_count := integer_affinity n;
                       sum_timestamp := t |}])
  | _, _, _ => Raise SqliteError
  end.

Definition with_messages (st : store) (tbl : list message_row) : store :=
  {| messages := tbl; memories := memories st;
     memories_seq := memories_seq st; summaries := summaries st |}.

Definition with_memories (st : store) (tbl : list memory_row * Z) : store :=
  {| messages := messages st; memories := fst tbl;
     memories_seq := snd tbl; summaries := summaries st |}.

Definition with_summaries (st : store) (tbl : list summary_row) : store :=
  {| messages := messages st; memories := memories st;
     memories_seq := memories_seq st; summaries := tbl |}.

(** *** The memory API *)

(** [save_message(phone, role, content)]; [now] is the clock reading. An
    exception of the statement leaves the function before [commit]. *)
Definition save_message (st : store) (phone role content : string)
    (now : string) : exec store :=
  tbl <- insert_message (messages st)
           (PStr phone) (PStr role) (PStr content) (PStr now) ;;
  Done (with_messages st tbl).

Definition messages_of (st : store) (phone : string) : list message_row :=
  filter (fun r => String.eqb (msg_phone r) phone) (messages st).

(** [get_conversation_history(phone, limit)]:
    [... WHERE phone = ? ORDER BY id DESC LIMIT ?], then [rows.reverse()].
    [limit] is bound as a parameter of the statement: an integer outside
    64 bits raises OverflowError before any row is read. *)
Definition get_conversation_history (st : store) (phone : string)
    (limit : Z) : exec (list history_entry) :=
  _ <- Sql.bind_param (PInt limit) ;;
  Done (map entry_of_row
          (List.rev (Sql.limit limit
                       (Sql.order_by_desc msg_id (messages_of st phone))))).

(** [get_all_history(phone)]: [... WHERE phone = ? ORDER BY id]. *)
Definition get_all_history (st : store) (phone : string)
    : list history_entry :=
  map entry_of_row (Sql.order_by msg_id (messages_of st phone)).

(** [save_memory(phone, fact, category)]: the statement sits in a
    [try/except Exception] that prints and goes on, so nothing is raised
    and a failed statement writes nothing. *)
Definition save_memory (st : store) (phone : string) (fact : pyval)
    (category : string) (now : string) : store :=
  with_memories st
    (try_pass (memories st, memories_seq st)
       (insert_or_ignore_memory (memories st) (memories_seq st)
          (PStr phone) fact (PStr category) (PStr now))).

(** [save_summary(phone, summary, message_count)] *)
Definition save_summary (st : store) (phone : string) (summary : pyval)
    (message_count : Z) (now : string) : exec store :=
  tbl <- insert_summary (summaries st)
           (PStr phone) summary (PInt message_count) (PStr now) ;;
  Done (with_summaries st tbl).

(** [get_message_count(phone)]: [SELECT COUNT( * ) ... WHERE phone = ?]. *)
Definition get_message_count (st : store) (phone : string) : Z :=
  Z.of_nat (List.length (messages_of st phone)).

(** [get_memories(phone)] *)
Definition get_memories (st : store) (phone : string)
    : list (string * option string * string) :=
  map (fun r => (mem_fact r, mem_category r, mem_timestamp r))
    (Sql.order_by mem_id
       (filter (fun r => String.eqb (mem_phone r) phone) (memories st))).

(** [get_summaries(phone)] *)
Definition get_summaries (st : store) (phone : string)
    : list (string * sqlval * string) :=
  map (fun r => (sum_summary r, sum_message_count r, sum_timestamp r))
    (Sql.order_by sum_id
       (filter (fun r => String.eqb (sum_phone r) phone) (summaries st))).

(** *** Export and import of the whole database *)

Definition export_message (r : message_row) : pyval :=
  PDict [("phone", PStr (msg_phone r)); ("role", PStr (msg_role r));
         ("content", PStr (msg_content r));
         ("timestamp", PStr (msg_timestamp r))].

Definition export_memory (r : memory_row) : pyval :=
  PDict [("phone", PStr (mem_phone r)); ("fact", PStr (mem_fact r));
         ("category", Sql.opt_text_to_py (mem_category r));
         ("timestamp", PStr (mem_timestamp r))].

Definition export_summary (r : summary_row) : pyval :=
  PDict [("phone", PStr (sum_phone r)); ("summary", PStr (sum_summary r));
         ("message_count", Sql.to_py (sum_message_count r));
         ("timestamp", PStr (sum_timestamp r))].

(** [export_memory_to_json()]; [now] is the clock reading. *)
Definition export_memory_to_json (st : store) (now : string) : pyval :=
  PDict [("messages",
          PList (map export_message (Sql.order_by msg_id (messages st))));
         ("memories",
          PList (map export_memory (Sql.order_by mem_id (memories st))));
         ("summaries",
          PList (map export_summary (Sql.order_by sum_id (summaries st))));
         ("exported_at", PStr now)].

(** One round of the first loop: the subscripts and the statement are
    inside [try: ... except Exception: pass]. *)
Definition import_message (tbl : list message_row) (m : pyval)
    : list message_row :=
  try_pass tbl
    (p <- Py.getitem m "phone" ;;
     r <- Py.getitem m "role" ;;
     c <- Py.getitem m "content" ;;
     t <- Py.getitem m "timestamp" ;;
     insert_message tbl p r c t).

Definition import_fact (tbl : list memory_row * Z) (m : pyval)
    : list memory_row * Z :=
  try_pass tbl
    (p <- Py.getitem m "phone" ;;
     f <- Py.getitem m "fact" ;;
     c <- Py.getitem m "category" ;;
     t <- Py.getitem m "timestamp" ;;
     insert_or_ignore_memory (fst tbl) (snd tbl) p f c t).

Definition import_summary (tbl : list summary_row) (s : pyval)
    : list summary_row :=
  try_pass tbl
    (p <- Py.getitem s "phone" ;;
     x <- Py.getitem s "summary" ;;
     n <- Py.getitem s "message_count" ;;
     t <- Py.getitem s "timestamp" ;;
     insert_summary tbl p x n t).

(** [import_memory_from_json(data)]. The three loops run in one
    transaction that is committed after the last one: when the function
    raises, nothing is committed and the database is as before, which
    [Raise] stands for. *)
Definition import_memory_from_json (st : store) (data : pyval)
    : exec store :=
  ms <- Py.get data "messages" (PList []) ;;
  ms <- Py.iter ms ;;
  let messages' := fold_left import_message ms (messages st) in
  fs <- Py.get data "memories" (PList []) ;;
  fs <- Py.iter fs ;;
  let memories' :=
    fold_left import_fact fs (memories st, memories_seq st) in
  ss <- Py.get data "summaries" (PList []) ;;
  ss <- Py.iter ss ;;
  let summaries' := fold_left import_summary ss (summaries st) in
  Done {| messages := messages'; memories := fst memories';
          memories_seq := snd memories'; summaries := summaries' |}.

(** *** The fact extractor *)

Definition fact_patterns : list (string * list string) :=
  [("preference", ["i like"; "i love"; "i prefer"; "i hate"; "i enjoy";
                   "my favorite"]);
   ("personal", ["my name is"; "i live in"; "i work at"; "my job is";
                 "i am a"; "i'm a"]);
   ("goal", ["i want to"; "i need to"; "my goal is"; "i plan to";
             "i'm trying to"; "i aim to"]);
   ("business", ["my company"; "my business"; "my startup"; "my product";
                 "my client"; "revenue"; "profit"; "growth"]);
   ("reminder", ["remind me"; "don't forget"; "remember that";
                 "keep in mind"])].

(** The inner loop [for kw in keywords]: [Some] when a keyword hit saved
    the memory and returned, [None] when the loop ran to its end. *)
Fixpoint scan_keywords (st : store) (phone user_speech speech_lower : string)
    (category : string) (keywords : list string) (now : string)
    : option store :=
  match keywords with
  | [] => None
  | kw :: rest =>
      if PyStr.contains kw speech_lower
      then Some (save_memory st phone (PStr (PyStr.strip user_speech))
                   category now)
      else scan_keywords st phone user_speech speech_lower category rest now
  end.

(** The outer loop [for category, keywords in fact_patterns]. *)
Fixpoint scan_patterns (st : store) (phone user_speech speech_lower : string)
    (patterns : list (string * list string)) (now : string) : store :=
  match patterns with
  | [] => st
  | (category, keywords) :: rest =>
      match scan_keywords st phone user_speech speech_lower category
              keywords now with
      | Some st' => st'
      | None => scan_patterns st phone user_speech speech_lower rest now
      end
  end.

(** [extract_memories_from_message(phone, user_speech)] *)
Definition extract_memories_from_message (st : store)
    (phone user_speech : string) (now : string) : store :=
  scan_patterns st phone user_speech (PyStr.lower user_speech)
    fact_patterns now.

(** *** The summarizer *)

Definition dq : string := String (ascii_of_nat 34) EmptyString.

Definition fence : string := "```".

(** [f"{'User' if m['role']=='user' else 'AI'}: {m['content']}"] *)
Definition render_turn (m : history_entry) : string :=
  ((if String.eqb (role m) "user" then "User" else "AI")
   ++ ": " ++ content m)%string.

(** [l[-n:]] for a positive [n] *)
Definition last_n {A : Type} (n : nat) (l : list A) : list A :=
  skipn (List.length l - n) l.

Definition conversation_text (all_msgs : list history_entry) : string :=
  PyStr.join_lines (map render_turn (last_n 20 all_msgs)).

Definition prompt_of (conversation : string) : string :=
  ("Analyze this conversation and return a JSON response:" ++ PyStr.newline
   ++ "{" ++ PyStr.newline
   ++ "  " ++ dq ++ "summary" ++ dq ++ ": " ++ dq
   ++ "2-3 sentence summary of what was discussed" ++ dq ++ ","
   ++ PyStr.newline
   ++ "  " ++ dq ++ "facts" ++ dq ++ ": [" ++ dq
   ++ "list of important facts, preferences, or information the user shared"
   ++ dq ++ "]," ++ PyStr.newline
   ++ "  " ++ dq ++ "action_items" ++ dq ++ ": [" ++ dq
   ++ "any tasks or follow-ups mentioned" ++ dq ++ "]" ++ PyStr.newline
   ++ "}" ++ PyStr.newline
   ++ PyStr.newline
   ++ "Conversation:" ++ PyStr.newline
   ++ conversation ++ PyStr.newline
   ++ PyStr.newline
   ++ "Return ONLY valid JSON, nothing else.")%string.

(** The clean-up of a fenced answer:
    [text.split('\n', 1)[1].rsplit('```', 1)[0].strip()]. *)
Definition strip_fence (text : string) : exec string :=
  if PyStr.startswith fence text then
    match PyStr.after_first PyStr.newline text with
    | None => Raise IndexError
    | Some rest =>
        Done (PyStr.strip (match PyStr.before_last fence rest with
                           | Some body => body
                           | None => rest
                           end))
    end
  else Done text.

(** [json.loads(text)] *)
Definition loads (text : string) : exec pyval :=
  match json_loads text with
  | Some v => Done v
  | None => Raise ValueError
  end.

(** The [item] of [f"ACTION: {item}"] as text. *)
Definition format_value (item : pyval) : string :=
  match item with
  | PStr s => s
  | v => py_str v
  end.

Definition action_text (item : pyval) : pyval :=
  PStr ("ACTION: " ++ format_value item)%string.

(** A loop [for fact in facts: save_memory(phone, fact, category)]; each
    call reads the clock, [tick] counts the readings. *)
Fixpoint save_each (st : store) (phone : string) (category : string)
    (facts : list pyval) (clock : nat -> string) (tick : nat)
    : store * nat :=
  match facts with
  | [] => (st, tick)
  | f :: rest =>
      save_each (save_memory st phone f category (clock tick))
        phone category rest clock (S tick)
  end.

(** The part of [summarize_and_extract] after [json.loads]: what is
    written stays written when a later line raises; the exception ends the
    function in its [except Exception] handler. The result is the store
    and the exception that ended the writes, if any. *)
Definition save_results (st : store) (phone : string) (result : pyval)
    (count : nat) (clock : nat -> string) : store * exec unit :=
  match Py.get result "summary" PNone with
  | Raise e => (st, Raise e)
  | Done summary =>
      match (if Py.truthy summary
             then st' <- save_summary st phone summary (Z.of_nat count)
                           (clock 0%nat) ;;
                  Done (st', 1%nat)
             else Done (st, 0%nat)) with
      | Raise e => (st, Raise e)
      | Done (st1, tick1) =>
          match (fs <- Py.get result "facts" (PList []) ;; Py.iter fs) with
          | Raise e => (st1, Raise e)
          | Done facts =>
              let (st2, tick2) :=
                save_each st1 phone "extracted" facts clock tick1 in
              match (xs <- Py.get result "action_items" (PList []) ;;
                     Py.iter xs) with
              | Raise e => (st2, Raise e)
              | Done items =>
                  (fst (save_each st2 phone "action_item"
                          (map action_text items) clock tick2),
                   Done tt)
              end
          end
      end
  end.

(** The body of the [try] of [summarize_and_extract(phone)]. [genai] is
    the model client: building it may raise, and so may a call of it on a
    prompt. The result is the store afterwards, the prompts that were sent
    to the model, and the exception that left the body, if any. *)
Definition summarize_body (genai : exec (string -> exec string))
    (clock : nat -> string) (st : store) (phone : string)
    : store * list string * exec unit :=
  match genai with
  | Raise e => (st, [], Raise e)
  | Done generate_content =>
      let all_msgs := get_all_history st phone in
      if (List.length all_msgs <? 4)%nat then (st, [], Done tt)
      else
        let prompt := prompt_of (conversation_text all_msgs) in
        match (raw <- generate_content prompt ;;
               text <- strip_fence (PyStr.strip raw) ;;
               loads text) with
        | Raise e => (st, [prompt], Raise e)
        | Done result =>
            let (st', r) :=
              save_results st phone result (List.length all_msgs) clock in
            (st', [prompt], r)
        end
  end.

(** [except Exception as e: print(...)]: the handler prints and the
    function returns [None]. *)
Definition except_print (r : exec unit) : exec unit :=
  match r with
  | Done u => Done u
  | Raise _ => Done tt
  end.

(** [summarize_and_extract(phone)] *)
Definition summarize_and_extract (genai : exec (string -> exec string))
    (clock : nat -> string) (st : store) (phone : string)
    : store * list string * exec unit :=
  let '(st', calls, r) := summarize_body genai clock st phone in
  (st', calls, except_print r).

End Memory.

(** ** A runtime to run the model with

    [Json.loads] decodes the JSON texts without string escapes and without
    fractions or exponents (it answers [None] on the others); the engine
    conversions of [basic_runtime] leave a REAL and a text in an INTEGER
    column as they are. *)

Module Json.

Definition is_ws (c : ascii) : bool :=
  let n := nat_of_ascii c in
  ((n =? 32) || (n =? 9) || (n =? 10) || (n =? 13))%nat.

Fixpoint skip_ws (s : string) : string :=
  match s with
  | String c r => if is_ws c then skip_ws r else s
  | EmptyString => s
  end.

Definition is_digit (c : ascii) : bool :=
  let n := nat_of_ascii c in ((48 <=? n) && (n <=? 57))%nat.

(** The characters up to the closing quote, and the text after it. *)
Fixpoint string_body (s : string) : option (string * string) :=
  match s with
  | EmptyString => None
  | String c r =>
      let n := nat_of_ascii c in
      if (n =? 34)%nat then Some (EmptyString, r)
      else if ((n =? 92) || (n <? 32))%nat then None
      else match string_body r with
           | Some (body, rest) => Some (String c body, rest)
           | None => None
           end
  end.

Fixpoint digits (acc : Z) (s : string) : Z * string :=
  match s with
  | String c r =>
      if is_digit c
      then digits (10 * acc + Z.of_nat (nat_of_ascii c - 48)) r
      else (acc, s)
  | EmptyString => (acc, s)
  end.

Definition ends_number (s : string) : bool :=
  match s with
  | String c _ =>
      negb (PyStr.startswith "." s || PyStr.startswith "e" s
            || PyStr.startswith "E" s)
  | EmptyString => true
  end.

Definition natural (s : string) : option (Z * string) :=
  match s with
  | String c r =>
      if is_digit c then
        if PyStr.startswith "0" s && match r with
                                     | String d _ => is_digit d
                                     | EmptyString => false
                                     end
        then None
        else let (n, rest) := digits 0 s in
             if ends_number rest then Some (n, rest) else None
      else None
  | EmptyString => None
  end.

(** [d[k] = v] on the items of a dict under construction. *)
Fixpoint set_item (k : string) (v : pyval) (d : list (string * pyval))
    : list (string * pyval) :=
  match d with
  | [] => [(k, v)]
  | (k', v') :: rest =>
      if String.eqb k' k then (k', v) :: rest
      else (k', v') :: set_item k v rest
  end.

Fixpoint value (fuel : nat) (s : string) {struct fuel}
    : option (pyval * string) :=
  match fuel with
  | O => None
  | S fuel' =>
      let s := skip_ws s in
      if PyStr.startswith "null" s then Some (PNone, PyStr.drop 4 s)
      else if PyStr.startswith "true" s
      then Some (PBool true, PyStr.drop 4 s)
      else if PyStr.startswith "false" s
      then Some (PBool false, PyStr.drop 5 s)
      else if PyStr.startswith dq s then
        match string_body (PyStr.drop 1 s) with
        | Some (body, rest) => Some (PStr body, rest)
        | None => None
        end
      else if PyStr.startswith "-" s then
        match natural (PyStr.drop 1 s) with
        | Some (n, rest) => Some (PInt (- n), rest)
        | None => None
        end
      else if PyStr.startswith "[" s then
        let r := skip_ws (PyStr.drop 1 s) in
        if PyStr.startswith "]" r then Some (PList [], PyStr.drop 1 r)
        else match elements fuel' r with
             | Some (vs, rest) => Some (PList vs, rest)
             | None => None
             end
      else if PyStr.startswith "{" s then
        let r := skip_ws (PyStr.drop 1 s) in
        if PyStr.startswith "}" r then Some (PDict [], PyStr.drop 1 r)
        else match members fuel' [] r with
             | Some (d, rest) => Some (PDict d, rest)
             | None => None
             end
      else match natural s with
           | Some (n, rest) => Some (PInt n, rest)
           | None => None
           end
  end
with elements (fuel : nat) (s : string) {struct fuel}
    : option (list pyval * string) :=
  match fuel with
  | O => None
  | S fuel' =>
      match value fuel' s with
      | None => None
      | Some (v, rest) =>
          let rest := skip_ws rest in
          if PyStr.startswith "]" rest then Some ([v], PyStr.drop 1 rest)
          else if PyStr.startswith "," rest then
            match elements fuel' (PyStr.drop 1 rest) with
            | Some (vs, rest') => Some (v :: vs, rest')
            | None => None
            end
          else None
      end
  end
with members (fuel : nat) (acc : list (string * pyval)) (s : string)
    {struct fuel} : option (list (string * pyval) * string) :=
  match fuel with
  | O => None
  | S fuel' =>
      let s := skip_ws s in
      if PyStr.startswith dq s then
        match string_body (PyStr.drop 1 s) with
        | None => None
        | Some (k, rest) =>
            let rest := skip_ws rest in
            if PyStr.startswith ":" rest then
              match value fuel' (PyStr.drop 1 rest) with
              | None => None
              | Some (v, rest) =>
                  let rest := skip_ws rest in
                  let acc := set_item k v acc in
                  if PyStr.startswith "}" rest
                  then Some (acc, PyStr.drop 1 rest)
                  else if PyStr.startswith "," rest
                  then members fuel' acc (PyStr.drop 1 rest)
                  else None
              end
            else None
        end
      else None
  end.

Definition loads (s : string) : option pyval :=
  match value (2 * String.length s + 2) s with
  | Some (v, rest) =>
      match skip_ws rest with
      | EmptyString => Some v
      | String _ _ => None
      end
  | None => None
  end.

End Json.

(** [str()] of the values whose text does not depend on a float or on the
    quoting of a nested string. *)
Definition basic_str (v : pyval) : string :=
  match v with
  | PNone => "None"
  | PBool true => "True"
  | PBool false => "False"
  | PInt n => Sql.decimal n
  | PStr s => s
  | PList [] => "[]"
  | PDict [] => "{}"
  | _ => "..."
  end.

Definition basic_runtime : Runtime :=
  {| real_text := fun _ => "0.0";
     real_numeric := SReal;
     text_numeric := SText;
     py_str := basic_str;
     json_loads := Json.loads;
     real_numeric_settled := fun _ H => conj eq_refl H;
     text_numeric_settled := fun _ => conj eq_refl I |}.

(** ** Vocabulary of the properties *)

(** Strictly increasing ids: each id is below all the later ones. *)
Fixpoint ascending (ids : list Z) : bool :=
  match ids with
  | [] => true
  | x :: rest => forallb (fun y => (x <? y)%Z) rest && ascending rest
  end.

Definition mem_key (r : memory_row) : string * string :=
  (mem_phone r, mem_fact r).

Definition key_eqb (a b : string * string) : bool :=
  String.eqb (fst a) (fst b) && String.eqb (snd a) (snd b).

Definition known_key (keys : list (string * string)) (k : string * string)
    : bool :=
  existsb (fun k' => key_eqb k' k) keys.

(** No two rows share (phone, fact): the UNIQUE constraint. *)
Fixpoint unique_keys (keys : list (string * string)) : bool :=
  match keys with
  | [] => true
  | k :: rest => negb (known_key rest k) && unique_keys rest
  end.

(** The key constraints of the schema: the ids of each table increase in
    insertion order and (phone, fact) is unique in [memories]. *)
Definition well_keyed (st : store) : bool :=
  ascending (map msg_id (messages st))
  && ascending (map mem_id (memories st))
  && ascending (map sum_id (summaries st))
  && unique_keys (map mem_key (memories st)).

(** The number of stored Fact rows for (phone, fact). *)
Definition count_fact (st : store) (phone fact : string) : nat :=
  List.length
    (filter (fun r => key_eqb (mem_key r) (phone, fact)) (memories st)).

Definition message_data (r : message_row)
    : string * string * string * string :=
  (msg_phone r, msg_role r, msg_content r, msg_timestamp r).

Definition fact_data (r : memory_row) : string * string * option string :=
  (mem_phone r, mem_fact r, mem_category r).

Definition memory_data (r : memory_row)
    : string * string * option string * string :=
  (mem_phone r, mem_fact r, mem_category r, mem_timestamp r).

Definition summary_data (r : summary_row)
    : string * string * sqlval * string :=
  (sum_phone r, sum_summary r, sum_message_count r, sum_timestamp r).

(** The entries that an idempotent record of [entries], one after the
    other, adds to a table whose keys are [known]: an entry is dropped when
    its key is known or came earlier in [entries]. *)
Fixpoint record_new {E : Type} (key : E -> string * string)
    (known : list (string * string)) (entries : list E) : list E :=
  match entries with
  | [] => []
  | e :: rest =>
      if known_key known (key e) then record_new key known rest
      else e :: record_new key (known ++ [key e]) rest
  end.

Fixpoint filter_map {A B : Type} (f : A -> option B) (l : list A) : list B :=
  match l with
  | [] => []
  | a :: rest =>
      match f a with
      | Some b => b :: filter_map f rest
      | None => filter_map f rest
      end
  end.

(** The first category of the table, in table order, one of whose phrases
    occurs in the lowered utterance. *)
Definition first_category (speech_lower : string) : option string :=
  option_map fst
    (find (fun entry => existsb (fun kw => PyStr.contains kw speech_lower)
                          (snd entry))
          fact_patterns).

(** The rows the three INSERT statements append. *)
Definition new_message (tbl : list message_row)
    (phone role content now : string) : message_row :=
  {| msg_id := Sql.next_id (map msg_id tbl); msg_phone := phone;
     msg_role := role; msg_content := content; msg_timestamp := now |}.

Definition new_memory (tbl : list memory_row) (seq : Z)
    (phone fact : string) (category : option string) (now : string)
    : memory_row :=
  {| mem_id := Sql.next_id (seq :: map mem_id tbl); mem_phone := phone;
     mem_fact := fact; mem_category := category; mem_timestamp := now |}.

Definition new_summary (tbl : list summary_row) (phone summary : string)
    (message_count : sqlval) (now : string) : summary_row :=
  {| sum_id := Sql.next_id (map sum_id tbl); sum_phone := phone;
     sum_summary := summary; sum_message_count := message_count;
     sum_timestamp := now |}.

(** The utterance of the worked example of the extractor. *)
Definition sam_utterance : string := "My name is Sam and I like tea".

Section Vocabulary.
Context {rt : Runtime}.

(** The message_count cells read back as they are. *)
Definition settled_counts (st : store) : Prop :=
  Forall (fun r => Sql.settled real_numeric text_numeric
                     (sum_message_count r)) (summaries st).

(** The invariant of the database, and its share of the facts table
    (rows and id sequence) and of the summaries table. *)
Definition consistent (st : store) : Prop :=
  well_keyed st = true /\ settled_counts st.

Definition memories_kept (tbl : list memory_row * Z) : Prop :=
  ascending (map mem_id (fst tbl)) = true
  /\ unique_keys (map mem_key (fst tbl)) = true.

Definition summaries_kept (tbl : list summary_row) : Prop :=
  ascending (map sum_id tbl) = true
  /\ Forall (fun r => Sql.settled real_numeric text_numeric
                        (sum_message_count r)) tbl.

(** A turn is (role, content, clock reading). *)
Definition entry_of_turn (turn : string * string * string) : history_entry :=
  {| role := fst (fst turn); content := snd (fst turn);
     timestamp := snd turn |}.

(** A sequence of [save_message] calls for any identities, in the order
    they are made: each entry is an identity with a turn. *)
Fixpoint append_log (st : store)
    (log : list (string * (string * string * string))) : exec store :=
  match log with
  | [] => Done st
  | (phone, (role, content, now)) :: rest =>
      st' <- save_message st phone role content now ;;
      append_log st' rest
  end.

(** The turns of [log] that were appended to [phone], in the order of
    the log. *)
Definition turns_of (phone : string)
    (log : list (string * (string * string * string)))
    : list (string * string * string) :=
  map snd (filter (fun e => String.eqb (fst e) phone) log).


(** The Fact entries a decoded answer asks for, in the order of the two
    loops. *)
Definition summary_entries (phone : string) (facts actions : list string)
    : list (string * string * option string) :=
  map (fun f => (phone, f, Some "extracted")) facts
  ++ map (fun a => (phone, ("ACTION: " ++ a)%string, Some "action_item"))
       actions.

Definition summarizer_prompt (st : store) (phone : string) : string :=
  prompt_of (conversation_text (get_all_history st phone)).

(** The text a TEXT column would store for a Python value, if any. *)
Definition text_of (v : pyval) : option string :=
  match Sql.bind_param v with
  | Done c => text_cell c
  | Raise _ => None
  end.

Definition field (m : pyval) (key : string) : option pyval :=
  match m with
  | PDict d => Py.lookup key d
  | _ => None
  end.

(** The message row a snapshot entry stands for: every key present, every
    value storable as a non-null text. *)
Definition message_of_entry (m : pyval)
    : option (string * string * string * string) :=
  match field m "phone", field m "role", field m "content",
        field m "timestamp" with
  | Some p, Some r, Some c, Some t =>
      match text_of p, text_of r, text_of c, text_of t with
      | Some p, Some r, Some c, Some t => Some (p, r, c, t)
      | _, _, _, _ => None
      end
  | _, _, _, _ => None
  end.

Definition memory_of_entry (m : pyval)
    : option (string * string * option string * string) :=
  match field m "phone", field m "fact", field m "category",
        field m "timestamp" with
  | Some p, Some f, Some c, Some t =>
      match Sql.bind_param c with
      | Done c =>
          match text_of p, text_of f, text_of t with
          | Some p, Some f, Some t => Some (p, f, text_cell c, t)
          | _, _, _ => None
          end
      | Raise _ => None
      end
  | _, _, _, _ => None
  end.

Definition summary_of_entry (s : pyval)
    : option (string * string * sqlval * string) :=
  match field s "phone", field s "summary", field s "message_count",
        field s "timestamp" with
  | Some p, Some x, Some n, Some t =>
      match Sql.bind_param n with
      | Done n =>
          match text_of p, text_of x, text_of t with
          | Some p, Some x, Some t => Some (p, x, integer_affinity n, t)
          | _, _, _ => None
          end
      | Raise _ => None
      end
  | _, _, _, _ => None
  end.

(** The entries a loop [for m in data.get(key, [])] of the import visits,
    for the dict with items [d]. *)
Definition snapshot_entries (d : list (string * pyval)) (key : string)
    : exec (list pyval) :=
  v <- Py.get (PDict d) key (PList []) ;;
  Py.iter v.

Definition memory_entry_key (e : string * string * option string * string)
    : string * string :=
  (fst (fst (fst e)), snd (fst (fst e))).

Definition fact_key (e : string * string * option string)
    : string * string :=
  (fst (fst e), snd (fst e)).

End Vocabulary.

(** ** Sample data *)

Definition caller : string := "+15550100".

Definition other_caller : string := "+15550101".

(** A store after two exchanges with [caller], with one extracted fact and
    one summary. *)
Definition sample_store : store :=
  {| messages :=
       [ {| msg_id := 1; msg_phone := caller; msg_role := "user";
            msg_content := "I love hiking on weekends";
            msg_timestamp := "2024-05-01T09:00:00+00:00" |};
         {| msg_id := 2; msg_phone := caller; msg_role := "assistant";
            msg_content := "Nice, any trail in mind?";
            msg_timestamp := "2024-05-01T09:00:04+00:00" |};
         {| msg_id := 3; msg_phone := caller; msg_role := "user";
            msg_content := "Check my calendar";
            msg_timestamp := "2024-05-01T09:00:20+00:00" |};
         {| msg_id := 4; msg_phone := caller; msg_role := "assistant";
            msg_content := "You are free on Saturday.";
            msg_timestamp := "2024-05-01T09:00:25+00:00" |} ];
     memories :=
       [ {| mem_id := 1; mem_phone := caller;
            mem_fact := "I love hiking on weekends";
            mem_category := Some "preference";
            mem_timestamp := "2024-05-01T09:00:05+00:00" |} ];
     memories_seq := 1;
     summaries :=
       [ {| sum_id := 1; sum_phone := caller;
            sum_summary := "The caller plans a hike.";
            sum_message_count := SInteger 4;
            sum_timestamp := "2024-05-01T09:05:00+00:00" |} ] |}.

Definition sample_clock (n : nat) : string := "2024-05-02T18:30:00+00:00".

Definition quoted (s : string) : string := (dq ++ s ++ dq)%string.

(** The JSON text [{"summary":"x","facts":["a"],"action_items":[]}]. *)
Definition answer_text : string :=
  ("{" ++ quoted "summary" ++ ":" ++ quoted "x" ++ ","
   ++ quoted "facts" ++ ":[" ++ quoted "a" ++ "],"
   ++ quoted "action_items" ++ ":[]}")%string.

(** The same answer inside a code fence. *)
Definition fenced_answer : string :=
  (fence ++ "json" ++ PyStr.newline ++ answer_text ++ PyStr.newline
   ++ fence)%string.

(** The JSON text of an answer with an empty summary, the fact [a] twice
    and no action item. *)
Definition empty_summary_answer : string :=
  ("{" ++ quoted "summary" ++ ":" ++ quoted EmptyString ++ ","
   ++ quoted "facts" ++ ":[" ++ quoted "a" ++ "," ++ quoted "a" ++ "],"
   ++ quoted "action_items" ++ ":[]}")%string.

(** The JSON text of an answer whose [facts] is the number 5. *)
Definition misshapen_answer : string :=
  ("{" ++ quoted "summary" ++ ":" ++ quoted "x" ++ ","
   ++ quoted "facts" ++ ":5}")%string.

(** A model client that answers every prompt with [raw]. *)
Definition answering (raw : string) : exec (string -> exec string) :=
  Done (fun _ => Done raw).

(** A snapshot with a complete message, a message without its role, and a
    fact; no summaries key. *)
Definition sample_snapshot : list (string * pyval) :=
  [("messages",
    PList [PDict [("phone", PStr caller); ("role", PStr "user");
                  ("content", PStr "hello");
                  ("timestamp", PStr "2024-04-30T08:00:00+00:00")];
           PDict [("phone", PStr caller); ("content", PStr "lost");
                  ("timestamp", PStr "2024-04-30T08:00:01+00:00")]]);
   ("memories",
    PList [PDict [("phone", PStr caller); ("fact", PStr "likes tea");
                  ("category", PStr "preference");
                  ("timestamp", PStr "2024-04-30T08:00:02+00:00")]])].

(** ** The conversational turn: context, model reply *)

(** [s[:n]] *)
Fixpoint take (n : nat) (s : string) : string :=
  match n, s with
  | S n', String c r => String c (take n' r)
  | _, _ => EmptyString
  end.

(** [sep.join(parts)] *)
Fixpoint join_with (sep : string) (parts : list string) : string :=
  match parts with
  | [] => EmptyString
  | [p] => p
  | p :: rest => (p ++ sep ++ join_with sep rest)%string
  end.

(** [if text:] for a [str]. *)
Definition nonempty (text : string) : bool :=
  negb (String.eqb text EmptyString).

(** [messages[:n]] *)
Definition py_slice_to (n : nat) (v : pyval) : exec pyval :=
  match v with
  | PList l => Done (PList (firstn n l))
  | PStr s => Done (PStr (take n s))
  | _ => Raise TypeError
  end.

(** [files[0]] *)
Definition py_first (v : pyval) : exec pyval :=
  match v with
  | PList (x :: _) => Done x
  | PList [] => Raise IndexError
  | PStr (String c _) => Done (PStr (String c EmptyString))
  | PStr EmptyString => Raise IndexError
  | PDict _ => Raise KeyError
  | _ => Raise TypeError
  end.

(** Can the value be the key of a dict? *)
Definition hashable (v : pyval) : bool :=
  match v with
  | PList _ | PDict _ => false
  | _ => true
  end.

(** The Gmail client: [users().messages().list(userId='me', q='is:unread',
    maxResults=5).execute()] and [users().messages().get(userId='me',
    id=..., format='metadata', metadataHeaders=[...]).execute()]. *)
Record gmail_service : Type := {
  gmail_list_unread : exec pyval;
  gmail_get_message : pyval -> exec pyval
}.

(** The Calendar client: [events().list(calendarId='primary', timeMin=...,
    maxResults=5, singleEvents=True, orderBy='startTime').execute()]. *)
Record calendar_service : Type := {
  calendar_list_events : string -> exec pyval
}.

(** What the process gets from its environment for Google Workspace: the
    [GOOGLE_TOKENS] variable, whether the client libraries import, and
    [Credentials(...)] followed by [build(...)] for the two services, on
    the four token fields. *)
Record google_env : Type := {
  google_tokens : string;
  google_import : exec unit;
  build_gmail : pyval -> pyval -> pyval -> pyval -> exec gmail_service;
  build_calendar : pyval -> pyval -> pyval -> pyval -> exec calendar_service
}.

Section Turn.
Context {rt : Runtime}.

(** [json.loads(GOOGLE_TOKENS) if GOOGLE_TOKENS else None] *)
Definition load_tokens (env : google_env) : exec pyval :=
  if nonempty (google_tokens env) then loads (google_tokens env)
  else Done PNone.

(** The body shared by [get_gmail_service] and [get_calendar_service]:
    [None] without tokens, the built client otherwise. *)
Definition build_service {S : Type} (env : google_env)
    (build : pyval -> pyval -> pyval -> pyval -> exec S) : exec (option S) :=
  _ <- google_import env ;;
  tokens <- load_tokens env ;;
  if negb (Py.truthy tokens) then Done None
  else
    access <- Py.get tokens "access_token" PNone ;;
    refresh <- Py.get tokens "refresh_token" PNone ;;
    client_id <- Py.get tokens "client_id" PNone ;;
    client_secret <- Py.get tokens "client_secret" PNone ;;
    service <- build access refresh client_id client_secret ;;
    Done (Some service).

(** [except Exception as e: print(...); return None] *)
Definition or_none {S : Type} (r : exec (option S)) : option S :=
  match r with
  | Done o => o
  | Raise _ => None
  end.

(** [get_gmail_service()] *)
Definition get_gmail_service (env : google_env) : option gmail_service :=
  or_none (build_service env (build_gmail env)).

(** [get_calendar_service()] *)
Definition get_calendar_service (env : google_env)
    : option calendar_service :=
  or_none (build_service env (build_calendar env)).

Definition email_words : list string :=
  ["email"; "mail"; "inbox"; "unread"; "message"; "messages"].

Definition calendar_words : list string :=
  ["calendar"; "schedule"; "meeting"; "meetings"; "today"; "tomorrow";
   "event"; "events"; "busy"; "free"].

(** [any(word in speech_lower for word in words)] *)
Definition mentions (words : list string) (speech_lower : string) : bool :=
  existsb (fun word => PyStr.contains word speech_lower) words.

(** [{h['name']: h['value'] for h in headers}], as the items in the order
    they were set. *)
Fixpoint header_items (headers : list pyval) (items : list (pyval * pyval))
    : exec (list (pyval * pyval)) :=
  match headers with
  | [] => Done items
  | h :: rest =>
      name <- Py.getitem h "name" ;;
      value <- Py.getitem h "value" ;;
      if hashable name then header_items rest (items ++ [(name, value)])
      else Raise TypeError
  end.

(** [headers.get(name, default)] on these items: the value set last for the
    string [name]. *)
Fixpoint header_get (items : list (pyval * pyval)) (name : string)
    (default : pyval) : pyval :=
  match items with
  | [] => default
  | (PStr k, v) :: rest =>
      header_get rest name (if String.eqb k name then v else default)
  | _ :: rest => header_get rest name default
  end.

(** One round of [for msg in messages[:5]]: the line for one e-mail. *)
Definition email_line (gmail : gmail_service) (msg : pyval) : exec string :=
  id <- Py.getitem msg "id" ;;
  data <- gmail_get_message gmail id ;;
  payload <- Py.getitem data "payload" ;;
  headers <- Py.getitem payload "headers" ;;
  headers <- Py.iter headers ;;
  items <- header_items headers [] ;;
  Done ("- From: " ++ format_value (header_get items "From" (PStr "?"))
        ++ " | Subject: "
        ++ format_value (header_get items "Subject" (PStr "?")))%string.

Fixpoint email_lines (gmail : gmail_service) (msgs : list pyval)
    : exec (list string) :=
  match msgs with
  | [] => Done []
  | msg :: rest =>
      line <- email_line gmail msg ;;
      lines <- email_lines gmail rest ;;
      Done (line :: lines)
  end.

(** The e-mail block of [get_workspace_context], once a Gmail client is
    at hand: the part it appends to [context_parts], if any. *)
Definition email_part (gmail : gmail_service) : exec (option string) :=
  results <- gmail_list_unread gmail ;;
  messages <- Py.get results "messages" (PList []) ;;
  shown <- py_slice_to 5 messages ;;
  shown <- Py.iter shown ;;
  email_summaries <- email_lines gmail shown ;;
  match email_summaries with
  | [] => Done None
  | _ =>
      n <- Py.len messages ;;
      Done (Some ("Unread emails (" ++ Sql.decimal (Z.of_nat n)
                  ++ " total):" ++ PyStr.newline
                  ++ PyStr.join_lines email_summaries)%string)
  end.

(** One round of [for event in events]. *)
Definition event_line (event : pyval) : exec string :=
  start <- Py.getitem event "start" ;;
  date <- Py.get start "date" PNone ;;
  start <- Py.get start "dateTime" date ;;
  title <- Py.get event "summary" (PStr "No title") ;;
  Done ("- " ++ format_value title ++ " at " ++ format_value start)%string.

Fixpoint event_lines (events : list pyval) : exec (list string) :=
  match events with
  | [] => Done []
  | event :: rest =>
      line <- event_line event ;;
      lines <- event_lines rest ;;
      Done (line :: lines)
  end.

(** The calendar block; [now] is the clock reading passed as [timeMin]. *)
Definition calendar_part (cal : calendar_service) (now : string)
    : exec (option string) :=
  events_result <- calendar_list_events cal now ;;
  events <- Py.get events_result "items" (PList []) ;;
  events <- Py.iter events ;;
  event_summaries <- event_lines events ;;
  match event_summaries with
  | [] => Done None
  | _ => Done (Some ("Upcoming events:" ++ PyStr.newline
                     ++ PyStr.join_lines event_summaries)%string)
  end.

Definition part_list (part : option string) : list string :=
  match part with
  | Some text => [text]
  | None => []
  end.

Definition paragraph_break : string := (PyStr.newline ++ PyStr.newline)%string.

(** [get_workspace_context(user_speech)]. One [try] holds both blocks: an
    exception ends the function with the parts appended so far. *)
Definition get_workspace_context (env : google_env) (now : string)
    (user_speech : string) : string :=
  let speech_lower := PyStr.lower user_speech in
  match (if mentions email_words speech_lower
         then match get_gmail_service env with
              | Some gmail => email_part gmail
              | None => Done None
              end
         else Done None) with
  | Raise _ => EmptyString
  | Done emails =>
      match (if mentions calendar_words speech_lower
             then match get_calendar_service env with
                  | Some cal => calendar_part cal now
                  | None => Done None
                  end
             else Done None) with
      | Raise _ => join_with paragraph_break (part_list emails)
      | Done events =>
          join_with paragraph_break (part_list emails ++ part_list events)
      end
  end.

(** The pieces of the prompt of [get_gemini_response]. *)
Definition memory_section (memories_text summaries_text : string) : string :=
  ((if nonempty memories_text
    then PyStr.newline ++ memories_text ++ PyStr.newline else EmptyString)
   ++ (if nonempty summaries_text
       then PyStr.newline ++ summaries_text ++ PyStr.newline
       else EmptyString))%string.

Definition workspace_section (workspace_context : string) : string :=
  if nonempty workspace_context
  then (PyStr.newline ++ "LIVE DATA FROM YOUR GOOGLE WORKSPACE:"
        ++ PyStr.newline ++ workspace_context ++ PyStr.newline
        ++ PyStr.newline
        ++ "Use this real data to answer the user's question. Reference specific emails, events, or files by name.")%string
  else EmptyString.

Definition reply_prompt (user_speech history_text workspace_context
    memories_text summaries_text : string) : string :=
  PyStr.join_lines
    [ "You are Khalil's personal AI assistant with PERFECT MEMORY. You remember EVERYTHING from all past conversations.";
      "You have LIVE access to his Gmail, Calendar, Google Drive, Sheets, and Docs.";
      EmptyString;
      "CRITICAL INSTRUCTIONS:";
      "- Keep responses SHORT (2-3 sentences max) since this is a phone call";
      "- Be natural, warm, and conversational like a trusted friend";
      "- Reference past conversations and memories when relevant - show you remember";
      "- If the user mentions something important (a name, goal, preference, task), acknowledge you'll remember it";
      "- You have access to the user's full conversation history below";
      memory_section memories_text summaries_text;
      workspace_section workspace_context;
      EmptyString;
      "FULL CONVERSATION HISTORY (you remember all of this):";
      history_text;
      EmptyString;
      ("User just said: " ++ user_speech)%string;
      EmptyString;
      "Your helpful, natural response (remember: SHORT for phone):" ].

(** [if len(ai_response) > 400: ai_response = ai_response[:400] + "..."] *)
Definition shorten (ai_response : string) : string :=
  if (400 <? String.length ai_response)%nat
  then (take 400 ai_response ++ "...")%string
  else ai_response.

Definition gemini_apology : string :=
  "I heard you, but I'm having a moment connecting to my brain. Can you try again?".

(** [get_gemini_response(user_speech, history_text, workspace_context,
    memories_text, summaries_text)]; [genai] is the model client as for
    the summarizer. *)
Definition get_gemini_response (genai : exec (string -> exec string))
    (user_speech history_text workspace_context memories_text
       summaries_text : string) : string :=
  match (generate_content <- genai ;;
         raw <- generate_content
                  (reply_prompt user_speech history_text workspace_context
                     memories_text summaries_text) ;;
         Done (shorten (PyStr.strip raw))) with
  | Done ai_response => ai_response
  | Raise _ => gemini_apology
  end.

(** [f"- [{m['category']}] {m['fact']}"]; a NULL category reads [None]. *)
Definition render_memory (m : string * option string * string) : string :=
  ("- [" ++ match snd (fst m) with Some c => c | None => "None" end
   ++ "] " ++ fst (fst m))%string.

(** [f"[{s['timestamp'][:10]}] {s['summary']}"] *)
Definition render_summary (s : string * sqlval * string) : string :=
  ("[" ++ take 10 (snd s) ++ "] " ++ fst (fst s))%string.

Definition history_text (history : list history_entry) : string :=
  PyStr.join_lines (map render_turn history).

Definition memories_text (memories : list (string * option string * string))
    : string :=
  match memories with
  | [] => EmptyString
  | _ => ("THINGS YOU REMEMBER ABOUT THIS PERSON:" ++ PyStr.newline
          ++ PyStr.join_lines (map render_memory memories))%string
  end.

Definition summaries_text (summaries : list (string * sqlval * string))
    : string :=
  match summaries with
  | [] => EmptyString
  | _ => ("SUMMARIES OF PAST CONVERSATIONS:" ++ PyStr.newline
          ++ PyStr.join_lines (map render_summary summaries))%string
  end.

(** [get_ai_response(user_speech, from_number)]; [now] is the clock
    reading of the calendar block. *)
Definition get_ai_response (genai : exec (string -> exec string))
    (env : google_env) (now : string) (st : store)
    (user_speech from_number : string) : exec string :=
  history <- get_conversation_history st from_number 50 ;;
  let memories := get_memories st from_number in
  let summaries := get_summaries st from_number in
  let context := get_workspace_context env now user_speech in
  Done (get_gemini_response genai user_speech (history_text history) context
          (memories_text memories) (summaries_text summaries)).

End Turn.

(** ** Backup to Drive *)

(** The Drive client as the backup uses it, over the state [drive] of the
    remote: [Credentials(...)] and [build('drive', 'v3', ...)], the
    listing [files().list(q="name='autominds_voice_memory.json' and
    trashed=false", ...).execute()], the download [get_media], the two
    uploads, and [json.dumps(..., indent=2)]. A call that raises leaves
    the remote as it was. *)
Class Remote : Type := {
  drive : Type;
  build_drive : pyval -> pyval -> pyval -> pyval -> exec unit;
  files_list : drive -> exec pyval;
  files_get_media : drive -> pyval -> exec string;
  files_update : drive -> pyval -> string -> exec drive;
  files_create : drive -> string -> exec drive;
  json_dumps : pyval -> string
}.

(** The TwiML document a webhook answers with. *)
Record gather_options : Type := {
  gather_input : string;
  gather_action : string;
  gather_timeout : Z;
  gather_speech_timeout : string;
  gather_language : string;
  gather_hints : option string
}.

Inductive verb : Type :=
| Say (text voice : string)
| Gather (options : gather_options) (says : list (string * string))
| Redirect (url : string)
| Hangup.

(** The clock readings of one call of [voice_process]. *)
Record turn_clock : Type := {
  at_user : string;
  at_calendar : string;
  at_reply : string;
  at_fact : string;
  at_summary : nat -> string;
  at_export : string
}.

Section Service.
Context {rt : Runtime} {rm : Remote}.

(** [backup_memory_to_drive()] on the database and the remote. *)
Definition backup_memory_to_drive (env : google_env) (now : string)
    (st : store) (d : drive) : drive :=
  match (service <- build_service env build_drive ;;
         match service with
         | None => Done d
         | Some _ =>
             let content := json_dumps (export_memory_to_json st now) in
             results <- files_list d ;;
             files <- Py.get results "files" (PList []) ;;
             if Py.truthy files
             then file <- py_first files ;;
                  id <- Py.getitem file "id" ;;
                  files_update d id content
             else files_create d content
         end) with
  | Done d' => d'
  | Raise _ => d
  end.

(** [restore_memory_from_drive()] *)
Definition restore_memory_from_drive (env : google_env) (st : store)
    (d : drive) : store :=
  match (service <- build_service env build_drive ;;
         match service with
         | None => Done st
         | Some _ =>
             results <- files_list d ;;
             files <- Py.get results "files" (PList []) ;;
             if Py.truthy files
             then file <- py_first files ;;
                  file_id <- Py.getitem file "id" ;;
                  content <- files_get_media d file_id ;;
                  data <- loads content ;;
                  import_memory_from_json st data
             else Done st
         end) with
  | Done st' => st'
  | Raise _ => st
  end.

(** The content of the first file the listing of [d] shows. *)
Definition first_file_content (d : drive) : exec string :=
  results <- files_list d ;;
  files <- Py.get results "files" (PList []) ;;
  file <- py_first files ;;
  id <- Py.getitem file "id" ;;
  files_get_media d id.

(** What the backup relies on of the Drive. An update leaves the listing
    as it is and makes the content uploaded the content of the file. *)
Definition update_serves : Prop :=
  forall (d d' : drive) (id : pyval) (content : string),
    files_update d id content = Done d' ->
    files_list d' = files_list d /\ files_get_media d' id = Done content.

(** A file created in a Drive whose listing shows no file is the first
    one listed afterwards, with the content uploaded. *)
Definition create_serves : Prop :=
  forall (d d' : drive) (results : pyval) (content : string),
    files_list d = Done results ->
    Py.get results "files" (PList []) = Done (PList []) ->
    files_create d content = Done d' ->
    first_file_content d' = Done content.

(** The Drive answers the listing with a list of files and accepts the
    upload of [content] that the backup makes for that listing: an update
    of the first file when there is one, a new file otherwise. *)
Definition drive_accepts (d : drive) (content : string) : Prop :=
  exists results files,
    files_list d = Done results
    /\ Py.get results "files" (PList []) = Done (PList files)
    /\ match files with
       | [] => exists d', files_create d content = Done d'
       | file :: _ =>
           exists id d',
             Py.getitem file "id" = Done id
             /\ files_update d id content = Done d'
       end.

(** *** The voice webhooks *)

(** The process: the database, the dict [active_calls] and the remote. *)
Record server : Type := {
  db : store;
  active_calls : list (string * pyval);
  remote : drive
}.

Definition polly : string := "Polly.Joanna".

Definition speech_gather (action : string) (hints : option string)
    : gather_options :=
  {| gather_input := "speech"; gather_action := action;
     gather_timeout := 3; gather_speech_timeout := "auto";
     gather_language := "en-US"; gather_hints := hints |}.

(** [active_calls.pop(from_number, None)] *)
Definition dict_pop (key : string) (d : list (string * pyval))
    : list (string * pyval) :=
  filter (fun item => negb (String.eqb (fst item) key)) d.

(** [voice_incoming()] for a call from [from_number]. *)
Definition voice_incoming (a : server) (from_number now : string)
    : server * list verb :=
  let calls :=
    Json.set_item from_number (PDict [("started", PStr now)])
      (active_calls a) in
  let msg_count := get_message_count (db a) from_number in
  let greeting :=
    if (0 <? msg_count)%Z
    then ("Hey Khalil, welcome back! We've had " ++ Sql.decimal msg_count
          ++ " exchanges so far. What's on your mind?")%string
    else "Hey Khalil! I'm your AI assistant, connected to your Gmail, Calendar, and Drive. I remember everything we talk about. What do you need?" in
  ({| db := db a; active_calls := calls; remote := remote a |},
   [ Gather (speech_gather "/voice/process"
               (Some "help, status, goals, opportunities, leads, revenue, remember, recall"))
       [(greeting, polly)];
     Say "I didn't catch that. What can I help you with?" polly;
     Redirect "/voice/incoming" ]).

Definition goodbye_words : list string :=
  ["goodbye"; "bye"; "hang up"; "end call"; "that's all"].

(** The reply [voice_process] speaks when [get_ai_response] raises. *)
Definition trouble_apology : string :=
  "I'm having trouble connecting right now. Can you try asking again?".

(** [voice_process()] for the form fields [SpeechResult] and [From]. A
    failing [save_message] leaves the handler with the exception.
    [summarize_and_extract] and [backup_memory_to_drive] catch their own
    exceptions, so the handler around them has nothing to catch. *)
Definition voice_process (genai : exec (string -> exec string))
    (env : google_env) (clock : turn_clock) (a : server)
    (speech from_number : string) : exec (server * list verb) :=
  if negb (nonempty speech)
  then Done (a, [ Say "I didn't hear anything. Let's try again." polly;
                  Redirect "/voice/incoming" ])
  else
    st1 <- save_message (db a) from_number "user" speech (at_user clock) ;;
    if mentions goodbye_words (PyStr.lower speech)
    then
      let calls := dict_pop from_number (active_calls a) in
      let st2 :=
        fst (fst (summarize_and_extract genai (at_summary clock) st1
                    from_number)) in
      let d := backup_memory_to_drive env (at_export clock) st2 (remote a) in
      Done ({| db := st2; active_calls := calls; remote := d |},
            [ Say "Great talking with you! Everything we discussed is saved in my memory. Talk soon!" polly;
              Hangup ])
    else
      let ai_response :=
        match get_ai_response genai env (at_calendar clock) st1 speech
                from_number with
        | Done ai_response => ai_response
        | Raise _ => trouble_apology
        end in
      st2 <- save_message st1 from_number "assistant" ai_response
               (at_reply clock) ;;
      let st3 :=
        extract_memories_from_message st2 from_number speech
          (at_fact clock) in
      Done ({| db := st3; active_calls := active_calls a;
               remote := remote a |},
            [ Gather (speech_gather "/voice/process" None)
                [(ai_response, polly)];
              Say "Anything else?" polly;
              Redirect "/voice/process" ]).

End Service.

(** *** A remote to run the model with *)

(** [json.dumps] for the values [Json.loads] reads back. *)
Fixpoint basic_dumps (v : pyval) : string :=
  match v with
  | PNone => "null"
  | PBool true => "true"
  | PBool false => "false"
  | PInt n => Sql.decimal n
  | PFloat _ => "NaN"
  | PStr s => quoted s
  | PList l =>
      ("["
       ++ (fix items (l : list pyval) : string :=
             match l with
             | [] => EmptyString
             | [x] => basic_dumps x
             | x :: rest => basic_dumps x ++ ", " ++ items rest
             end) l
       ++ "]")%string
  | PDict d =>
      ("{"
       ++ (fix items (d : list (string * pyval)) : string :=
             match d with
             | [] => EmptyString
             | [(k, x)] => quoted k ++ ": " ++ basic_dumps x
             | (k, x) :: rest =>
                 quoted k ++ ": " ++ basic_dumps x ++ ", " ++ items rest
             end) d
       ++ "}")%string
  end.

Definition drive_memory_file : string := "autominds_voice_memory.json".

Definition listed_file (f : string * string) : pyval :=
  PDict [("id", PStr (fst f)); ("name", PStr drive_memory_file)].

(** A Drive that holds the backups as a list of (id, content), lists them
    in order, overwrites on update and adds on create. *)
Definition simple_remote : Remote :=
  {| drive := list (string * string);
     build_drive := fun _ _ _ _ => Done tt;
     files_list := fun d => Done (PDict [("files", PList (map listed_file d))]);
     files_get_media := fun d id =>
       match id with
       | PStr i =>
           match find (fun f => String.eqb (fst f) i) d with
           | Some f => Done (snd f)
           | None => Raise ExternalError
           end
       | _ => Raise ExternalError
       end;
     files_update := fun d id content =>
       match id with
       | PStr i =>
           if existsb (fun f => String.eqb (fst f) i) d
           then Done (map (fun f => if String.eqb (fst f) i
                                    then (i, content) else f) d)
           else Raise ExternalError
       | _ => Raise ExternalError
       end;
     files_create := fun d content =>
       Done (d ++ [(("file" ++ Sql.decimal (Z.of_nat (List.length d)))%string,
                    content)]);
     json_dumps := basic_dumps |}.

(** An environment with tokens, whose libraries import and build. *)
Definition sample_env : google_env :=
  {| google_tokens :=
       ("{" ++ quoted "access_token" ++ ": " ++ quoted "a" ++ ", "
        ++ quoted "refresh_token" ++ ": " ++ quoted "r" ++ "}")%string;
     google_import := Done tt;
     build_gmail := fun _ _ _ _ =>
       Done {| gmail_list_unread := Done (PDict []);
               gmail_get_message := fun _ => Raise ExternalError |};
     build_calendar := fun _ _ _ _ =>
       Done {| calendar_list_events := fun _ => Done (PDict []) |} |}.

Definition sample_turn_clock : turn_clock :=
  {| at_user := "2024-05-02T18:00:00+00:00";
     at_calendar := "2024-05-02T18:00:01+00:00";
     at_reply := "2024-05-02T18:00:02+00:00";
     at_fact := "2024-05-02T18:00:03+00:00";
     at_summary := sample_clock;
     at_export := "2024-05-02T18:00:04+00:00" |}.

(** A store with 21 messages of [caller], the first one unlike the
    others. *)
Definition busy_store : store :=
  {| messages :=
       {| msg_id := 1; msg_phone := caller; msg_role := "user";
          msg_content := "My name is Sam";
          msg_timestamp := "2024-05-01T08:00:00+00:00" |}
       :: map (fun n =>
                 {| msg_id := Z.of_nat n; msg_phone := caller;
                    msg_role := if Nat.even n then "user" else "assistant";
                    msg_content := "And then?";
                    msg_timestamp := "2024-05-01T09:00:00+00:00" |})
            (seq 2 20);
     memories := []; memories_seq := 0; summaries := [] |}.

(** The process at the start of a call, with [sample_store] as its
    database, no active call and an empty Drive. *)
Definition sample_server : server (rm := simple_remote) :=
  Build_server (rm := simple_remote) sample_store [] [].

(** ** The operations as steps of the database *)

Section Steps.
Context {rt : Runtime}.

(** One call of a function that writes to the database. *)
Inductive step : store -> store -> Prop :=
| step_save_message (st st' : store) (phone role content now : string) :
    save_message st phone role content now = Done st' -> step st st'
| step_save_memory (st : store) (phone : string) (fact : pyval)
    (category now : string) :
    step st (save_memory st phone fact category now)
| step_save_summary (st st' : store) (phone : string) (summary : pyval)
    (count : Z) (now : string) :
    save_summary st phone summary count now = Done st' -> step st st'
| step_extract (st : store) (phone speech now : string) :
    step st (extract_memories_from_message st phone speech now)
| step_summarize (st : store) (genai : exec (string -> exec string))
    (clock : nat -> string) (phone : string) :
    step st (fst (fst (summarize_and_extract genai clock st phone)))
| step_import (st st' : store) (data : pyval) :
    import_memory_from_json st data = Done st' -> step st st'.

(** The stores the program can be in, starting from the empty database. *)
Inductive reachable : store -> Prop :=
| reach_empty : reachable empty_store
| reach_step (st st' : store) : reachable st -> step st st' -> reachable st'.

(** [l'] is [l] followed by zero or more rows. *)
Definition grows {A : Type} (l l' : list A) : Prop :=
  exists rows, l' = l ++ rows.

(** [st'] has every row of [st], unchanged and in place, and maybe more
    rows after them. *)
Definition extends (st st' : store) : Prop :=
  grows (messages st) (messages st')
  /\ grows (memories st) (memories st')
  /\ grows (summaries st) (summaries st').

Definition memories_of (st : store) (phone : string) : list memory_row :=
  filter (fun r => String.eqb (mem_phone r) phone) (memories st).

(** Every fact that the snapshot entry [m] stands for is in [rows]. *)
Definition entry_known (rows : list memory_row) (m : pyval) : Prop :=
  forall x, memory_of_entry m = Some x ->
            known_key (map mem_key rows) (memory_entry_key x) = true.

End Steps.

(** * Properties *)

(** ** Ordering by an increasing key *)

Section Ordering.
Context {A : Type} (key : A -> Z).

Lemma insert_asc_length (x : A) (l : list A) :
  List.length (Sql.insert_asc key x l) = S (List.length l).
Proof.
  induction l as [|y r IH]; simpl; [reflexivity|].
  destruct (key x <=? key y)%Z; simpl; [reflexivity | now rewrite IH].
Qed.

Lemma order_by_length (l : list A) :
  List.length (Sql.order_by key l) = List.length l.
Proof.
  induction l as [|x r IH]; simpl; [reflexivity|].
  now rewrite insert_asc_length, IH.
Qed.

Lemma insert_asc_least (x : A) (l : list A) :
  forallb (fun y => (key x <? y)%Z) (map key l) = true ->
  Sql.insert_asc key x l = x :: l.
Proof.
  destruct l as [|y r]; simpl; [reflexivity|].
  intros H. apply andb_prop in H as [H _].
  apply Z.ltb_lt in H.
  destruct (Z.leb_spec (key x) (key y)); [reflexivity | lia].
Qed.

Lemma insert_desc_least (x : A) (l : list A) :
  Forall (fun y => (key x < key y)%Z) l ->
  Sql.insert_desc key x l = l ++ [x].
Proof.
  induction 1 as [|y r Hy _ IH]; simpl; [reflexivity|].
  destruct (Z.leb_spec (key y) (key x)); [lia | now rewrite IH].
Qed.

Lemma order_by_ascending (l : list A) :
  ascending (map key l) = true -> Sql.order_by key l = l.
Proof.
  induction l as [|x r IH]; simpl; [reflexivity|].
  intros H. apply andb_prop in H as [Hx Hr].
  rewrite (IH Hr). now apply insert_asc_least.
Qed.

Lemma order_by_desc_ascending (l : list A) :
  ascending (map key l) = true -> Sql.order_by_desc key l = List.rev l.
Proof.
  induction l as [|x r IH]; simpl; [reflexivity|].
  intros H. apply andb_prop in H as [Hx Hr].
  rewrite (IH Hr). apply insert_desc_least.
  apply Forall_forall. intros y Hy. apply in_rev in Hy.
  rewrite forallb_forall in Hx.
  apply Z.ltb_lt, Hx, in_map, Hy.
Qed.

Lemma ascending_filter (f : A -> bool) (l : list A) :
  ascending (map key l) = true -> ascending (map key (filter f l)) = true.
Proof.
  induction l as [|x r IH]; simpl; [reflexivity|].
  intros H. apply andb_prop in H as [Hx Hr].
  destruct (f x); simpl; [|now apply IH].
  rewrite (IH Hr), andb_true_r.
  rewrite forallb_forall in *. intros y Hy.
  apply Hx. apply in_map_iff in Hy as (a & <- & Ha).
  apply in_map. now apply filter_In in Ha.
Qed.

End Ordering.

Lemma next_id_above (ids : list Z) :
  Forall (fun i => (i < Sql.next_id ids)%Z) ids.
Proof.
  unfold Sql.next_id.
  induction ids as [|i r IH]; cbn [fold_right]; [constructor|].
  constructor; [lia|].
  eapply Forall_impl; [|exact IH]. cbn beta. intros. lia.
Qed.

Lemma ascending_snoc (ids : list Z) (i : Z) :
  ascending ids = true -> Forall (fun j => (j < i)%Z) ids ->
  ascending (ids ++ [i]) = true.
Proof.
  induction ids as [|x r IH]; simpl; [reflexivity|].
  intros H Hall. apply andb_prop in H as [Hx Hr].
  inversion Hall as [|? ? Hxi Hri]; subst.
  rewrite (IH Hr Hri), andb_true_r, forallb_app, Hx. simpl.
  rewrite andb_true_r. now apply Z.ltb_lt.
Qed.

Lemma ascending_next (ids : list Z) :
  ascending ids = true -> ascending (ids ++ [Sql.next_id ids]) = true.
Proof. intros H. apply ascending_snoc; [exact H | apply next_id_above]. Qed.

(** ** The message log *)

Section MessageLog.
Context {rt : Runtime}.

Lemma insert_message_text (tbl : list message_row)
    (phone role content now : string) :
  insert_message tbl (PStr phone) (PStr role) (PStr content) (PStr now)
  = Done (tbl ++ [new_message tbl phone role content now]).
Proof. reflexivity. Qed.

Lemma save_message_done (st : store) (phone role content now : string) :
  save_message st phone role content now
  = Done (with_messages st
            (messages st
             ++ [new_message (messages st) phone role content now])).
Proof. reflexivity. Qed.

Lemma well_keyed_messages (st : store) (tbl : list message_row) :
  well_keyed st = true -> ascending (map msg_id tbl) = true ->
  well_keyed (with_messages st tbl) = true.
Proof.
  unfold well_keyed. cbn [messages memories summaries with_messages].
  intros H Htbl.
  repeat (apply andb_prop in H as [H ?]).
  repeat (apply andb_true_intro; split); assumption.
Qed.

Lemma well_keyed_save_message (st st' : store)
    (phone role content now : string) :
  well_keyed st = true ->
  save_message st phone role content now = Done st' ->
  well_keyed st' = true.
Proof.
  intros H Hsave. rewrite save_message_done in Hsave.
  injection Hsave as <-. apply well_keyed_messages; [exact H|].
  rewrite map_app. cbn [map new_message msg_id].
  apply ascending_next.
  unfold well_keyed in H.
  repeat (apply andb_prop in H as [H ?]). exact H.
Qed.

Lemma history_of_well_keyed (st : store) (phone : string) :
  well_keyed st = true ->
  get_all_history st phone = map entry_of_row (messages_of st phone).
Proof.
  intros H. unfold get_all_history. f_equal.
  apply order_by_ascending, ascending_filter.
  unfold well_keyed in H.
  repeat (apply andb_prop in H as [H ?]). exact H.
Qed.

Lemma messages_of_save (st : store) (phone role content now : string) :
  messages_of
    (with_messages st
       (messages st ++ [new_message (messages st) phone role content now]))
    phone
  = messages_of st phone
    ++ [new_message (messages st) phone role content now].
Proof.
  unfold messages_of. cbn [messages with_messages].
  rewrite filter_app. cbn [filter new_message msg_phone].
  now rewrite String.eqb_refl.
Qed.

Lemma messages_of_save_other (st : store)
    (phone other role content now : string) :
  other <> phone ->
  messages_of
    (with_messages st
       (messages st ++ [new_message (messages st) phone role content now]))
    other
  = messages_of st other.
Proof.
  intros Hne. unfold messages_of. cbn [messages with_messages].
  rewrite filter_app. cbn [filter new_message msg_phone].
  destruct (String.eqb_spec phone other); [congruence | apply app_nil_r].
Qed.

Lemma append_log_history
    (log : list (string * (string * string * string))) :
  forall st : store,
    well_keyed st = true ->
    exists st',
      append_log st log = Done st'
      /\ well_keyed st' = true
      /\ forall phone,
           get_all_history st' phone
           = get_all_history st phone
             ++ map entry_of_turn (turns_of phone log).
Proof.
  induction log as [|[p [[r c] now]] rest IH]; intros st Hst.
  - exists st. cbn [append_log]. split; [reflexivity|].
    split; [exact Hst|]. intros phone. cbn. now rewrite app_nil_r.
  - cbn [append_log]. rewrite save_message_done. cbn [bind].
    set (row := new_message (messages st) p r c now).
    assert (Hst' : well_keyed (with_messages st (messages st ++ [row]))
                   = true).
    { eapply well_keyed_save_message; [exact Hst|].
      apply save_message_done. }
    destruct (IH _ Hst') as (st' & Happ & Hwk & Hhist).
    exists st'. split; [exact Happ|]. split; [exact Hwk|].
    intros phone.
    rewrite Hhist, (history_of_well_keyed _ _ Hst'),
      (history_of_well_keyed _ _ Hst).
    unfold turns_of, row. cbn [filter fst].
    destruct (String.eqb_spec p phone) as [->|Hne].
    + rewrite messages_of_save, map_app, <- app_assoc. reflexivity.
    + rewrite messages_of_save_other by congruence. reflexivity.
Qed.

Lemma no_history_without_rows (st : store) (phone : string) :
  well_keyed st = true ->
  (forall r, In r (messages st) -> msg_phone r <> phone) ->
  get_all_history st phone = [].
Proof.
  intros Hst Hnone. rewrite (history_of_well_keyed _ _ Hst).
  unfold messages_of.
  induction (messages st) as [|r rest IH]; [reflexivity|].
  cbn [filter].
  destruct (String.eqb_spec (msg_phone r) phone) as [Heq|_].
  - exfalso. apply (Hnone r); [now left | exact Heq].
  - apply IH. intros r' Hr'. apply Hnone. now right.
Qed.

(** C8. For every sequence of appends, made on a store that meets the key
    constraints of the schema, every append succeeds and, for every
    identity, [get_all_history] returns what it returned before followed
    by exactly the messages appended to that identity, in append order,
    whatever was appended to other identities in between. When the store
    held no message of the identity (the empty store included), it
    returns exactly the messages appended to it; when every append of the
    sequence is to the one identity, these are the whole sequence. *)
Theorem full_history_in_append_order (st : store)
    (log : list (string * (string * string * string))) :
  well_keyed st = true ->
  exists st',
    append_log st log = Done st'
    /\ (forall phone,
          get_all_history st' phone
          = get_all_history st phone
            ++ map entry_of_turn (turns_of phone log))
    /\ (forall phone,
          (forall r, In r (messages st) -> msg_phone r <> phone) ->
          get_all_history st' phone
          = map entry_of_turn (turns_of phone log))
    /\ (forall phone,
          (forall e, In e log -> fst e = phone) ->
          get_all_history st' phone
          = get_all_history st phone ++ map entry_of_turn (map snd log)).
Proof.
  intros Hst.
  destruct (append_log_history log st Hst) as (st' & Ha & _ & Hh).
  exists st'. split; [exact Ha|]. split; [exact Hh|]. split.
  - intros phone Hnone.
    now rewrite Hh, (no_history_without_rows _ _ Hst Hnone).
  - intros phone Hall. rewrite Hh. do 2 f_equal. unfold turns_of.
    clear Ha Hh. induction log as [|e rest IH]; [reflexivity|].
    cbn [filter]. rewrite (Hall e (or_introl eq_refl)), String.eqb_refl.
    cbn [map]. f_equal. apply IH. intros e' He'. apply Hall. now right.
Qed.

(** C9 (as amended). On a store that meets the key constraints, for every
    identity and every limit [k] not below [get_message_count] of the
    identity and not above 2^63-1, the largest integer a statement
    parameter can hold, [get_conversation_history] with limit [k] returns
    normally, with the same sequence as [get_all_history]. *)
Theorem recent_history_with_large_limit (st : store) (phone : string)
    (k : Z) :
  well_keyed st = true ->
  (get_message_count st phone <= k)%Z ->
  (k <= Sql.max_int64)%Z ->
  get_conversation_history st phone k = Done (get_all_history st phone).
Proof.
  intros Hst Hk Hmax.
  assert (Hcount : (0 <= get_message_count st phone)%Z)
    by (unfold get_message_count; lia).
  rewrite (history_of_well_keyed _ _ Hst).
  unfold get_conversation_history. cbn [Sql.bind_param].
  replace (Sql.in_int64 k) with true
    by (symmetry; unfold Sql.in_int64, Sql.min_int64, Sql.max_int64 in *;
        lia).
  cbn [bind]. unfold get_message_count in *. do 2 f_equal.
  assert (Hasc : ascending (map msg_id (messages_of st phone)) = true).
  { apply ascending_filter. unfold well_keyed in Hst.
    repeat (apply andb_prop in Hst as [Hst ?]). exact Hst. }
  rewrite (order_by_desc_ascending _ _ Hasc).
  unfold Sql.limit. destruct (Z.ltb_spec k 0); [apply rev_involutive|].
  rewrite firstn_all2; [apply rev_involutive|].
  rewrite length_rev. lia.
Qed.

End MessageLog.

(** ** The fact store *)

Lemma key_eqb_eq (a b : string * string) : key_eqb a b = true <-> a = b.
Proof.
  destruct a as [a1 a2], b as [b1 b2]. unfold key_eqb. cbn [fst snd].
  rewrite andb_true_iff, !String.eqb_eq. split.
  - now intros [-> ->].
  - intros H. now injection H.
Qed.

Lemma key_eqb_refl (a : string * string) : key_eqb a a = true.
Proof. now apply key_eqb_eq. Qed.

Lemma key_eqb_sym (a b : string * string) : key_eqb a b = key_eqb b a.
Proof.
  unfold key_eqb.
  now rewrite (String.eqb_sym (fst a)), (String.eqb_sym (snd a)).
Qed.

Lemma key_eqb_neq (a b : string * string) : a <> b -> key_eqb a b = false.
Proof.
  intros H. destruct (key_eqb a b) eqn:E; [|reflexivity].
  now apply key_eqb_eq in E.
Qed.

Lemma known_key_app (keys keys' : list (string * string))
    (k : string * string) :
  known_key (keys ++ keys') k = known_key keys k || known_key keys' k.
Proof. apply existsb_app. Qed.

Lemma known_key_snoc (keys : list (string * string))
    (k k' : string * string) :
  known_key (keys ++ [k']) k = known_key keys k || key_eqb k' k.
Proof. rewrite known_key_app. cbn. now rewrite orb_false_r. Qed.

Lemma unique_keys_snoc (keys : list (string * string))
    (k : string * string) :
  unique_keys keys = true -> known_key keys k = false ->
  unique_keys (keys ++ [k]) = true.
Proof.
  induction keys as [|x rest IH]; cbn [unique_keys app]; [reflexivity|].
  intros Hu Hk. apply andb_prop in Hu as [Hx Hrest].
  cbn in Hk. apply orb_false_elim in Hk as [Hxk Hk].
  rewrite (IH Hrest Hk), andb_true_r, known_key_snoc.
  rewrite key_eqb_sym, Hxk, orb_false_r. exact Hx.
Qed.

Lemma count_unique (tbl : list memory_row) (k : string * string) :
  unique_keys (map mem_key tbl) = true ->
  List.length (filter (fun r => key_eqb (mem_key r) k) tbl)
  = if known_key (map mem_key tbl) k then 1%nat else 0%nat.
Proof.
  induction tbl as [|r rest IH]; cbn [map unique_keys filter];
    [reflexivity|].
  intros Hu. apply andb_prop in Hu as [Hr Hrest].
  specialize (IH Hrest). cbn [known_key existsb].
  fold (known_key (map mem_key rest) k).
  destruct (key_eqb (mem_key r) k) eqn:E; cbn [orb List.length].
  - apply key_eqb_eq in E. subst k.
    apply negb_true_iff in Hr. rewrite Hr in IH. now rewrite IH.
  - exact IH.
Qed.

Section FactStore.
Context {rt : Runtime}.

Lemma has_fact_known (tbl : list memory_row) (phone fact : string) :
  has_fact tbl phone fact = known_key (map mem_key tbl) (phone, fact).
Proof.
  unfold has_fact, known_key. induction tbl as [|r rest IH]; cbn;
    [reflexivity|].
  now rewrite IH.
Qed.

Lemma insert_or_ignore_text (tbl : list memory_row) (seq : Z)
    (phone fact now : string) (category : pyval) (c : sqlval) :
  Sql.bind_param category = Done c ->
  insert_or_ignore_memory tbl seq (PStr phone) (PStr fact) category
    (PStr now)
  = Done (if has_fact tbl phone fact then tbl
          else tbl ++ [new_memory tbl seq phone fact (text_cell c) now],
          Sql.next_id (seq :: map mem_id tbl)).
Proof.
  intros Hc. unfold insert_or_ignore_memory.
  cbn [Sql.bind_param bind]. rewrite Hc. cbn [bind text_cell].
  now destruct (has_fact tbl phone fact).
Qed.

Lemma save_memory_text (st : store) (phone fact category now : string) :
  save_memory st phone (PStr fact) category now
  = with_memories st
      (if has_fact (memories st) phone fact then memories st
       else memories st
            ++ [new_memory (memories st) (memories_seq st) phone fact
                  (Some category) now],
       Sql.next_id (memories_seq st :: map mem_id (memories st))).
Proof.
  unfold save_memory.
  now rewrite (insert_or_ignore_text _ _ _ _ _ (PStr category)
                 (SText category)).
Qed.

Lemma save_memory_frame (st : store) (phone : string) (fact : pyval)
    (category now : string) :
  messages (save_memory st phone fact category now) = messages st
  /\ summaries (save_memory st phone fact category now) = summaries st.
Proof. split; reflexivity. Qed.

Lemma memories_after_save (st : store) (phone fact category now : string) :
  memories (save_memory st phone (PStr fact) category now)
  = if has_fact (memories st) phone fact then memories st
    else memories st
         ++ [new_memory (memories st) (memories_seq st) phone fact
               (Some category) now].
Proof. now rewrite save_memory_text. Qed.

Lemma has_fact_after_save (st : store) (phone fact category now : string) :
  has_fact (memories (save_memory st phone (PStr fact) category now))
    phone fact = true.
Proof.
  rewrite memories_after_save.
  destruct (has_fact (memories st) phone fact) eqn:E; [exact E|].
  rewrite has_fact_known, map_app. cbn [map]. rewrite known_key_snoc.
  change (mem_key (new_memory (memories st) (memories_seq st) phone fact
                     (Some category) now))
    with (phone, fact).
  now rewrite key_eqb_refl, orb_true_r.
Qed.

Lemma has_fact_other_after_save (st : store)
    (phone fact category now phone' fact' : string) :
  (phone, fact) <> (phone', fact') ->
  has_fact (memories (save_memory st phone (PStr fact) category now))
    phone' fact'
  = has_fact (memories st) phone' fact'.
Proof.
  intros Hne. rewrite memories_after_save.
  destruct (has_fact (memories st) phone fact); [reflexivity|].
  rewrite !has_fact_known, map_app. cbn [map]. rewrite known_key_snoc.
  change (mem_key (new_memory (memories st) (memories_seq st) phone fact
                     (Some category) now))
    with (phone, fact).
  now rewrite (key_eqb_neq _ _ Hne), orb_false_r.
Qed.

Lemma well_keyed_rows (st st' : store) :
  messages st' = messages st -> memories st' = memories st ->
  summaries st' = summaries st -> well_keyed st' = well_keyed st.
Proof. unfold well_keyed. now intros -> -> ->. Qed.

Lemma ascending_next_memory (tbl : list memory_row) (seq : Z) :
  ascending (map mem_id tbl) = true ->
  ascending (map mem_id tbl ++ [Sql.next_id (seq :: map mem_id tbl)]) = true.
Proof.
  intros H. apply ascending_snoc; [exact H|].
  pose proof (next_id_above (seq :: map mem_id tbl)) as Habove.
  now inversion Habove.
Qed.

Lemma well_keyed_save_memory (st : store) (phone : string) (fact : pyval)
    (category now : string) :
  well_keyed st = true ->
  well_keyed (save_memory st phone fact category now) = true.
Proof.
  intros H. unfold save_memory, insert_or_ignore_memory.
  destruct (Sql.bind_param fact) as [f|e] eqn:Ef;
    cbn [Sql.bind_param bind try_pass text_cell];
    [|now rewrite (well_keyed_rows st)].
  destruct (text_cell f) as [ft|];
    cbn [try_pass]; [|now rewrite (well_keyed_rows st)].
  destruct (has_fact (memories st) phone ft) eqn:Eh;
    cbn [try_pass]; [now rewrite (well_keyed_rows st)|].
  unfold well_keyed in *.
  cbn [messages memories summaries with_memories fst].
  repeat (apply andb_prop in H as [H ?]).
  repeat (apply andb_true_intro; split); try assumption.
  - rewrite map_app. cbn [map mem_id]. now apply ascending_next_memory.
  - rewrite map_app. cbn [map]. apply unique_keys_snoc; [assumption|].
    rewrite has_fact_known in Eh. exact Eh.
Qed.

(** C1. On a store that meets the key constraints, recording the same
    (identity, fact) twice leaves exactly one stored row for the pair: the
    second statement succeeds without an error and keeps the rows as they
    are (it only uses up an id of the sequence), so the second call leaves
    the three tables unchanged, whatever the categories. Recording the
    same fact text under two different identities leaves one row for each
    identity, which are two distinct rows. *)
Theorem record_is_idempotent (st : store) (p1 p2 fact c1 c2 t1 t2 : string) :
  well_keyed st = true ->
  p1 <> p2 ->
  let st1 := save_memory st p1 (PStr fact) c1 t1 in
  let st2 := save_memory st1 p1 (PStr fact) c2 t2 in
  let st3 := save_memory st1 p2 (PStr fact) c2 t2 in
  (exists seq,
     insert_or_ignore_memory (memories st1) (memories_seq st1)
       (PStr p1) (PStr fact) (PStr c2) (PStr t2)
     = Done (memories st1, seq))
  /\ memories st2 = memories st1
  /\ messages st2 = messages st1
  /\ summaries st2 = summaries st1
  /\ count_fact st2 p1 fact = 1%nat
  /\ count_fact st3 p1 fact = 1%nat
  /\ count_fact st3 p2 fact = 1%nat
  /\ (exists r1 r2,
        In r1 (memories st3) /\ In r2 (memories st3) /\ r1 <> r2
        /\ mem_key r1 = (p1, fact) /\ mem_key r2 = (p2, fact)).
Proof.
  intros Hst Hne st1 st2 st3.
  assert (H1 : has_fact (memories st1) p1 fact = true)
    by apply has_fact_after_save.
  assert (Hw1 : well_keyed st1 = true) by now apply well_keyed_save_memory.
  assert (Hw3 : well_keyed st3 = true) by now apply well_keyed_save_memory.
  assert (Hu : forall s, well_keyed s = true ->
                         unique_keys (map mem_key (memories s)) = true).
  { intros s Hs. unfold well_keyed in Hs.
    now apply andb_prop in Hs as [_ Hs]. }
  assert (Hsame : memories st2 = memories st1).
  { unfold st2. now rewrite memories_after_save, H1. }
  assert (H31 : has_fact (memories st3) p1 fact = true).
  { unfold st3. rewrite has_fact_other_after_save; [exact H1|].
    intros E. injection E as E'. congruence. }
  assert (H32 : has_fact (memories st3) p2 fact = true)
    by apply has_fact_after_save.
  assert (Hc31 : count_fact st3 p1 fact = 1%nat).
  { unfold count_fact. rewrite (count_unique _ _ (Hu _ Hw3)).
    now rewrite <- has_fact_known, H31. }
  assert (Hc32 : count_fact st3 p2 fact = 1%nat).
  { unfold count_fact. rewrite (count_unique _ _ (Hu _ Hw3)).
    now rewrite <- has_fact_known, H32. }
  split.
  { eexists.
    rewrite (insert_or_ignore_text _ _ _ _ _ (PStr c2) (SText c2) eq_refl).
    now rewrite H1. }
  split; [exact Hsame|]. split; [reflexivity|]. split; [reflexivity|].
  split.
  { unfold count_fact. rewrite Hsame.
    rewrite (count_unique _ _ (Hu _ Hw1)).
    now rewrite <- has_fact_known, H1. }
  split; [exact Hc31|]. split; [exact Hc32|].
  unfold has_fact in H31, H32.
  apply existsb_exists in H31 as (r1 & Hin1 & E1).
  apply existsb_exists in H32 as (r2 & Hin2 & E2).
  apply andb_prop in E1 as [E1p E1f]. apply andb_prop in E2 as [E2p E2f].
  apply String.eqb_eq in E1p, E1f, E2p, E2f.
  exists r1, r2. repeat split; try assumption.
  - intros ->. congruence.
  - unfold mem_key. congruence.
  - unfold mem_key. congruence.
Qed.

End FactStore.

(** ** The fact extractor *)

Section FactExtractor.
Context {rt : Runtime}.

Lemma scan_keywords_hit (st : store) (phone speech lowered category : string)
    (keywords : list string) (now : string) :
  scan_keywords st phone speech lowered category keywords now
  = if existsb (fun kw => PyStr.contains kw lowered) keywords
    then Some (save_memory st phone (PStr (PyStr.strip speech)) category now)
    else None.
Proof.
  induction keywords as [|kw rest IH]; cbn [scan_keywords existsb];
    [reflexivity|].
  destruct (PyStr.contains kw lowered); [reflexivity | exact IH].
Qed.

Lemma scan_patterns_find (st : store) (phone speech lowered : string)
    (patterns : list (string * list string)) (now : string) :
  scan_patterns st phone speech lowered patterns now
  = match find (fun entry =>
                  existsb (fun kw => PyStr.contains kw lowered) (snd entry))
            patterns with
    | Some entry =>
        save_memory st phone (PStr (PyStr.strip speech)) (fst entry) now
    | None => st
    end.
Proof.
  induction patterns as [|[category keywords] rest IH];
    cbn [scan_patterns find fst snd]; [reflexivity|].
  rewrite scan_keywords_hit.
  destruct (existsb _ keywords); [reflexivity | exact IH].
Qed.

Lemma extract_by_first_category (st : store) (phone speech now : string) :
  extract_memories_from_message st phone speech now
  = match first_category (PyStr.lower speech) with
    | Some category =>
        save_memory st phone (PStr (PyStr.strip speech)) category now
    | None => st
    end.
Proof.
  unfold extract_memories_from_message, first_category.
  rewrite scan_patterns_find.
  now destruct (find _ fact_patterns).
Qed.

(** C4 (as amended). For every utterance the extractor records at most
    one Fact. The categories are scanned in the order preference,
    personal, goal, business, reminder; a phrase matches when it occurs in
    the lowered utterance. Under the first category with a matching
    phrase the utterance, with its leading and trailing whitespace
    stripped, is recorded through the idempotent [save_memory], and the
    scan stops: afterwards the stripped text is stored for the identity,
    as one new row of that category when it was not stored before. When
    no phrase matches the store is unchanged. The message log and the
    summaries are never touched. *)
Theorem extractor_records_first_match (st : store)
    (phone speech now : string) :
  let st' := extract_memories_from_message st phone speech now in
  let text := PyStr.strip speech in
  map fst fact_patterns
  = ["preference"; "personal"; "goal"; "business"; "reminder"]
  /\ st' = match first_category (PyStr.lower speech) with
           | Some category => save_memory st phone (PStr text) category now
           | None => st
           end
  /\ (List.length (memories st') <= S (List.length (memories st)))%nat
  /\ messages st' = messages st
  /\ summaries st' = summaries st
  /\ (first_category (PyStr.lower speech) = None -> st' = st)
  /\ (forall category,
        first_category (PyStr.lower speech) = Some category ->
        has_fact (memories st') phone text = true
        /\ (has_fact (memories st) phone text = false ->
            memories st'
            = memories st
              ++ [new_memory (memories st) (memories_seq st) phone text
                    (Some category) now])).
Proof.
  intros st' text. unfold st', text.
  rewrite extract_by_first_category.
  split; [reflexivity|]. split; [reflexivity|].
  destruct (first_category (PyStr.lower speech)) as [category|].
  - pose proof (has_fact_after_save st phone (PyStr.strip speech)
                  category now) as Hin.
    rewrite memories_after_save in *.
    split.
    { destruct (has_fact (memories st) phone (PyStr.strip speech));
        [lia|]. rewrite length_app. cbn. lia. }
    split; [reflexivity|]. split; [reflexivity|].
    split; [discriminate|].
    intros c Hc. injection Hc as <-. split; [exact Hin|].
    intros ->. reflexivity.
  - split; [lia|]. split; [reflexivity|]. split; [reflexivity|].
    split; [reflexivity|]. discriminate.
Qed.

(** C3 (as amended). On the utterance "My name is Sam and I like tea",
    not yet stored for the identity, the extractor records exactly one
    Fact, the utterance itself, and its category is "preference": the
    phrase "i like" of the first category of the table matches, so the
    later category "personal" is not reached. *)
Theorem sam_utterance_is_a_preference (st : store) (phone now : string) :
  has_fact (memories st) phone sam_utterance = false ->
  let st' := extract_memories_from_message st phone sam_utterance now in
  memories st'
  = memories st
    ++ [new_memory (memories st) (memories_seq st) phone sam_utterance
          (Some "preference") now]
  /\ messages st' = messages st
  /\ summaries st' = summaries st.
Proof.
  intros Hnew st'. unfold st'. rewrite extract_by_first_category.
  change (first_category (PyStr.lower sam_utterance))
    with (Some "preference").
  change (PyStr.strip sam_utterance) with sam_utterance.
  cbv beta iota. rewrite memories_after_save, Hnew.
  repeat split; reflexivity.
Qed.

End FactExtractor.

(** ** The summarizer *)

Lemma unique_keys_middle (l1 l2 : list (string * string))
    (k : string * string) :
  unique_keys (l1 ++ k :: l2) = true -> known_key l1 k = false.
Proof.
  induction l1 as [|x rest IH]; cbn [app unique_keys]; [reflexivity|].
  intros H. apply andb_prop in H as [Hx Hrest].
  apply negb_true_iff in Hx. rewrite known_key_app in Hx.
  apply orb_false_elim in Hx as [_ Hx]. cbn in Hx.
  apply orb_false_elim in Hx as [Hx _].
  cbn. rewrite key_eqb_sym, Hx. cbn. now apply IH.
Qed.

Section RecordNew.
Context {E : Type} (key : E -> string * string).

Lemma record_new_app (e1 e2 : list E) :
  forall known,
    record_new key known (e1 ++ e2)
    = record_new key known e1
      ++ record_new key (known ++ map key (record_new key known e1)) e2.
Proof.
  induction e1 as [|e rest IH]; intros known; cbn [record_new app map].
  - now rewrite app_nil_r.
  - destruct (known_key known (key e)); [apply IH|].
    cbn [map app]. rewrite IH, <- app_assoc. reflexivity.
Qed.

Lemma record_new_fresh (entries : list E) :
  forall known,
    unique_keys (known ++ map key entries) = true ->
    record_new key known entries = entries.
Proof.
  induction entries as [|e rest IH]; intros known Hu; cbn [record_new map];
    [reflexivity|].
  cbn [map] in Hu. rewrite (unique_keys_middle _ _ _ Hu).
  f_equal. apply IH. rewrite <- app_assoc. exact Hu.
Qed.

Lemma record_new_length (entries : list E) :
  forall known,
    (List.length (record_new key known entries) <= List.length entries)%nat.
Proof.
  induction entries as [|e rest IH]; intros known; cbn [record_new];
    [lia|].
  destruct (known_key known (key e)); cbn [List.length].
  - specialize (IH known). lia.
  - specialize (IH (known ++ [key e])). lia.
Qed.

End RecordNew.

Section Summarizer.
Context {rt : Runtime}.

Lemma history_length (st : store) (phone : string) :
  Z.of_nat (List.length (get_all_history st phone))
  = get_message_count st phone.
Proof.
  unfold get_all_history, get_message_count.
  now rewrite length_map, order_by_length.
Qed.

(** C7. For every identity whose stored message count is below 4, the
    summarizer sends no prompt to the model, leaves the three tables as
    they are and returns normally, whatever the model client is. *)
Theorem summarizer_needs_four_messages
    (genai : exec (string -> exec string)) (clock : nat -> string)
    (st : store) (phone : string) :
  (get_message_count st phone < 4)%Z ->
  summarize_and_extract genai clock st phone = (st, [], Done tt).
Proof.
  intros Hfew. rewrite <- history_length in Hfew.
  unfold summarize_and_extract, summarize_body.
  destruct genai as [generate_content|e]; [|reflexivity].
  destruct (Nat.ltb_spec (List.length (get_all_history st phone)) 4);
    [reflexivity | lia].
Qed.


Lemma save_each_text (category : string) (clock : nat -> string)
    (phone : string) (facts : list string) :
  forall (st : store) (tick : nat),
    let st' := fst (save_each st phone category (map PStr facts)
                      clock tick) in
    let added := record_new fact_key (map mem_key (memories st))
                   (map (fun f => (phone, f, Some category)) facts) in
    messages st' = messages st
    /\ summaries st' = summaries st
    /\ map fact_data (memories st') = map fact_data (memories st) ++ added
    /\ map mem_key (memories st')
       = map mem_key (memories st) ++ map fact_key added.
Proof.
  induction facts as [|f rest IH]; intros st tick;
    cbn [map save_each fst record_new].
  - now rewrite !app_nil_r.
  - specialize (IH (save_memory st phone (PStr f) category (clock tick))
                  (S tick)).
    cbv zeta in IH. destruct IH as (Hm & Hs & Hd & Hk).
    rewrite Hm, Hs, Hd, Hk. clear Hm Hs Hd Hk.
    rewrite memories_after_save.
    destruct (save_memory_frame st phone (PStr f) category (clock tick))
      as [-> ->].
    change (fact_key (phone, f, Some category)) with (phone, f).
    rewrite <- has_fact_known.
    destruct (has_fact (memories st) phone f).
    + repeat split; reflexivity.
    + rewrite !map_app. cbn [map app].
      change (mem_key (new_memory (memories st) (memories_seq st) phone f
                         (Some category) (clock tick))) with (phone, f).
      change (fact_data (new_memory (memories st) (memories_seq st) phone f
                           (Some category) (clock tick)))
        with (phone, f, Some category).
      change (fact_key (phone, f, Some category)) with (phone, f).
      repeat split; try reflexivity; now rewrite <- app_assoc.
Qed.

Lemma action_texts (actions : list string) :
  map action_text (map PStr actions)
  = map PStr (map (fun a => ("ACTION: " ++ a)%string) actions).
Proof. rewrite !map_map. reflexivity. Qed.

Lemma save_summary_text (st : store) (phone summary : string) (count : Z)
    (now : string) :
  (0 <= count <= Sql.max_int64)%Z ->
  save_summary st phone (PStr summary) count now
  = Done (with_summaries st
            (summaries st
             ++ [new_summary (summaries st) phone summary
                   (SInteger count) now])).
Proof.
  intros Hc. unfold save_summary, insert_summary.
  cbn [Sql.bind_param bind].
  replace (Sql.in_int64 count) with true; [reflexivity|].
  symmetry. unfold Sql.in_int64, Sql.min_int64, Sql.max_int64 in *.
  apply andb_true_intro. split; apply Z.leb_le; lia.
Qed.

End Summarizer.

Section SummarizerResults.
Context {rt : Runtime}.

Lemma save_both_text (clock : nat -> string) (phone : string)
    (facts actions : list string) (st1 : store) (tick1 : nat) :
  let (st2, tick2) :=
    save_each st1 phone "extracted" (map PStr facts) clock tick1 in
  let st3 := fst (save_each st2 phone "action_item"
                    (map action_text (map PStr actions)) clock tick2) in
  messages st3 = messages st1
  /\ summaries st3 = summaries st1
  /\ map fact_data (memories st3)
     = map fact_data (memories st1)
       ++ record_new fact_key (map mem_key (memories st1))
            (summary_entries phone facts actions).
Proof.
  pose proof (save_each_text "extracted" clock phone facts st1 tick1) as H2.
  destruct (save_each st1 phone "extracted" (map PStr facts) clock tick1)
    as [st2 tick2].
  cbv zeta in H2. cbn [fst] in H2. destruct H2 as (Hm2 & Hs2 & Hd2 & Hk2).
  rewrite action_texts.
  pose proof (save_each_text "action_item" clock phone
                (map (fun a => ("ACTION: " ++ a)%string) actions)
                st2 tick2) as H3.
  cbv zeta in H3. destruct H3 as (Hm3 & Hs3 & Hd3 & _).
  cbv zeta. rewrite Hm3, Hs3, Hd3, Hm2, Hs2, Hd2, Hk2.
  split; [reflexivity|]. split; [reflexivity|].
  unfold summary_entries. rewrite record_new_app, <- app_assoc, map_map.
  reflexivity.
Qed.

Lemma save_results_text (st : store) (phone : string)
    (d : list (string * pyval)) (summary : string)
    (facts actions : list string) (count : nat) (clock : nat -> string) :
  (Z.of_nat count <= Sql.max_int64)%Z ->
  Py.lookup "summary" d = Some (PStr summary) ->
  Py.lookup "facts" d = Some (PList (map PStr facts)) ->
  Py.lookup "action_items" d = Some (PList (map PStr actions)) ->
  exists st',
    save_results st phone (PDict d) count clock = (st', Done tt)
    /\ messages st' = messages st
    /\ summaries st'
       = (if String.eqb summary EmptyString then summaries st
          else summaries st
               ++ [new_summary (summaries st) phone summary
                     (SInteger (Z.of_nat count)) (clock 0%nat)])
    /\ map fact_data (memories st')
       = map fact_data (memories st)
         ++ record_new fact_key (map mem_key (memories st))
              (summary_entries phone facts actions).
Proof.
  intros Hcount Hsum Hfacts Hacts. unfold save_results.
  cbn [Py.get]. rewrite Hsum, Hfacts, Hacts.
  cbn [Py.truthy bind Py.iter].
  destruct (String.eqb summary EmptyString) eqn:Eempty; cbn [negb].
  - pose proof (save_both_text clock phone facts actions st 0%nat) as H.
    destruct (save_each st phone "extracted" (map PStr facts) clock 0)
      as [st2 tick2].
    eexists. split; [reflexivity|]. exact H.
  - rewrite save_summary_text by lia. cbn [bind].
    set (st1 := with_summaries st _).
    pose proof (save_both_text clock phone facts actions st1 1%nat) as H.
    destruct (save_each st1 phone "extracted" (map PStr facts) clock 1)
      as [st2 tick2].
    eexists. split; [reflexivity|]. exact H.
Qed.

(** C2 (as amended). For every identity with at least 4 stored messages
    and every model answer that, after the optional fence is stripped,
    decodes to a JSON object whose [summary] is a string, whose [facts] is
    a list of strings and whose [action_items] is a list of strings: the
    summarizer sends exactly one prompt and returns normally; the message
    log is unchanged; it writes exactly one Summary row, with
    message_count equal to the identity's message count at call time,
    when the summary string is not empty, and none when it is empty; it
    records each [facts] entry with category "extracted" and then each
    [action_items] entry, prefixed with "ACTION: ", with category
    "action_item" through the idempotent [save_memory], so that the added
    Fact rows are the entries whose text was not stored for the identity
    and did not come earlier in the answer; when all the texts are new and
    different these are one row per entry. *)
Theorem summarizer_writes_results
    (genai : exec (string -> exec string)) (clock : nat -> string)
    (st : store) (phone : string)
    (generate_content : string -> exec string) (raw text : string)
    (d : list (string * pyval)) (summary : string)
    (facts actions : list string) :
  (4 <= get_message_count st phone <= Sql.max_int64)%Z ->
  genai = Done generate_content ->
  generate_content (summarizer_prompt st phone) = Done raw ->
  strip_fence (PyStr.strip raw) = Done text ->
  json_loads text = Some (PDict d) ->
  Py.lookup "summary" d = Some (PStr summary) ->
  Py.lookup "facts" d = Some (PList (map PStr facts)) ->
  Py.lookup "action_items" d = Some (PList (map PStr actions)) ->
  exists st',
    summarize_and_extract genai clock st phone
    = (st', [summarizer_prompt st phone], Done tt)
    /\ messages st' = messages st
    /\ summaries st'
       = (if String.eqb summary EmptyString then summaries st
          else summaries st
               ++ [new_summary (summaries st) phone summary
                     (SInteger (get_message_count st phone))
                     (clock 0%nat)])
    /\ map fact_data (memories st')
       = map fact_data (memories st)
         ++ record_new fact_key (map mem_key (memories st))
              (summary_entries phone facts actions)
    /\ (unique_keys (map mem_key (memories st)
                     ++ map fact_key (summary_entries phone facts actions))
        = true ->
        map fact_data (memories st')
        = map fact_data (memories st)
          ++ summary_entries phone facts actions).
Proof.
  intros Hcount -> Hcall Hfence Hparse Hsum Hfacts Hacts.
  rewrite <- history_length in *.
  destruct (save_results_text st phone d summary facts actions
              (List.length (get_all_history st phone)) clock
              (proj2 Hcount) Hsum Hfacts Hacts)
    as (st' & Hsave & Hm & Hs & Hd).
  exists st'. unfold summarize_and_extract, summarize_body.
  fold (summarizer_prompt st phone).
  destruct (Nat.ltb_spec (List.length (get_all_history st phone)) 4);
    [lia|].
  rewrite Hcall. cbn [bind]. rewrite Hfence. cbn [bind].
  unfold loads. rewrite Hparse, Hsave. cbn [except_print].
  split; [reflexivity|]. split; [exact Hm|]. split; [exact Hs|].
  split; [exact Hd|].
  intros Hu. rewrite Hd. now rewrite (record_new_fresh _ _ _ Hu).
Qed.

End SummarizerResults.

(** ** Export and import *)

Section Snapshot.
Context {rt : Runtime}.

Lemma import_by_entries (st : store) (d : list (string * pyval))
    (ms fs ss : list pyval) :
  snapshot_entries d "messages" = Done ms ->
  snapshot_entries d "memories" = Done fs ->
  snapshot_entries d "summaries" = Done ss ->
  import_memory_from_json st (PDict d)
  = Done {| messages := fold_left import_message ms (messages st);
            memories :=
              fst (fold_left import_fact fs (memories st, memories_seq st));
            memories_seq :=
              snd (fold_left import_fact fs (memories st, memories_seq st));
            summaries := fold_left import_summary ss (summaries st) |}.
Proof.
  unfold snapshot_entries, import_memory_from_json. cbn [Py.get bind].
  intros -> -> ->. reflexivity.
Qed.

Lemma import_message_entry (tbl : list message_row) (m : pyval) :
  map message_data (import_message tbl m)
  = map message_data tbl
    ++ match message_of_entry m with Some x => [x] | None => [] end.
Proof.
  unfold import_message, message_of_entry, field, Py.getitem, text_of.
  destruct m as [| | | | |l|d]; cbn [try_pass bind];
    try (now rewrite app_nil_r).
  destruct (Py.lookup "phone" d) as [p|]; cbn [try_pass bind];
    [|now rewrite app_nil_r].
  destruct (Py.lookup "role" d) as [r|]; cbn [try_pass bind];
    [|now rewrite app_nil_r].
  destruct (Py.lookup "content" d) as [c|]; cbn [try_pass bind];
    [|now rewrite app_nil_r].
  destruct (Py.lookup "timestamp" d) as [t|]; cbn [try_pass bind];
    [|now rewrite app_nil_r].
  unfold insert_message.
  destruct (Sql.bind_param p) as [p'|]; cbn [try_pass bind];
    [|now rewrite app_nil_r].
  destruct (Sql.bind_param r) as [r'|]; cbn [try_pass bind];
    [|destruct (text_cell p'); now rewrite app_nil_r].
  destruct (Sql.bind_param c) as [c'|]; cbn [try_pass bind];
    [|destruct (text_cell p'), (text_cell r'); now rewrite app_nil_r].
  destruct (Sql.bind_param t) as [t'|]; cbn [try_pass bind];
    [|destruct (text_cell p'), (text_cell r'), (text_cell c');
      now rewrite app_nil_r].
  destruct (text_cell p'), (text_cell r'), (text_cell c'), (text_cell t');
    cbn [try_pass]; try (now rewrite app_nil_r).
  now rewrite map_app.
Qed.

Lemma import_messages_entries (ms : list pyval) :
  forall tbl,
    map message_data (fold_left import_message ms tbl)
    = map message_data tbl ++ filter_map message_of_entry ms.
Proof.
  induction ms as [|m rest IH]; intros tbl; cbn [fold_left filter_map].
  - now rewrite app_nil_r.
  - rewrite IH, import_message_entry.
    destruct (message_of_entry m); now rewrite <- app_assoc.
Qed.

Lemma import_summary_entry (tbl : list summary_row) (s : pyval) :
  map summary_data (import_summary tbl s)
  = map summary_data tbl
    ++ match summary_of_entry s with Some x => [x] | None => [] end.
Proof.
  unfold import_summary, summary_of_entry, field, Py.getitem, text_of.
  destruct s as [| | | | |l|d]; cbn [try_pass bind];
    try (now rewrite app_nil_r).
  destruct (Py.lookup "phone" d) as [p|]; cbn [try_pass bind];
    [|now rewrite app_nil_r].
  destruct (Py.lookup "summary" d) as [x|]; cbn [try_pass bind];
    [|now rewrite app_nil_r].
  destruct (Py.lookup "message_count" d) as [n|]; cbn [try_pass bind];
    [|now rewrite app_nil_r].
  destruct (Py.lookup "timestamp" d) as [t|]; cbn [try_pass bind];
    [|now rewrite app_nil_r].
  unfold insert_summary.
  destruct (Sql.bind_param p) as [p'|]; cbn [try_pass bind];
    [|destruct (Sql.bind_param n); now rewrite app_nil_r].
  destruct (Sql.bind_param x) as [x'|]; cbn [try_pass bind];
    [|destruct (Sql.bind_param n), (text_cell p'); now rewrite app_nil_r].
  destruct (Sql.bind_param n) as [n'|]; cbn [try_pass bind];
    [|now rewrite app_nil_r].
  destruct (Sql.bind_param t) as [t'|]; cbn [try_pass bind];
    [|destruct (text_cell p'), (text_cell x'); now rewrite app_nil_r].
  destruct (text_cell p'), (text_cell x'), (text_cell t');
    cbn [try_pass]; try (now rewrite app_nil_r).
  now rewrite map_app.
Qed.

Lemma import_summaries_entries (ss : list pyval) :
  forall tbl,
    map summary_data (fold_left import_summary ss tbl)
    = map summary_data tbl ++ filter_map summary_of_entry ss.
Proof.
  induction ss as [|s rest IH]; intros tbl; cbn [fold_left filter_map].
  - now rewrite app_nil_r.
  - rewrite IH, import_summary_entry.
    destruct (summary_of_entry s); now rewrite <- app_assoc.
Qed.

Lemma import_fact_entry (tbl : list memory_row * Z) (m : pyval) :
  let added :=
    match memory_of_entry m with
    | Some x => record_new memory_entry_key (map mem_key (fst tbl)) [x]
    | None => []
    end in
  map memory_data (fst (import_fact tbl m))
  = map memory_data (fst tbl) ++ added
  /\ map mem_key (fst (import_fact tbl m))
     = map mem_key (fst tbl) ++ map memory_entry_key added.
Proof.
  destruct tbl as [tbl seq].
  unfold import_fact, memory_of_entry, field, Py.getitem, text_of.
  cbv zeta. cbn [fst snd].
  destruct m as [| | | | |l|d]; cbn [try_pass bind map fst];
    try (now rewrite !app_nil_r).
  destruct (Py.lookup "phone" d) as [p|]; cbn [try_pass bind map fst];
    [|now rewrite !app_nil_r].
  destruct (Py.lookup "fact" d) as [f|]; cbn [try_pass bind map fst];
    [|now rewrite !app_nil_r].
  destruct (Py.lookup "category" d) as [c|]; cbn [try_pass bind map fst];
    [|now rewrite !app_nil_r].
  destruct (Py.lookup "timestamp" d) as [t|]; cbn [try_pass bind map fst];
    [|now rewrite !app_nil_r].
  unfold insert_or_ignore_memory.
  destruct (Sql.bind_param p) as [p'|]; cbn [try_pass bind map fst];
    [|destruct (Sql.bind_param c); now rewrite !app_nil_r].
  destruct (Sql.bind_param f) as [f'|]; cbn [try_pass bind map fst];
    [|destruct (Sql.bind_param c), (text_cell p'); now rewrite !app_nil_r].
  destruct (Sql.bind_param c) as [c'|]; cbn [try_pass bind map fst];
    [|now rewrite !app_nil_r].
  destruct (Sql.bind_param t) as [t'|]; cbn [try_pass bind map fst];
    [|destruct (text_cell p'), (text_cell f'); now rewrite !app_nil_r].
  destruct (text_cell p') as [pt|], (text_cell f') as [ft|],
    (text_cell t') as [tt|];
    cbn [try_pass map fst]; try (now rewrite !app_nil_r).
  cbn [record_new]. change (memory_entry_key (pt, ft, text_cell c', tt))
    with (pt, ft).
  rewrite <- has_fact_known.
  destruct (has_fact tbl pt ft); cbn [try_pass map fst].
  - now rewrite !app_nil_r.
  - now rewrite !map_app.
Qed.

Lemma import_facts_entries (fs : list pyval) :
  forall tbl,
    map memory_data (fst (fold_left import_fact fs tbl))
    = map memory_data (fst tbl)
      ++ record_new memory_entry_key (map mem_key (fst tbl))
           (filter_map memory_of_entry fs).
Proof.
  induction fs as [|m rest IH]; intros tbl; cbn [fold_left filter_map].
  - cbn. now rewrite app_nil_r.
  - rewrite IH. destruct (import_fact_entry tbl m) as [Hd Hk].
    rewrite Hd, Hk.
    destruct (memory_of_entry m) as [x|]; cbn [record_new map].
    + destruct (known_key (map mem_key (fst tbl)) (memory_entry_key x));
        cbn [map]; rewrite ?app_nil_r; [reflexivity|].
      now rewrite <- app_assoc.
    + now rewrite !app_nil_r.
Qed.

End Snapshot.

Section SnapshotClaims.
Context {rt : Runtime}.

Lemma field_missing_message (m : pyval) (key : string) :
  In key ["phone"; "role"; "content"; "timestamp"] ->
  field m key = None -> message_of_entry m = None.
Proof.
  unfold message_of_entry. cbn [In].
  intros [<- | [<- | [<- | [<- | []]]]] ->;
    repeat (match goal with
            | |- context [match field m ?k with _ => _ end] =>
                destruct (field m k)
            end); reflexivity.
Qed.

Lemma message_of_text_entry (d : list (string * pyval))
    (p r c t : string) :
  Py.lookup "phone" d = Some (PStr p) ->
  Py.lookup "role" d = Some (PStr r) ->
  Py.lookup "content" d = Some (PStr c) ->
  Py.lookup "timestamp" d = Some (PStr t) ->
  message_of_entry (PDict d) = Some (p, r, c, t).
Proof.
  unfold message_of_entry, field. now intros -> -> -> ->.
Qed.

(** C10 (as amended). For every input dictionary whose [messages],
    [memories] and [summaries] values, where present, can be iterated (a
    list, a string or a dict), the import returns normally. An entry that
    is not a dict with all four keys, or one of whose values cannot be
    stored, is skipped on its own ([message_of_entry] and its like are
    [None] for it), and every other entry is inserted in order: the
    messages and the summaries as new rows, the facts through
    INSERT OR IGNORE. A dictionary without the three keys leaves the
    three tables unchanged. *)
Theorem import_skips_bad_entries (st : store) (d : list (string * pyval))
    (ms fs ss : list pyval) :
  snapshot_entries d "messages" = Done ms ->
  snapshot_entries d "memories" = Done fs ->
  snapshot_entries d "summaries" = Done ss ->
  exists st',
    import_memory_from_json st (PDict d) = Done st'
    /\ map message_data (messages st')
       = map message_data (messages st) ++ filter_map message_of_entry ms
    /\ map memory_data (memories st')
       = map memory_data (memories st)
         ++ record_new memory_entry_key (map mem_key (memories st))
              (filter_map memory_of_entry fs)
    /\ map summary_data (summaries st')
       = map summary_data (summaries st) ++ filter_map summary_of_entry ss
    /\ (Py.lookup "messages" d = None ->
        Py.lookup "memories" d = None ->
        Py.lookup "summaries" d = None ->
        st' = st).
Proof.
  intros Hm Hf Hs. eexists.
  split; [exact (import_by_entries st d ms fs ss Hm Hf Hs)|].
  cbn [messages memories summaries].
  split; [apply import_messages_entries|].
  split; [apply (import_facts_entries fs (memories st, memories_seq st))|].
  split; [apply import_summaries_entries|].
  intros Em Ef Es. unfold snapshot_entries in Hm, Hf, Hs.
  cbn [Py.get bind] in Hm, Hf, Hs. rewrite Em in Hm.
  rewrite Ef in Hf. rewrite Es in Hs. cbn in Hm, Hf, Hs.
  injection Hm as <-. injection Hf as <-. injection Hs as <-.
  now destruct st.
Qed.

Lemma message_of_export (r : message_row) :
  message_of_entry (export_message r) = Some (message_data r).
Proof. reflexivity. Qed.

Lemma filter_map_messages (l : list message_row) :
  filter_map message_of_entry (map export_message l) = map message_data l.
Proof.
  induction l as [|r rest IH]; cbn [map filter_map]; [reflexivity|].
  now rewrite message_of_export, IH.
Qed.

Lemma bind_settled (c : sqlval) :
  Sql.settled real_numeric text_numeric c ->
  exists c', Sql.bind_param (Sql.to_py c) = Done c'
             /\ integer_affinity c' = c.
Proof.
  intros [Hfix Hfit]. destruct c as [|n|f|s]; cbn [Sql.to_py Sql.bind_param].
  - now exists SNull.
  - rewrite Hfit. now exists (SInteger n).
  - rewrite Hfit. now exists (SReal f).
  - now exists (SText s).
Qed.

Lemma summary_of_export (r : summary_row) :
  Sql.settled real_numeric text_numeric (sum_message_count r) ->
  summary_of_entry (export_summary r) = Some (summary_data r).
Proof.
  intros Hc. destruct (bind_settled _ Hc) as (c' & Hb & Ha).
  unfold summary_of_entry, export_summary, field.
  cbn [Py.lookup String.eqb Ascii.eqb Bool.eqb].
  rewrite Hb. cbn. now rewrite Ha.
Qed.

Lemma filter_map_summaries (l : list summary_row) :
  Forall (fun r => Sql.settled real_numeric text_numeric
                     (sum_message_count r)) l ->
  filter_map summary_of_entry (map export_summary l) = map summary_data l.
Proof.
  induction 1 as [|r rest Hr _ IH]; cbn [map filter_map]; [reflexivity|].
  now rewrite (summary_of_export _ Hr), IH.
Qed.

Lemma import_exported_fact (tbl : list memory_row * Z) (r : memory_row) :
  has_fact (fst tbl) (mem_phone r) (mem_fact r) = true ->
  fst (import_fact tbl (export_memory r)) = fst tbl.
Proof.
  intros Hin. unfold import_fact, export_memory, Py.getitem.
  cbn [Py.lookup String.eqb Ascii.eqb Bool.eqb bind].
  assert (Hc : exists c, Sql.bind_param (Sql.opt_text_to_py (mem_category r))
                         = Done c).
  { destruct (mem_category r); cbn; eauto. }
  destruct Hc as [c Hc].
  rewrite (insert_or_ignore_text _ _ _ _ _ _ c Hc), Hin. reflexivity.
Qed.

Lemma import_exported_facts (l : list memory_row) :
  forall tbl : list memory_row * Z,
    (forall r, In r l ->
               has_fact (fst tbl) (mem_phone r) (mem_fact r) = true) ->
    fst (fold_left import_fact (map export_memory l) tbl) = fst tbl.
Proof.
  induction l as [|r rest IH]; intros tbl Hall; cbn [map fold_left];
    [reflexivity|].
  assert (Hr : fst (import_fact tbl (export_memory r)) = fst tbl)
    by (apply import_exported_fact, Hall; now left).
  rewrite IH; [exact Hr|].
  intros r' Hr'. rewrite Hr. apply Hall. now right.
Qed.

Lemma has_own_fact (tbl : list memory_row) (r : memory_row) :
  In r tbl -> has_fact tbl (mem_phone r) (mem_fact r) = true.
Proof.
  intros Hin. unfold has_fact. apply existsb_exists. exists r.
  now rewrite !String.eqb_refl.
Qed.

(** C5 (as amended). On a store that meets the key constraints and whose
    message_count cells read back as stored, importing the snapshot that
    [export_memory_to_json] just produced, into the same store, returns
    normally, leaves the facts table exactly as it was, appends a copy of
    every message row, so that the number of message rows doubles, and
    appends a copy of every summary row, so that every summary is stored
    twice. *)
Theorem export_then_import (st : store) (now : string) :
  well_keyed st = true ->
  settled_counts st ->
  exists st',
    import_memory_from_json st (export_memory_to_json st now) = Done st'
    /\ memories st' = memories st
    /\ map message_data (messages st')
       = map message_data (messages st) ++ map message_data (messages st)
    /\ List.length (messages st') = (2 * List.length (messages st))%nat
    /\ map summary_data (summaries st')
       = map summary_data (summaries st) ++ map summary_data (summaries st)
    /\ List.length (summaries st') = (2 * List.length (summaries st))%nat.
Proof.
  intros Hst Hcells. unfold well_keyed in Hst.
  apply andb_prop in Hst as [Hst _].
  apply andb_prop in Hst as [Hst Hsum].
  apply andb_prop in Hst as [Hmsg Hmem].
  unfold export_memory_to_json.
  rewrite (order_by_ascending _ _ Hmsg), (order_by_ascending _ _ Hmem),
    (order_by_ascending _ _ Hsum).
  eexists. split; [apply import_by_entries; reflexivity|].
  cbn [messages memories summaries].
  assert (Hm : map message_data
                 (fold_left import_message
                    (map export_message (messages st)) (messages st))
               = map message_data (messages st)
                 ++ map message_data (messages st)).
  { now rewrite import_messages_entries, filter_map_messages. }
  assert (Hs : map summary_data
                 (fold_left import_summary
                    (map export_summary (summaries st)) (summaries st))
               = map summary_data (summaries st)
                 ++ map summary_data (summaries st)).
  { now rewrite import_summaries_entries, filter_map_summaries. }
  split.
  { apply (import_exported_facts (memories st)
             (memories st, memories_seq st)).
    intros r. apply has_own_fact. }
  split; [exact Hm|]. split.
  { apply (f_equal (@List.length _)) in Hm.
    rewrite length_app, !length_map in Hm. lia. }
  split; [exact Hs|].
  apply (f_equal (@List.length _)) in Hs.
  rewrite length_app, !length_map in Hs. lia.
Qed.

End SnapshotClaims.

(** ** The functions on sample data *)

Example lower_example : PyStr.lower "My Name IS Sam" = "my name is sam".
Proof. reflexivity. Qed.

Example strip_example : PyStr.strip "  I like tea  " = "I like tea".
Proof. reflexivity. Qed.

Example strip_fence_example :
  strip_fence fenced_answer = Done answer_text.
Proof. reflexivity. Qed.

Example strip_fence_one_line :
  strip_fence (fence ++ "{}" ++ fence)%string = Raise IndexError.
Proof. reflexivity. Qed.

Example loads_example :
  Json.loads answer_text
  = Some (PDict [("summary", PStr "x"); ("facts", PList [PStr "a"]);
                 ("action_items", PList [])]).
Proof. vm_compute. reflexivity. Qed.

Example sample_store_well_keyed : well_keyed sample_store = true.
Proof. reflexivity. Qed.

Example hiking_is_a_preference :
  map fact_data
    (memories (extract_memories_from_message (rt := basic_runtime)
                 empty_store caller "I love hiking on weekends"
                 (sample_clock 0)))
  = [(caller, "I love hiking on weekends", Some "preference")].
Proof. reflexivity. Qed.

Example sunny_records_nothing :
  extract_memories_from_message (rt := basic_runtime)
    empty_store caller "It is sunny today" (sample_clock 0)
  = empty_store.
Proof. reflexivity. Qed.

Example fenced_answer_is_summarized :
  let '(st', calls, r) :=
    summarize_and_extract (rt := basic_runtime) (answering fenced_answer)
      sample_clock sample_store caller in
  r = Done tt
  /\ List.length calls = 1%nat
  /\ map summary_data (summaries st')
     = map summary_data (summaries sample_store)
       ++ [(caller, "x", SInteger 4, sample_clock 0)]
  /\ map fact_data (memories st')
     = map fact_data (memories sample_store)
       ++ [(caller, "a", Some "extracted")].
Proof. vm_compute. repeat split; reflexivity. Qed.

(** An answer that decodes but has another shape than asked for: the
    summary is written, the loop over [facts] raises, the handler catches
    the exception. *)
Example misshapen_answer_keeps_the_summary :
  let '(st', calls, r) :=
    summarize_and_extract (rt := basic_runtime) (answering misshapen_answer)
      sample_clock sample_store caller in
  r = Done tt
  /\ List.length (summaries st') = 2%nat
  /\ memories st' = memories sample_store
  /\ fst (summarize_body (rt := basic_runtime) (answering misshapen_answer)
            sample_clock sample_store caller)
     = (st', calls)
  /\ snd (summarize_body (rt := basic_runtime) (answering misshapen_answer)
            sample_clock sample_store caller)
     = Raise TypeError.
Proof. vm_compute. repeat split; reflexivity. Qed.

(** A number bound to a TEXT column is stored as its decimal text, and a
    fact entry whose text is taken is ignored but uses up an id. *)
Example import_number_as_text :
  import_memory_from_json (rt := basic_runtime) empty_store
    (PDict [("memories",
             PList [PDict [("phone", PStr caller); ("fact", PInt 5);
                           ("category", PNone); ("timestamp", PStr "t1")];
                    PDict [("phone", PStr caller); ("fact", PStr "5");
                           ("category", PNone); ("timestamp", PStr "t2")];
                    PDict [("phone", PStr caller); ("fact", PStr "6");
                           ("category", PNone); ("timestamp", PStr "t3")]])])
  = Done {| messages := [];
            memories :=
              [ {| mem_id := 1; mem_phone := caller; mem_fact := "5";
                   mem_category := None; mem_timestamp := "t1" |};
                {| mem_id := 3; mem_phone := caller; mem_fact := "6";
                   mem_category := None; mem_timestamp := "t3" |} ];
            memories_seq := 3;
            summaries := [] |}.
Proof. reflexivity. Qed.

(** ** The key constraints are kept

    Every store that the functions reach from [empty_store] meets the key
    constraints and has settled message_count cells. *)

Lemma well_keyed_empty_store : well_keyed empty_store = true.
Proof. reflexivity. Qed.

Lemma bind_done {A B : Type} (m : exec A) (k : A -> exec B) (b : B) :
  bind m k = Done b -> exists a, m = Done a /\ k a = Done b.
Proof. destruct m as [a|e]; cbn; [eauto | discriminate]. Qed.

(** The two outcomes of a step under [try: ... except Exception: pass]. *)
Ltac try_passed a E :=
  match goal with
  | |- context [try_pass _ ?e] =>
      destruct e as [a|] eqn:E; cbn [try_pass]
  end.

Lemma fold_left_keeps {A B : Type} (P : A -> Prop) (f : A -> B -> A)
    (l : list B) :
  (forall a b, P a -> P (f a b)) -> forall a, P a -> P (fold_left f l a).
Proof.
  intros Hf. induction l as [|b rest IH]; intros a Ha; cbn [fold_left];
    [exact Ha|].
  apply IH, Hf, Ha.
Qed.

Section Invariant.
Context {rt : Runtime}.

Lemma insert_message_shape (tbl tbl' : list message_row)
    (p r c t : pyval) :
  insert_message tbl p r c t = Done tbl' ->
  exists row, tbl' = tbl ++ [row]
              /\ msg_id row = Sql.next_id (map msg_id tbl).
Proof.
  unfold insert_message. intros E.
  apply bind_done in E as (p' & _ & E). apply bind_done in E as (r' & _ & E).
  apply bind_done in E as (c' & _ & E). apply bind_done in E as (t' & _ & E).
  destruct (text_cell p'), (text_cell r'), (text_cell c'), (text_cell t');
    try discriminate.
  injection E as <-. eexists. split; reflexivity.
Qed.

Lemma import_message_ascending (tbl : list message_row) (m : pyval) :
  ascending (map msg_id tbl) = true ->
  ascending (map msg_id (import_message tbl m)) = true.
Proof.
  intros H. unfold import_message.
  try_passed tbl' E; [|exact H].
  do 4 (apply bind_done in E as (? & _ & E)).
  apply insert_message_shape in E as (row & -> & Hid).
  rewrite map_app. cbn [map]. rewrite Hid. now apply ascending_next.
Qed.

Lemma affinity_settled (v : pyval) (n : sqlval) :
  Sql.bind_param v = Done n ->
  Sql.settled real_numeric text_numeric (integer_affinity n).
Proof.
  destruct v as [|b|k|f|s|l|d]; cbn [Sql.bind_param]; try discriminate.
  - intros E. injection E as <-. now split.
  - intros E. injection E as <-. split; [reflexivity | now destruct b].
  - destruct (Sql.in_int64 k) eqn:Hk; [|discriminate].
    intros E. injection E as <-. now split.
  - destruct (PrimFloat.is_nan f) eqn:Hf; intros E; injection E as <-.
    + now split.
    + now apply real_numeric_settled.
  - intros E. injection E as <-. apply text_numeric_settled.
Qed.

Lemma insert_summary_shape (tbl tbl' : list summary_row)
    (p s n t : pyval) :
  insert_summary tbl p s n t = Done tbl' ->
  exists row, tbl' = tbl ++ [row]
              /\ sum_id row = Sql.next_id (map sum_id tbl)
              /\ Sql.settled real_numeric text_numeric
                   (sum_message_count row).
Proof.
  unfold insert_summary. intros E.
  apply bind_done in E as (p' & _ & E). apply bind_done in E as (s' & _ & E).
  apply bind_done in E as (n' & Hn & E). apply bind_done in E as (t' & _ & E).
  destruct (text_cell p'), (text_cell s'), (text_cell t'); try discriminate.
  injection E as <-. eexists. split; [reflexivity|].
  split; [reflexivity|]. cbn [sum_message_count].
  exact (affinity_settled _ _ Hn).
Qed.

Lemma insert_summary_kept (tbl tbl' : list summary_row) (p s n t : pyval) :
  summaries_kept tbl -> insert_summary tbl p s n t = Done tbl' ->
  summaries_kept tbl'.
Proof.
  intros [Hasc Hcells] E.
  apply insert_summary_shape in E as (row & -> & Hid & Hcell). split.
  - rewrite map_app. cbn [map]. rewrite Hid. now apply ascending_next.
  - apply Forall_app. split; [exact Hcells|]. now constructor.
Qed.

Lemma import_summary_kept (tbl : list summary_row) (s : pyval) :
  summaries_kept tbl -> summaries_kept (import_summary tbl s).
Proof.
  intros H. unfold import_summary.
  try_passed tbl' E; [|exact H].
  do 4 (apply bind_done in E as (? & _ & E)).
  exact (insert_summary_kept _ _ _ _ _ _ H E).
Qed.

Lemma insert_or_ignore_kept (tbl : list memory_row) (seq : Z)
    (p f c t : pyval) (tbl' : list memory_row * Z) :
  memories_kept (tbl, seq) ->
  insert_or_ignore_memory tbl seq p f c t = Done tbl' ->
  memories_kept tbl'.
Proof.
  intros [Hasc Huniq] E. unfold insert_or_ignore_memory in E.
  cbn [fst] in *.
  apply bind_done in E as (p' & _ & E). apply bind_done in E as (f' & _ & E).
  apply bind_done in E as (c' & _ & E). apply bind_done in E as (t' & _ & E).
  cbv zeta in E.
  destruct (text_cell p') as [pt|], (text_cell f') as [ft|],
    (text_cell t') as [tt|];
    try (injection E as <-; now split).
  destruct (has_fact tbl pt ft) eqn:Eh; injection E as <-;
    [now split|].
  split; cbn [fst]; rewrite map_app; cbn [map].
  - now apply ascending_next_memory.
  - apply unique_keys_snoc; [exact Huniq|].
    rewrite has_fact_known in Eh. exact Eh.
Qed.

Lemma import_fact_kept (tbl : list memory_row * Z) (m : pyval) :
  memories_kept tbl -> memories_kept (import_fact tbl m).
Proof.
  intros H. unfold import_fact.
  try_passed tbl' E; [|exact H].
  do 4 (apply bind_done in E as (? & _ & E)).
  destruct tbl as [rows seq].
  exact (insert_or_ignore_kept _ _ _ _ _ _ _ H E).
Qed.

Lemma consistent_parts (st : store) :
  consistent st
  <-> ascending (map msg_id (messages st)) = true
      /\ memories_kept (memories st, memories_seq st)
      /\ summaries_kept (summaries st).
Proof.
  unfold consistent, well_keyed, settled_counts, memories_kept,
    summaries_kept. cbn [fst].
  rewrite !andb_true_iff. tauto.
Qed.

Lemma consistent_empty_store : consistent empty_store.
Proof. split; [reflexivity | constructor]. Qed.

Lemma consistent_save_message (st st' : store)
    (phone role content now : string) :
  consistent st -> save_message st phone role content now = Done st' ->
  consistent st'.
Proof.
  intros [Hk Hc] E. split; [exact (well_keyed_save_message _ _ _ _ _ _ Hk E)|].
  rewrite save_message_done in E. injection E as <-. exact Hc.
Qed.

Lemma consistent_save_memory (st : store) (phone : string) (fact : pyval)
    (category now : string) :
  consistent st -> consistent (save_memory st phone fact category now).
Proof.
  intros [Hk Hc]. split; [now apply well_keyed_save_memory | exact Hc].
Qed.

Lemma consistent_save_summary (st st' : store) (phone : string)
    (summary : pyval) (count : Z) (now : string) :
  consistent st -> save_summary st phone summary count now = Done st' ->
  consistent st'.
Proof.
  intros H E. apply consistent_parts in H as (Hm & Hf & Hs).
  unfold save_summary in E. apply bind_done in E as (tbl & E & E').
  injection E' as <-. apply consistent_parts.
  cbn [messages memories memories_seq summaries with_summaries].
  split; [exact Hm|]. split; [exact Hf|].
  exact (insert_summary_kept _ _ _ _ _ _ Hs E).
Qed.

Lemma consistent_extract (st : store) (phone speech now : string) :
  consistent st ->
  consistent (extract_memories_from_message st phone speech now).
Proof.
  intros H. rewrite extract_by_first_category.
  destruct (first_category (PyStr.lower speech)); [|exact H].
  now apply consistent_save_memory.
Qed.

Lemma consistent_import (st st' : store) (data : pyval) :
  consistent st -> import_memory_from_json st data = Done st' ->
  consistent st'.
Proof.
  intros H E. apply consistent_parts in H as (Hm & Hf & Hs).
  unfold import_memory_from_json in E.
  apply bind_done in E as (? & _ & E). apply bind_done in E as (ms & _ & E).
  apply bind_done in E as (? & _ & E). apply bind_done in E as (fs & _ & E).
  apply bind_done in E as (? & _ & E). apply bind_done in E as (ss & _ & E).
  injection E as <-. apply consistent_parts.
  cbn [messages memories memories_seq summaries].
  split; [|split].
  - apply (fold_left_keeps
             (fun tbl => ascending (map msg_id tbl) = true));
      [intros; now apply import_message_ascending | exact Hm].
  - rewrite <- surjective_pairing.
    apply (fold_left_keeps memories_kept);
      [intros; now apply import_fact_kept | exact Hf].
  - apply (fold_left_keeps summaries_kept);
      [intros; now apply import_summary_kept | exact Hs].
Qed.

Lemma consistent_save_each (phone category : string)
    (clock : nat -> string) (facts : list pyval) :
  forall (st : store) (tick : nat),
    consistent st ->
    consistent (fst (save_each st phone category facts clock tick)).
Proof.
  induction facts as [|f rest IH]; intros st tick H; cbn [save_each fst];
    [exact H|].
  apply IH. now apply consistent_save_memory.
Qed.

Lemma consistent_save_results (st : store) (phone : string)
    (result : pyval) (count : nat) (clock : nat -> string) :
  consistent st ->
  consistent (fst (save_results st phone result count clock)).
Proof.
  intros H. unfold save_results.
  destruct (Py.get result "summary" PNone) as [summary|]; [|exact H].
  assert (H1 : forall st1 tick1,
             (if Py.truthy summary
              then st' <- save_summary st phone summary (Z.of_nat count)
                            (clock 0%nat) ;;
                   Done (st', 1%nat)
              else Done (st, 0%nat)) = Done (st1, tick1) ->
             consistent st1).
  { intros st1 tick1 E. destruct (Py.truthy summary).
    - apply bind_done in E as (st' & E & E'). injection E' as <- _.
      exact (consistent_save_summary _ _ _ _ _ _ H E).
    - injection E as <- _. exact H. }
  destruct (if Py.truthy summary then _ else _) as [[st1 tick1]|];
    [|exact H].
  specialize (H1 st1 tick1 eq_refl).
  destruct (fs <- Py.get result "facts" (PList []) ;; Py.iter fs)
    as [facts|]; [|exact H1].
  pose proof (consistent_save_each phone "extracted" clock facts st1 tick1
                H1) as H2.
  destruct (save_each st1 phone "extracted" facts clock tick1)
    as [st2 tick2].
  cbn [fst] in H2.
  destruct (xs <- Py.get result "action_items" (PList []) ;; Py.iter xs)
    as [items|]; [|exact H2].
  cbn [fst]. now apply consistent_save_each.
Qed.

Lemma consistent_summarize (genai : exec (string -> exec string))
    (clock : nat -> string) (st : store) (phone : string) :
  consistent st ->
  consistent (fst (fst (summarize_and_extract genai clock st phone))).
Proof.
  intros H. unfold summarize_and_extract, summarize_body.
  destruct genai as [generate_content|]; [|exact H].
  destruct (List.length (get_all_history st phone) <? 4)%nat; [exact H|].
  destruct (raw <- generate_content _ ;; _) as [result|]; [|exact H].
  pose proof (consistent_save_results st phone result
                (List.length (get_all_history st phone)) clock H) as Hr.
  destruct (save_results st phone result _ clock) as [st' r].
  exact Hr.
Qed.

End Invariant.

(** ** The claims on sample data *)

Lemma record_is_idempotent_sample :
  well_keyed sample_store = true
  /\ caller <> other_caller
  /\ count_fact
       (save_memory (rt := basic_runtime)
          (save_memory (rt := basic_runtime) sample_store caller
             (PStr "likes tea") "general" (sample_clock 0))
          caller (PStr "likes tea") "extracted" (sample_clock 1))
       caller "likes tea" = 1%nat.
Proof.
  assert (Hne : caller <> other_caller) by discriminate.
  split; [reflexivity|]. split; [exact Hne|].
  pose proof (record_is_idempotent (rt := basic_runtime) sample_store
                caller other_caller "likes tea" "general" "extracted"
                (sample_clock 0) (sample_clock 1) eq_refl Hne) as H.
  cbv zeta in H. destruct H as (_ & _ & _ & _ & H & _).
  exact H.
Defined.

Lemma summarizer_writes_results_sample :
  exists st',
    summarize_and_extract (rt := basic_runtime) (answering fenced_answer)
      sample_clock sample_store caller
    = (st', [summarizer_prompt sample_store caller], Done tt)
    /\ map fact_data (memories st')
       = map fact_data (memories sample_store)
         ++ [(caller, "a", Some "extracted")].
Proof.
  assert (Hcount : (4 <= get_message_count sample_store caller
                    <= Sql.max_int64)%Z) by (vm_compute; split; discriminate).
  destruct (summarizer_writes_results (rt := basic_runtime)
              (answering fenced_answer) sample_clock sample_store caller
              (fun _ => Done fenced_answer) fenced_answer answer_text
              [("summary", PStr "x"); ("facts", PList [PStr "a"]);
               ("action_items", PList [])]
              "x" ["a"] []
              Hcount eq_refl eq_refl eq_refl eq_refl eq_refl eq_refl eq_refl)
    as (st' & Hrun & _ & _ & Hfacts & _).
  exists st'. split; [exact Hrun | exact Hfacts].
Defined.

Lemma sam_utterance_sample :
  has_fact (memories empty_store) caller sam_utterance = false
  /\ map fact_data
       (memories (extract_memories_from_message (rt := basic_runtime)
                    empty_store caller sam_utterance (sample_clock 0)))
     = [(caller, sam_utterance, Some "preference")].
Proof.
  split; [reflexivity|].
  pose proof (sam_utterance_is_a_preference (rt := basic_runtime)
                empty_store caller (sample_clock 0) eq_refl) as H.
  cbv zeta in H. destruct H as (H & _). rewrite H. reflexivity.
Defined.

Lemma extractor_sample :
  first_category (PyStr.lower "Remind me that I need to call Bob")
  = Some "goal"
  /\ has_fact
       (memories (extract_memories_from_message (rt := basic_runtime)
                    sample_store caller "Remind me that I need to call Bob"
                    (sample_clock 0)))
       caller "Remind me that I need to call Bob" = true.
Proof.
  split; [reflexivity|].
  pose proof (extractor_records_first_match (rt := basic_runtime)
                sample_store caller "Remind me that I need to call Bob"
                (sample_clock 0)) as H.
  cbv zeta in H. destruct H as (_ & _ & _ & _ & _ & _ & H).
  exact (proj1 (H "goal" eq_refl)).
Defined.

Lemma settled_counts_sample :
  settled_counts (rt := basic_runtime) sample_store.
Proof.
  unfold settled_counts, sample_store. cbn [summaries].
  constructor; [|constructor].
  split; reflexivity.
Defined.

Lemma export_then_import_sample :
  well_keyed sample_store = true
  /\ exists st',
       import_memory_from_json (rt := basic_runtime) sample_store
         (export_memory_to_json sample_store (sample_clock 0))
       = Done st'
       /\ memories st' = memories sample_store
       /\ List.length (messages st') = 8%nat.
Proof.
  split; [reflexivity|].
  destruct (export_then_import (rt := basic_runtime) sample_store
              (sample_clock 0) eq_refl settled_counts_sample)
    as (st' & Hrun & Hmem & _ & Hlen & _).
  exists st'. split; [exact Hrun|]. split; [exact Hmem | exact Hlen].
Defined.


Lemma summarizer_short_log_sample :
  (get_message_count empty_store caller < 4)%Z
  /\ summarize_and_extract (rt := basic_runtime) (answering fenced_answer)
       sample_clock empty_store caller
     = (empty_store, [], Done tt).
Proof.
  assert (H : (get_message_count empty_store caller < 4)%Z) by reflexivity.
  split; [exact H|].
  exact (summarizer_needs_four_messages (rt := basic_runtime)
           (answering fenced_answer) sample_clock empty_store caller H).
Defined.

Lemma full_history_sample :
  exists st',
    append_log (rt := basic_runtime) sample_store
      [(caller, ("user", "Thanks", "2024-05-01T09:01:00+00:00"));
       (other_caller, ("user", "Hello", "2024-05-01T09:01:01+00:00"));
       (caller, ("assistant", "Any time.", "2024-05-01T09:01:03+00:00"))]
    = Done st'
    /\ get_all_history st' caller
       = get_all_history sample_store caller
         ++ [ {| role := "user"; content := "Thanks";
                 timestamp := "2024-05-01T09:01:00+00:00" |};
              {| role := "assistant"; content := "Any time.";
                 timestamp := "2024-05-01T09:01:03+00:00" |} ]
    /\ get_all_history st' other_caller
       = [ {| role := "user"; content := "Hello";
              timestamp := "2024-05-01T09:01:01+00:00" |} ].
Proof.
  destruct (full_history_in_append_order (rt := basic_runtime) sample_store
              [(caller, ("user", "Thanks", "2024-05-01T09:01:00+00:00"));
               (other_caller,
                ("user", "Hello", "2024-05-01T09:01:01+00:00"));
               (caller,
                ("assistant", "Any time.", "2024-05-01T09:01:03+00:00"))]
              eq_refl)
    as (st' & Hrun & Hhist & _).
  exists st'. split; [exact Hrun|].
  split; [exact (Hhist caller) | exact (Hhist other_caller)].
Defined.

Lemma recent_history_sample :
  (get_message_count sample_store caller <= 50)%Z
  /\ (50 <= Sql.max_int64)%Z
  /\ get_conversation_history sample_store caller 50
     = Done (get_all_history sample_store caller).
Proof.
  assert (H : (get_message_count sample_store caller <= 50)%Z)
    by (vm_compute; discriminate).
  assert (Hmax : (50 <= Sql.max_int64)%Z) by (vm_compute; discriminate).
  split; [exact H|]. split; [exact Hmax|].
  exact (recent_history_with_large_limit sample_store caller 50 eq_refl H
           Hmax).
Defined.

Lemma import_sample :
  exists st',
    import_memory_from_json (rt := basic_runtime) sample_store
      (PDict sample_snapshot) = Done st'
    /\ map message_data (messages st')
       = map message_data (messages sample_store)
         ++ [(caller, "user", "hello", "2024-04-30T08:00:00+00:00")]
    /\ summaries st' = summaries sample_store.
Proof.
  destruct (import_skips_bad_entries (rt := basic_runtime) sample_store
              sample_snapshot _ _ _ eq_refl eq_refl eq_refl)
    as (st' & Hrun & Hmsg & _ & _ & _).
  exists st'. split; [exact Hrun|]. split; [exact Hmsg|].
  vm_compute in Hrun. injection Hrun as <-. reflexivity.
Defined.

(** ** Where the spec sentences differ from the code *)

(** C2 as stated fails: for the answer with an empty summary and the
    fact [a] twice, on a log of four messages, the summarizer writes no
    Summary row, and one Fact row for the two [facts] entries. *)
Lemma summarizer_empty_summary_and_repeated_fact :
  (4 <= get_message_count sample_store caller)%Z
  /\ Json.loads empty_summary_answer
     = Some (PDict [("summary", PStr EmptyString);
                    ("facts", PList [PStr "a"; PStr "a"]);
                    ("action_items", PList [])])
  /\ exists st',
       summarize_and_extract (rt := basic_runtime)
         (answering empty_summary_answer) sample_clock sample_store caller
       = (st', [summarizer_prompt sample_store caller], Done tt)
       /\ summaries st' = summaries sample_store
       /\ map fact_data (memories st')
          = map fact_data (memories sample_store)
            ++ [(caller, "a", Some "extracted")].
Proof.
  split; [vm_compute; discriminate|].
  split; [vm_compute; reflexivity|].
  eexists. split; [vm_compute; reflexivity|].
  split; reflexivity.
Qed.

(** C3 as stated fails: the Fact recorded for "My name is Sam and I like
    tea" has category "preference", not "personal". *)
Lemma sam_utterance_is_not_personal :
  map mem_category
    (memories (extract_memories_from_message (rt := basic_runtime)
                 empty_store caller "My name is Sam and I like tea"
                 (sample_clock 0)))
  = [Some "preference"]
  /\ Some "preference" <> Some "personal".
Proof. split; [reflexivity | discriminate]. Qed.

(** C4 as stated fails: the utterance " I like tea " is not stored
    verbatim; the stored text is "I like tea". *)
Lemma extractor_strips_the_utterance :
  let st' := extract_memories_from_message (rt := basic_runtime)
               empty_store caller " I like tea " (sample_clock 0) in
  map mem_fact (memories st') = ["I like tea"]
  /\ has_fact (memories st') caller " I like tea " = false.
Proof. split; reflexivity. Qed.

(** C5 as stated fails: after export and import on the same store the
    summaries are not the same multiset as before, there are twice as
    many. *)
Lemma export_then_import_doubles_summaries :
  exists st',
    import_memory_from_json (rt := basic_runtime) sample_store
      (export_memory_to_json sample_store (sample_clock 0)) = Done st'
    /\ List.length (summaries st') = 2%nat
    /\ List.length (summaries sample_store) = 1%nat
    /\ ~ Permutation (map summary_data (summaries st'))
                     (map summary_data (summaries sample_store)).
Proof.
  eexists. split; [vm_compute; reflexivity|].
  split; [reflexivity|]. split; [reflexivity|].
  intros Hperm. apply Permutation_length in Hperm. discriminate.
Qed.


(** C9 as stated fails: the limit 2^63 is not below the count of the
    identity, yet [get_conversation_history] raises OverflowError, when
    the limit is bound to the statement, where [get_all_history] returns
    the four messages. *)
Lemma recent_history_limit_overflows :
  (get_message_count sample_store caller <= 2 ^ 63)%Z
  /\ get_conversation_history sample_store caller (2 ^ 63)
     = Raise OverflowError
  /\ List.length (get_all_history sample_store caller) = 4%nat.
Proof.
  split; [vm_compute; discriminate|]. split; reflexivity.
Qed.

(** C10 as stated fails: on the dictionary [{"messages": 5}] the import
    raises TypeError. *)
Lemma import_raises_on_a_number :
  import_memory_from_json (rt := basic_runtime) sample_store
    (PDict [("messages", PInt 5)])
  = Raise TypeError.
Proof. reflexivity. Qed.

(** * More properties of the code *)

(** ** Reading the message log *)

Lemma rev_firstn_rev {A : Type} (n : nat) (l : list A) :
  List.rev (firstn n (List.rev l)) = skipn (List.length l - n) l.
Proof. now rewrite firstn_rev, !rev_involutive. Qed.

Lemma last_n_map {A B : Type} (f : A -> B) (n : nat) (l : list A) :
  last_n n (map f l) = map f (last_n n l).
Proof. unfold last_n. now rewrite length_map, skipn_map. Qed.

Lemma last_n_length {A : Type} (n : nat) (l : list A) :
  List.length (last_n n l) = Nat.min n (List.length l).
Proof. unfold last_n. rewrite length_skipn. lia. Qed.

Lemma recent_history_bound (st : store) (phone : string) (k : Z) :
  get_conversation_history st phone k
  = if Sql.in_int64 k
    then Done (map entry_of_row
                 (List.rev (Sql.limit k
                              (Sql.order_by_desc msg_id
                                 (messages_of st phone)))))
    else Raise OverflowError.
Proof.
  unfold get_conversation_history. cbn [Sql.bind_param].
  now destruct (Sql.in_int64 k).
Qed.

(** X1. On a store that meets the key constraints,
    [get_conversation_history] with a limit [k] from 0 to 2^63-1 returns
    the last [k] entries of [get_all_history], oldest first (all of them
    when there are fewer), so never more than [k]; with a negative limit
    down to -2^63 it returns the whole history; with a limit outside 64
    bits it raises OverflowError. *)
Theorem recent_history_is_the_tail (st : store) (phone : string) (k : Z) :
  well_keyed st = true ->
  ((0 <= k <= Sql.max_int64)%Z ->
   get_conversation_history st phone k
   = Done (last_n (Z.to_nat k) (get_all_history st phone))
   /\ (Z.of_nat (List.length
                   (last_n (Z.to_nat k) (get_all_history st phone)))
       <= k)%Z)
  /\ ((Sql.min_int64 <= k < 0)%Z ->
      get_conversation_history st phone k
      = Done (get_all_history st phone))
  /\ ((k < Sql.min_int64 \/ Sql.max_int64 < k)%Z ->
      get_conversation_history st phone k = Raise OverflowError).
Proof.
  intros Hst.
  assert (Hasc : ascending (map msg_id (messages_of st phone)) = true).
  { apply ascending_filter. unfold well_keyed in Hst.
    repeat (apply andb_prop in Hst as [Hst ?]). exact Hst. }
  rewrite (history_of_well_keyed _ _ Hst), recent_history_bound.
  rewrite (order_by_desc_ascending _ _ Hasc).
  unfold Sql.limit, Sql.in_int64.
  assert (Hmin : (Sql.min_int64 < 0)%Z) by reflexivity.
  assert (Hmax : (0 < Sql.max_int64)%Z) by reflexivity.
  split; [|split]; intros Hk.
  - destruct (Z.leb_spec Sql.min_int64 k); [|lia].
    destruct (Z.leb_spec k Sql.max_int64); [|lia]. cbn [andb].
    destruct (Z.ltb_spec k 0); [lia|].
    rewrite rev_firstn_rev, last_n_map. split; [reflexivity|].
    rewrite length_map. unfold last_n. rewrite length_skipn. lia.
  - destruct (Z.leb_spec Sql.min_int64 k); [|lia].
    destruct (Z.leb_spec k Sql.max_int64); [|lia]. cbn [andb].
    destruct (Z.ltb_spec k 0); [|lia]. now rewrite rev_involutive.
  - destruct (Z.leb_spec Sql.min_int64 k);
      destruct (Z.leb_spec k Sql.max_int64); cbn [andb];
      try reflexivity; lia.
Qed.

Section MoreStorage.
Context {rt : Runtime}.

Lemma well_keyed_tables (st : store) :
  well_keyed st = true ->
  ascending (map msg_id (messages st)) = true
  /\ ascending (map mem_id (memories st)) = true
  /\ ascending (map sum_id (summaries st)) = true
  /\ unique_keys (map mem_key (memories st)) = true.
Proof.
  unfold well_keyed. intros H.
  repeat (apply andb_prop in H as [H ?]). auto.
Qed.

(** X2. On a store that meets the key constraints, [save_message]
    succeeds, puts the new message at the end of the identity's history
    and raises its count by one; the history and the count of every other
    identity, the facts and the summaries are as before. *)
Theorem save_message_touches_one_history (st : store)
    (phone role content now : string) :
  well_keyed st = true ->
  exists st',
    save_message st phone role content now = Done st'
    /\ get_all_history st' phone
       = get_all_history st phone
         ++ [{| role := role; content := content; timestamp := now |}]
    /\ get_message_count st' phone = (get_message_count st phone + 1)%Z
    /\ (forall other, other <> phone ->
          get_all_history st' other = get_all_history st other
          /\ get_message_count st' other = get_message_count st other)
    /\ memories st' = memories st
    /\ summaries st' = summaries st.
Proof.
  intros Hst. eexists. split; [apply save_message_done|].
  set (row := new_message (messages st) phone role content now).
  assert (Hst' : well_keyed (with_messages st (messages st ++ [row])) = true).
  { eapply well_keyed_save_message; [exact Hst | apply save_message_done]. }
  assert (Hother : forall other, other <> phone ->
            messages_of (with_messages st (messages st ++ [row])) other
            = messages_of st other).
  { intros other Hne. unfold messages_of. cbn [messages with_messages].
    rewrite filter_app. cbn [filter row new_message msg_phone].
    destruct (String.eqb_spec phone other); [congruence|].
    apply app_nil_r. }
  split; [|split; [|split; [|split; reflexivity]]].
  - rewrite (history_of_well_keyed _ _ Hst'), (history_of_well_keyed _ _ Hst).
    unfold row. now rewrite messages_of_save, map_app.
  - unfold get_message_count, row. rewrite messages_of_save, length_app.
    cbn [List.length]. lia.
  - intros other Hne. split.
    + rewrite (history_of_well_keyed _ _ Hst'),
        (history_of_well_keyed _ _ Hst).
      now rewrite Hother.
    + unfold get_message_count. now rewrite Hother.
Qed.

Lemma get_memories_well_keyed (st : store) (phone : string) :
  well_keyed st = true ->
  get_memories st phone
  = map (fun r => (mem_fact r, mem_category r, mem_timestamp r))
      (memories_of st phone).
Proof.
  intros Hst. unfold get_memories, memories_of. f_equal.
  apply order_by_ascending, ascending_filter.
  now apply well_keyed_tables in Hst.
Qed.

(** X3. On a store that meets the key constraints, after
    [save_memory(phone, fact, category)] the list [get_memories(phone)]
    is the old list followed by the new fact with its category and
    timestamp when the fact was not stored for the identity, and is the
    old list, unchanged, when it was: a fact keeps the category and the
    timestamp of its first record. The lists of the other identities do
    not change. *)
Theorem save_memory_then_get_memories (st : store)
    (phone fact category now : string) :
  well_keyed st = true ->
  let st' := save_memory st phone (PStr fact) category now in
  get_memories st' phone
  = (if has_fact (memories st) phone fact then get_memories st phone
     else get_memories st phone ++ [(fact, Some category, now)])
  /\ (forall other, other <> phone ->
        get_memories st' other = get_memories st other).
Proof.
  intros Hst st'.
  assert (Hst' : well_keyed st' = true) by now apply well_keyed_save_memory.
  split.
  - rewrite (get_memories_well_keyed _ _ Hst'),
      (get_memories_well_keyed _ _ Hst).
    unfold memories_of, st'. rewrite memories_after_save.
    destruct (has_fact (memories st) phone fact); [reflexivity|].
    rewrite filter_app. cbn [filter new_memory mem_phone].
    rewrite String.eqb_refl, map_app. reflexivity.
  - intros other Hne.
    rewrite (get_memories_well_keyed _ _ Hst'),
      (get_memories_well_keyed _ _ Hst).
    unfold memories_of, st'. rewrite memories_after_save.
    destruct (has_fact (memories st) phone fact); [reflexivity|].
    rewrite filter_app. cbn [filter new_memory mem_phone].
    destruct (String.eqb_spec phone other); [congruence|].
    now rewrite app_nil_r.
Qed.

(** X4. On a store that meets the key constraints, [save_summary] of a
    text summary with a count between 0 and 2^63-1 succeeds and always
    adds an entry at the end of [get_summaries(phone)], also when the same
    summary is already stored; the message log and the facts do not
    change. *)
Theorem save_summary_always_appends (st : store) (phone summary : string)
    (count : Z) (now : string) :
  well_keyed st = true ->
  (0 <= count <= Sql.max_int64)%Z ->
  exists st',
    save_summary st phone (PStr summary) count now = Done st'
    /\ get_summaries st' phone
       = get_summaries st phone ++ [(summary, SInteger count, now)]
    /\ messages st' = messages st
    /\ memories st' = memories st.
Proof.
  intros Hst Hcount. eexists. split; [now apply save_summary_text|].
  split; [|split; reflexivity].
  unfold get_summaries. cbn [summaries with_summaries].
  apply well_keyed_tables in Hst as (_ & _ & Hsum & _).
  rewrite !order_by_ascending.
  - rewrite filter_app. cbn [filter new_summary sum_phone].
    now rewrite String.eqb_refl, map_app.
  - now apply ascending_filter.
  - apply ascending_filter. rewrite map_app. cbn [map new_summary sum_id].
    now apply ascending_next.
Qed.

End MoreStorage.

(** ** What every operation keeps *)

Lemma grows_refl {A : Type} (l : list A) : grows l l.
Proof. exists []. now rewrite app_nil_r. Qed.

Lemma grows_trans {A : Type} (l1 l2 l3 : list A) :
  grows l1 l2 -> grows l2 l3 -> grows l1 l3.
Proof.
  intros [r1 ->] [r2 ->]. exists (r1 ++ r2). now rewrite app_assoc.
Qed.

Lemma grows_snoc {A : Type} (l : list A) (x : A) : grows l (l ++ [x]).
Proof. now exists [x]. Qed.

Section GrowOnly.
Context {rt : Runtime}.

Lemma extends_refl (st : store) : extends st st.
Proof. repeat split; apply grows_refl. Qed.

Lemma extends_trans (st1 st2 st3 : store) :
  extends st1 st2 -> extends st2 st3 -> extends st1 st3.
Proof.
  intros (Hm & Hf & Hs) (Hm' & Hf' & Hs').
  repeat split; eapply grows_trans; eassumption.
Qed.

Lemma insert_or_ignore_grows (tbl : list memory_row) (seq : Z)
    (p f c t : pyval) (tbl' : list memory_row * Z) :
  insert_or_ignore_memory tbl seq p f c t = Done tbl' ->
  grows tbl (fst tbl').
Proof.
  unfold insert_or_ignore_memory. intros E.
  do 4 (apply bind_done in E as (? & _ & E)). cbv zeta in E.
  repeat match type of E with
         | context [match ?o with Some _ => _ | None => _ end] => destruct o
         | context [if ?b then _ else _] => destruct b
         end;
    injection E as <-; cbn [fst];
    first [apply grows_refl | apply grows_snoc].
Qed.

Lemma save_memory_extends (st : store) (phone : string) (fact : pyval)
    (category now : string) :
  extends st (save_memory st phone fact category now).
Proof.
  split; [apply grows_refl|]. split; [|apply grows_refl].
  unfold save_memory. try_passed tbl' E; cbn [memories with_memories fst];
    [|apply grows_refl].
  exact (insert_or_ignore_grows _ _ _ _ _ _ _ E).
Qed.

Lemma save_each_extends (phone category : string) (clock : nat -> string)
    (facts : list pyval) :
  forall (st : store) (tick : nat),
    extends st (fst (save_each st phone category facts clock tick))
    /\ messages (fst (save_each st phone category facts clock tick))
       = messages st
    /\ summaries (fst (save_each st phone category facts clock tick))
       = summaries st.
Proof.
  induction facts as [|f rest IH]; intros st tick; cbn [save_each fst].
  - split; [apply extends_refl | split; reflexivity].
  - destruct (IH (save_memory st phone f category (clock tick)) (S tick))
      as (He & Hm & Hs).
    split; [|split; [exact Hm | exact Hs]].
    eapply extends_trans; [apply save_memory_extends | exact He].
Qed.

Lemma save_summary_extends (st st' : store) (phone : string)
    (summary : pyval) (count : Z) (now : string) :
  save_summary st phone summary count now = Done st' ->
  messages st' = messages st /\ memories st' = memories st
  /\ exists row, summaries st' = summaries st ++ [row].
Proof.
  unfold save_summary. intros E. apply bind_done in E as (tbl & E & E').
  injection E' as <-. split; [reflexivity|]. split; [reflexivity|].
  apply insert_summary_shape in E as (row & -> & _). now exists row.
Qed.

Lemma save_results_frame (st : store) (phone : string) (result : pyval)
    (count : nat) (clock : nat -> string) :
  let st' := fst (save_results st phone result count clock) in
  messages st' = messages st
  /\ grows (memories st) (memories st')
  /\ exists rows, summaries st' = summaries st ++ rows
                  /\ (List.length rows <= 1)%nat.
Proof.
  assert (Hsame : messages st = messages st
                  /\ grows (memories st) (memories st)
                  /\ exists rows, summaries st = summaries st ++ rows
                                  /\ (List.length rows <= 1)%nat).
  { split; [reflexivity|]. split; [apply grows_refl|].
    exists []. rewrite app_nil_r. split; [reflexivity | cbn; lia]. }
  cbv zeta. unfold save_results.
  destruct (Py.get result "summary" PNone) as [summary|]; [|exact Hsame].
  assert (H1 : forall st1 tick1,
             (if Py.truthy summary
              then st' <- save_summary st phone summary (Z.of_nat count)
                            (clock 0%nat) ;;
                   Done (st', 1%nat)
              else Done (st, 0%nat)) = Done (st1, tick1) ->
             messages st1 = messages st /\ memories st1 = memories st
             /\ exists rows, summaries st1 = summaries st ++ rows
                             /\ (List.length rows <= 1)%nat).
  { intros st1 tick1 E. destruct (Py.truthy summary).
    - apply bind_done in E as (st' & E & E'). injection E' as <- _.
      apply save_summary_extends in E as (Hm & Hf & row & Hs).
      split; [exact Hm|]. split; [exact Hf|].
      exists [row]. split; [exact Hs | cbn; lia].
    - injection E as <- _. split; [reflexivity|]. split; [reflexivity|].
      exists []. rewrite app_nil_r. split; [reflexivity | cbn; lia]. }
  destruct (if Py.truthy summary then _ else _) as [[st1 tick1]|];
    [|exact Hsame].
  destruct (H1 st1 tick1 eq_refl) as (Hm1 & Hf1 & Hs1). clear H1.
  assert (Hst1 : messages st1 = messages st
                 /\ grows (memories st) (memories st1)
                 /\ exists rows, summaries st1 = summaries st ++ rows
                                 /\ (List.length rows <= 1)%nat).
  { split; [exact Hm1|]. split; [rewrite Hf1; apply grows_refl | exact Hs1]. }
  destruct (fs <- Py.get result "facts" (PList []) ;; Py.iter fs)
    as [facts|]; [|exact Hst1].
  destruct (save_each_extends phone "extracted" clock facts st1 tick1)
    as ((_ & Hg2 & _) & Hm2 & Hs2).
  destruct (save_each st1 phone "extracted" facts clock tick1)
    as [st2 tick2].
  cbn [fst] in *.
  assert (Hst2 : messages st2 = messages st
                 /\ grows (memories st) (memories st2)
                 /\ exists rows, summaries st2 = summaries st ++ rows
                                 /\ (List.length rows <= 1)%nat).
  { split; [congruence|]. split; [|rewrite Hs2; exact Hs1].
    rewrite <- Hf1. exact Hg2. }
  destruct (xs <- Py.get result "action_items" (PList []) ;; Py.iter xs)
    as [items|]; [|exact Hst2].
  cbn [fst].
  destruct (save_each_extends phone "action_item" clock
              (map action_text items) st2 tick2)
    as ((_ & Hg3 & _) & Hm3 & Hs3).
  destruct Hst2 as (Hm & Hg & Hs).
  split; [congruence|]. split; [|rewrite Hs3; exact Hs].
  eapply grows_trans; eassumption.
Qed.

Lemma summarize_and_extract_frame (genai : exec (string -> exec string))
    (clock : nat -> string) (st : store) (phone : string) :
  let '(st', calls, r) := summarize_and_extract genai clock st phone in
  r = Done tt
  /\ (List.length calls <= 1)%nat
  /\ messages st' = messages st
  /\ grows (memories st) (memories st')
  /\ exists rows, summaries st' = summaries st ++ rows
                  /\ (List.length rows <= 1)%nat.
Proof.
  assert (Hsame : messages st = messages st
                  /\ grows (memories st) (memories st)
                  /\ exists rows, summaries st = summaries st ++ rows
                                  /\ (List.length rows <= 1)%nat).
  { split; [reflexivity|]. split; [apply grows_refl|].
    exists []. rewrite app_nil_r. split; [reflexivity | cbn; lia]. }
  unfold summarize_and_extract, summarize_body.
  destruct genai as [generate_content|];
    [|split; [reflexivity | split; [cbn; lia | exact Hsame]]].
  destruct (List.length (get_all_history st phone) <? 4)%nat;
    [split; [reflexivity | split; [cbn; lia | exact Hsame]]|].
  destruct (raw <- generate_content _ ;; _) as [result|];
    [|split; [reflexivity | split; [cbn; lia | exact Hsame]]].
  pose proof (save_results_frame st phone result
                (List.length (get_all_history st phone)) clock) as H.
  cbv zeta in H.
  destruct (save_results st phone result _ clock) as [st' r].
  split; [destruct r as [[]|]; reflexivity|].
  split; [cbn; lia | exact H].
Qed.

(** X5. Whatever the model client does and whatever it answers, one call
    of the summarizer returns normally, sends at most one prompt, leaves
    the message log exactly as it was, adds at most one Summary row and
    removes or changes no Fact or Summary row. *)
Theorem summarizer_frame (genai : exec (string -> exec string))
    (clock : nat -> string) (st : store) (phone : string) :
  let '(st', calls, r) := summarize_and_extract genai clock st phone in
  r = Done tt
  /\ (List.length calls <= 1)%nat
  /\ messages st' = messages st
  /\ grows (memories st) (memories st')
  /\ exists rows, summaries st' = summaries st ++ rows
                  /\ (List.length rows <= 1)%nat.
Proof. apply summarize_and_extract_frame. Qed.

Lemma import_message_grows (tbl : list message_row) (m : pyval) :
  grows tbl (import_message tbl m).
Proof.
  unfold import_message. try_passed tbl' E; [|apply grows_refl].
  do 4 (apply bind_done in E as (? & _ & E)).
  apply insert_message_shape in E as (row & -> & _). apply grows_snoc.
Qed.

Lemma import_summary_grows (tbl : list summary_row) (s : pyval) :
  grows tbl (import_summary tbl s).
Proof.
  unfold import_summary. try_passed tbl' E; [|apply grows_refl].
  do 4 (apply bind_done in E as (? & _ & E)).
  apply insert_summary_shape in E as (row & -> & _). apply grows_snoc.
Qed.

Lemma import_fact_grows (tbl : list memory_row * Z) (m : pyval) :
  grows (fst tbl) (fst (import_fact tbl m)).
Proof.
  unfold import_fact. try_passed tbl' E; [|apply grows_refl].
  do 4 (apply bind_done in E as (? & _ & E)).
  exact (insert_or_ignore_grows _ _ _ _ _ _ _ E).
Qed.

Lemma fold_left_grows {A B C : Type} (f : A -> B -> A) (g : A -> list C)
    (l : list B) :
  (forall a b, grows (g a) (g (f a b))) ->
  forall a, grows (g a) (g (fold_left f l a)).
Proof.
  intros Hf. induction l as [|b rest IH]; intros a; cbn [fold_left];
    [apply grows_refl|].
  eapply grows_trans; [apply Hf | apply IH].
Qed.

Lemma import_extends (st st' : store) (data : pyval) :
  import_memory_from_json st data = Done st' -> extends st st'.
Proof.
  unfold import_memory_from_json. intros E.
  apply bind_done in E as (? & _ & E). apply bind_done in E as (ms & _ & E).
  apply bind_done in E as (? & _ & E). apply bind_done in E as (fs & _ & E).
  apply bind_done in E as (? & _ & E). apply bind_done in E as (ss & _ & E).
  injection E as <-. unfold extends. cbn [messages memories summaries].
  split; [|split].
  - apply (fold_left_grows import_message (fun tbl => tbl)).
    apply import_message_grows.
  - apply (fold_left_grows import_fact fst fs import_fact_grows
             (memories st, memories_seq st)).
  - apply (fold_left_grows import_summary (fun tbl => tbl)).
    apply import_summary_grows.
Qed.

(** X6. No operation changes or deletes a stored row: after any call of
    [save_message], [save_memory], [save_summary], the fact extractor,
    the summarizer or the import, each of the three tables is the table
    before the call followed by zero or more new rows. *)
Theorem step_extends (st st' : store) : step st st' -> extends st st'.
Proof.
  intros [st0 st1 phone role content now E
         | st0 phone fact category now
         | st0 st1 phone summary count now E
         | st0 phone speech now
         | st0 genai clock phone
         | st0 st1 data E].
  - rewrite save_message_done in E. injection E as <-.
    split; [apply grows_snoc|]. split; apply grows_refl.
  - apply save_memory_extends.
  - apply save_summary_extends in E as (Hm & Hf & row & Hs).
    unfold extends. rewrite Hm, Hf, Hs.
    split; [apply grows_refl|]. split; [apply grows_refl | apply grows_snoc].
  - rewrite extract_by_first_category.
    destruct (first_category (PyStr.lower speech));
      [apply save_memory_extends | apply extends_refl].
  - pose proof (summarize_and_extract_frame genai clock st0 phone) as H.
    destruct (summarize_and_extract genai clock st0 phone) as [[st1 calls] r].
    cbn [fst]. destruct H as (_ & _ & Hm & Hf & rows & Hs & _).
    unfold extends. rewrite Hm, Hs.
    split; [apply grows_refl|]. split; [exact Hf | now exists rows].
  - exact (import_extends _ _ _ E).
Qed.

Lemma step_consistent (st st' : store) :
  consistent st -> step st st' -> consistent st'.
Proof.
  intros H Hstep. revert H.
  destruct Hstep as [st0 st1 phone role content now E
                    | st0 phone fact category now
                    | st0 st1 phone summary count now E
                    | st0 phone speech now
                    | st0 genai clock phone
                    | st0 st1 data E]; intros H.
  - exact (consistent_save_message _ _ _ _ _ _ H E).
  - now apply consistent_save_memory.
  - exact (consistent_save_summary _ _ _ _ _ _ H E).
  - now apply consistent_extract.
  - now apply consistent_summarize.
  - exact (consistent_import _ _ _ H E).
Qed.

(** X7. Every store the program reaches from the empty database, by any
    sequence of calls of the writing functions, meets the constraints of
    the schema: in each table the ids increase in insertion order, no two
    facts share (phone, fact), and every message_count cell reads back as
    it was stored. *)
Theorem reachable_is_consistent (st : store) :
  reachable st -> consistent st.
Proof.
  induction 1 as [|st st' _ IH Hstep].
  - apply consistent_empty_store.
  - exact (step_consistent _ _ IH Hstep).
Qed.

End GrowOnly.

(** ** Replaying a snapshot *)

Lemma filter_map_through {A D B : Type} (d : A -> D) (keep : D -> bool)
    (g : D -> B) (l : list A) :
  map (fun r => g (d r)) (filter (fun r => keep (d r)) l)
  = map g (filter keep (map d l)).
Proof.
  induction l as [|r rest IH]; cbn [map filter]; [reflexivity|].
  destruct (keep (d r)); cbn [map]; now rewrite IH.
Qed.

Section Replay.
Context {rt : Runtime}.

Lemma memory_of_export (r : memory_row) :
  memory_of_entry (export_memory r) = Some (memory_data r).
Proof.
  unfold memory_of_entry, export_memory, field, text_of, memory_data.
  cbn [Py.lookup String.eqb Ascii.eqb Bool.eqb].
  destruct (mem_category r); reflexivity.
Qed.

Lemma filter_map_memories (l : list memory_row) :
  filter_map memory_of_entry (map export_memory l) = map memory_data l.
Proof.
  induction l as [|r rest IH]; cbn [map filter_map]; [reflexivity|].
  now rewrite memory_of_export, IH.
Qed.

Lemma history_by_data (st st' : store) (phone : string) :
  well_keyed st = true -> well_keyed st' = true ->
  map message_data (messages st') = map message_data (messages st) ->
  get_all_history st' phone = get_all_history st phone.
Proof.
  intros Hst Hst' Hdata.
  rewrite (history_of_well_keyed _ _ Hst), (history_of_well_keyed _ _ Hst').
  unfold messages_of.
  pose proof (filter_map_through message_data
                (fun d => String.eqb (fst (fst (fst d))) phone)
                (fun d => {| role := snd (fst (fst d));
                             content := snd (fst d);
                             timestamp := snd d |})) as H.
  cbn [message_data fst snd] in H.
  change (map entry_of_row ?l) with
    (map (fun r => {| role := msg_role r; content := msg_content r;
                      timestamp := msg_timestamp r |}) l).
  now rewrite !H, Hdata.
Qed.

Lemma memories_by_data (st st' : store) (phone : string) :
  well_keyed st = true -> well_keyed st' = true ->
  map memory_data (memories st') = map memory_data (memories st) ->
  get_memories st' phone = get_memories st phone.
Proof.
  intros Hst Hst' Hdata.
  rewrite (get_memories_well_keyed _ _ Hst),
    (get_memories_well_keyed _ _ Hst').
  unfold memories_of.
  pose proof (filter_map_through memory_data
                (fun d => String.eqb (fst (fst (fst d))) phone)
                (fun d => (snd (fst (fst d)), snd (fst d), snd d))) as H.
  cbn [memory_data fst snd] in H.
  now rewrite !H, Hdata.
Qed.

Lemma import_of_export_into_empty (st : store) (now : string) :
  consistent st ->
  exists st',
    import_memory_from_json empty_store (export_memory_to_json st now)
    = Done st'
    /\ map message_data (messages st') = map message_data (messages st)
    /\ map memory_data (memories st') = map memory_data (memories st)
    /\ map summary_data (summaries st') = map summary_data (summaries st)
    /\ (forall phone,
          get_all_history st' phone = get_all_history st phone
          /\ get_memories st' phone = get_memories st phone).
Proof.
  intros [Hst Hcells].
  destruct (well_keyed_tables _ Hst) as (Hmsg & Hmem & Hsum & Huniq).
  unfold export_memory_to_json.
  rewrite (order_by_ascending _ _ Hmsg), (order_by_ascending _ _ Hmem),
    (order_by_ascending _ _ Hsum).
  set (data := PDict _).
  assert (Hrun : import_memory_from_json empty_store data
                 = Done {| messages :=
                             fold_left import_message
                               (map export_message (messages st)) [];
                           memories :=
                             fst (fold_left import_fact
                                    (map export_memory (memories st))
                                    ([], 0%Z));
                           memories_seq :=
                             snd (fold_left import_fact
                                    (map export_memory (memories st))
                                    ([], 0%Z));
                           summaries :=
                             fold_left import_summary
                               (map export_summary (summaries st)) [] |})
    by (apply import_by_entries; reflexivity).
  eexists. split; [exact Hrun|].
  cbn [messages memories summaries].
  assert (Hm : map message_data
                 (fold_left import_message
                    (map export_message (messages st)) [])
               = map message_data (messages st))
    by now rewrite import_messages_entries, filter_map_messages.
  assert (Hf : map memory_data
                 (fst (fold_left import_fact
                         (map export_memory (memories st)) ([], 0%Z)))
               = map memory_data (memories st)).
  { rewrite import_facts_entries, filter_map_memories. cbn [fst map app].
    apply record_new_fresh. cbn [app]. now rewrite map_map. }
  assert (Hs : map summary_data
                 (fold_left import_summary
                    (map export_summary (summaries st)) [])
               = map summary_data (summaries st))
    by now rewrite import_summaries_entries, filter_map_summaries.
  split; [exact Hm|]. split; [exact Hf|]. split; [exact Hs|].
  assert (Hst' : well_keyed
                   {| messages :=
                        fold_left import_message
                          (map export_message (messages st)) [];
                      memories :=
                        fst (fold_left import_fact
                               (map export_memory (memories st))
                               ([], 0%Z));
                      memories_seq :=
                        snd (fold_left import_fact
                               (map export_memory (memories st))
                               ([], 0%Z));
                      summaries :=
                        fold_left import_summary
                          (map export_summary (summaries st)) [] |}
                 = true).
  { exact (proj1 (consistent_import _ _ _ consistent_empty_store Hrun)). }
  intros phone. split.
  - now apply history_by_data.
  - now apply memories_by_data.
Qed.

(** X8. Round trip of the backup format: importing the snapshot that
    [export_memory_to_json] makes of a store meeting the constraints of
    the schema into the empty database succeeds and gives a database with
    the same messages, facts and summaries, in the same order (only the
    ids are assigned anew); [get_all_history] and [get_memories] answer
    for every identity as they did on the exported store. *)
Theorem export_then_import_into_empty (st : store) (now : string) :
  consistent st ->
  exists st',
    import_memory_from_json empty_store (export_memory_to_json st now)
    = Done st'
    /\ map message_data (messages st') = map message_data (messages st)
    /\ map memory_data (memories st') = map memory_data (memories st)
    /\ map summary_data (summaries st') = map summary_data (summaries st)
    /\ (forall phone,
          get_all_history st' phone = get_all_history st phone
          /\ get_memories st' phone = get_memories st phone).
Proof. apply import_of_export_into_empty. Qed.

Lemma import_fact_rows (tbl : list memory_row * Z) (m : pyval) :
  fst (import_fact tbl m)
  = fst tbl
    ++ match memory_of_entry m with
       | Some (p, f, c, t) =>
           if known_key (map mem_key (fst tbl)) (p, f) then []
           else [new_memory (fst tbl) (snd tbl) p f c t]
       | None => []
       end.
Proof.
  destruct tbl as [tbl seq].
  unfold import_fact, memory_of_entry, field, Py.getitem, text_of.
  cbn [fst snd].
  destruct m as [| | | | |l|d]; cbn [try_pass bind fst];
    try (now rewrite app_nil_r).
  destruct (Py.lookup "phone" d) as [p|]; cbn [try_pass bind fst];
    [|now rewrite app_nil_r].
  destruct (Py.lookup "fact" d) as [f|]; cbn [try_pass bind fst];
    [|now rewrite app_nil_r].
  destruct (Py.lookup "category" d) as [c|]; cbn [try_pass bind fst];
    [|now rewrite app_nil_r].
  destruct (Py.lookup "timestamp" d) as [t|]; cbn [try_pass bind fst];
    [|now rewrite app_nil_r].
  unfold insert_or_ignore_memory.
  destruct (Sql.bind_param p) as [p'|]; cbn [try_pass bind fst];
    [|destruct (Sql.bind_param c); now rewrite app_nil_r].
  destruct (Sql.bind_param f) as [f'|]; cbn [try_pass bind fst];
    [|destruct (Sql.bind_param c), (text_cell p'); now rewrite app_nil_r].
  destruct (Sql.bind_param c) as [c'|]; cbn [try_pass bind fst];
    [|now rewrite app_nil_r].
  destruct (Sql.bind_param t) as [t'|]; cbn [try_pass bind fst];
    [|destruct (text_cell p'), (text_cell f'); now rewrite app_nil_r].
  destruct (text_cell p') as [pt|], (text_cell f') as [ft|],
    (text_cell t') as [tt|];
    cbn [try_pass fst]; try (now rewrite app_nil_r).
  rewrite <- has_fact_known.
  destruct (has_fact tbl pt ft); cbn [try_pass fst];
    [now rewrite app_nil_r | reflexivity].
Qed.

Lemma entry_known_grows (rows rows' : list memory_row) (m : pyval) :
  grows rows rows' -> entry_known rows m -> entry_known rows' m.
Proof.
  intros [more ->] H x Hx. rewrite map_app, known_key_app, (H x Hx).
  reflexivity.
Qed.

Lemma import_fact_makes_known (tbl : list memory_row * Z) (m : pyval) :
  entry_known (fst (import_fact tbl m)) m.
Proof.
  intros x Hx. rewrite import_fact_rows, Hx.
  destruct x as [[[p f] c] t].
  change (memory_entry_key (p, f, c, t)) with (p, f).
  destruct (known_key (map mem_key (fst tbl)) (p, f)) eqn:E.
  - now rewrite app_nil_r.
  - rewrite map_app, known_key_app. cbn [map].
    change (mem_key (new_memory (fst tbl) (snd tbl) p f c t)) with (p, f).
    cbn [known_key existsb]. now rewrite key_eqb_refl, orb_true_r.
Qed.

Lemma import_fact_of_known (tbl : list memory_row * Z) (m : pyval) :
  entry_known (fst tbl) m -> fst (import_fact tbl m) = fst tbl.
Proof.
  intros H. rewrite import_fact_rows.
  destruct (memory_of_entry m) as [[[[p f] c] t]|] eqn:Hm;
    [|apply app_nil_r].
  specialize (H _ Hm).
  change (memory_entry_key (p, f, c, t)) with (p, f) in H.
  rewrite H. apply app_nil_r.
Qed.

Lemma import_facts_make_known (fs : list pyval) :
  forall tbl m, In m fs ->
                entry_known (fst (fold_left import_fact fs tbl)) m.
Proof.
  induction fs as [|m0 rest IH]; intros tbl m Hin; [contradiction|].
  cbn [fold_left]. destruct Hin as [<- | Hin]; [|now apply IH].
  eapply entry_known_grows; [|apply import_fact_makes_known].
  apply (fold_left_grows import_fact fst rest import_fact_grows).
Qed.

Lemma import_facts_of_known (fs : list pyval) :
  forall tbl,
    (forall m, In m fs -> entry_known (fst tbl) m) ->
    fst (fold_left import_fact fs tbl) = fst tbl.
Proof.
  induction fs as [|m0 rest IH]; intros tbl Hall; cbn [fold_left];
    [reflexivity|].
  assert (H0 : fst (import_fact tbl m0) = fst tbl)
    by (apply import_fact_of_known, Hall; now left).
  rewrite IH; [exact H0|].
  intros m Hm. rewrite H0. apply Hall. now right.
Qed.

(** X9. Replaying a snapshot is safe for the facts and for nothing else:
    when an import of [data] succeeded, a second import of the same
    [data] succeeds too and leaves the facts table exactly as the first
    left it, while it adds to the message log and to the summaries as
    many rows again as the first import added. *)
Theorem import_twice (st st1 : store) (data : pyval) :
  import_memory_from_json st data = Done st1 ->
  exists st2,
    import_memory_from_json st1 data = Done st2
    /\ memories st2 = memories st1
    /\ (List.length (messages st2) + List.length (messages st)
        = 2 * List.length (messages st1))%nat
    /\ (List.length (summaries st2) + List.length (summaries st)
        = 2 * List.length (summaries st1))%nat.
Proof.
  unfold import_memory_from_json. intros E.
  apply bind_done in E as (vm & Evm & E). apply bind_done in E as (ms & Ems & E).
  apply bind_done in E as (vf & Evf & E). apply bind_done in E as (fs & Efs & E).
  apply bind_done in E as (vs & Evs & E). apply bind_done in E as (ss & Ess & E).
  injection E as <-.
  rewrite Evm. cbn [bind]. rewrite Ems. cbn [bind].
  rewrite Evf. cbn [bind]. rewrite Efs. cbn [bind].
  rewrite Evs. cbn [bind]. rewrite Ess. cbn [bind].
  eexists. split; [reflexivity|].
  cbn [messages memories memories_seq summaries].
  rewrite <- surjective_pairing.
  split; [|split].
  - apply import_facts_of_known. intros m Hm.
    now apply import_facts_make_known.
  - pose proof (import_messages_entries ms (messages st)) as H1.
    pose proof (import_messages_entries ms
                  (fold_left import_message ms (messages st))) as H2.
    apply (f_equal (@List.length _)) in H1, H2.
    rewrite length_app, !length_map in H1, H2. lia.
  - pose proof (import_summaries_entries ss (summaries st)) as H1.
    pose proof (import_summaries_entries ss
                  (fold_left import_summary ss (summaries st))) as H2.
    apply (f_equal (@List.length _)) in H1, H2.
    rewrite length_app, !length_map in H1, H2. lia.
Qed.

End Replay.

(** ** The extractor and the summarizer's text handling *)

Section MoreExtractor.
Context {rt : Runtime}.

(** X10. Running the fact extractor again on an utterance it has already
    processed for the identity stores nothing new: the three tables are
    the same after the second run as after the first. *)
Theorem extractor_is_idempotent (st : store) (phone speech t1 t2 : string) :
  let st1 := extract_memories_from_message st phone speech t1 in
  let st2 := extract_memories_from_message st1 phone speech t2 in
  memories st2 = memories st1
  /\ messages st2 = messages st1
  /\ summaries st2 = summaries st1.
Proof.
  cbv zeta. rewrite !extract_by_first_category.
  destruct (first_category (PyStr.lower speech)) as [category|];
    [|repeat split; reflexivity].
  split; [|split; reflexivity].
  now rewrite memories_after_save, has_fact_after_save.
Qed.

End MoreExtractor.

Lemma last_n_app_exact {A : Type} (n : nat) (older recent : list A) :
  List.length recent = n -> last_n n (older ++ recent) = recent.
Proof.
  intros <-. unfold last_n. rewrite length_app.
  replace (List.length older + List.length recent - List.length recent)%nat
    with (List.length older + 0)%nat by lia.
  rewrite skipn_app, Nat.add_0_r, skipn_all.
  replace (List.length older - List.length older)%nat with 0%nat by lia.
  reflexivity.
Qed.

Lemma conversation_text_of_recent (older recent : list history_entry) :
  List.length recent = 20%nat ->
  conversation_text (older ++ recent)
  = PyStr.join_lines (map render_turn recent).
Proof.
  intros H. unfold conversation_text. now rewrite last_n_app_exact.
Qed.

Section SummarizerPrompt.
Context {rt : Runtime}.

(** X11. Only the latest 20 messages reach the model: when the history of
    an identity is [older] followed by 20 messages [recent] and the model
    client can be built, [summarize_and_extract] sends exactly one prompt,
    and it is the prompt made of the rendered messages of [recent] alone,
    joined by newlines; whatever [older] holds has no part in it. *)
Theorem summarizer_prompt_of_recent
    (generate_content : string -> exec string) (clock : nat -> string)
    (st : store) (phone : string) (older recent : list history_entry) :
  get_all_history st phone = older ++ recent ->
  List.length recent = 20%nat ->
  snd (fst (summarize_and_extract (Done generate_content) clock st phone))
  = [prompt_of (PyStr.join_lines (map render_turn recent))].
Proof.
  intros Hhist Hlen. unfold summarize_and_extract, summarize_body.
  rewrite Hhist, (conversation_text_of_recent _ _ Hlen).
  destruct (Nat.ltb_spec (List.length (older ++ recent)) 4) as [Hfew|_];
    [rewrite length_app in Hfew; lia|].
  destruct (raw <- generate_content _ ;; _) as [result|e];
    [|reflexivity].
  now destruct (save_results st phone result _ clock).
Qed.

End SummarizerPrompt.

(** [strip] and the two splits of the fence clean-up. *)

Lemma str_app_nil_r (s : string) : (s ++ EmptyString)%string = s.
Proof.
  induction s as [|c s IH]; cbn [String.append]; [reflexivity|].
  now rewrite IH.
Qed.

Lemma str_app_assoc (a b c : string) :
  ((a ++ b) ++ c)%string = (a ++ b ++ c)%string.
Proof.
  induction a as [|x a IH]; cbn [String.append]; [reflexivity|].
  now rewrite IH.
Qed.

Lemma rev_app (a b : string) :
  PyStr.rev (a ++ b)%string = (PyStr.rev b ++ PyStr.rev a)%string.
Proof.
  induction a as [|c a IH]; cbn [PyStr.rev String.append].
  - now rewrite str_app_nil_r.
  - now rewrite IH, str_app_assoc.
Qed.

Lemma rev_rev (s : string) : PyStr.rev (PyStr.rev s) = s.
Proof.
  induction s as [|c s IH]; cbn [PyStr.rev]; [reflexivity|].
  rewrite rev_app. cbn. now rewrite IH.
Qed.

Lemma after_first_absent (sep s : string) :
  PyStr.contains sep s = false -> PyStr.after_first sep s = None.
Proof.
  induction s as [|c s IH]; cbn [PyStr.contains PyStr.after_first];
    intros H; apply orb_false_elim in H as [H1 H2]; rewrite H1.
  - reflexivity.
  - now apply IH.
Qed.

Lemma startswith_newline (c : ascii) (s s' : string) :
  PyStr.startswith PyStr.newline (String c s)
  = PyStr.startswith PyStr.newline (String c s').
Proof. cbn. now rewrite !andb_true_r. Qed.

Lemma after_first_newline (a rest : string) :
  PyStr.contains PyStr.newline a = false ->
  PyStr.after_first PyStr.newline (a ++ PyStr.newline ++ rest)%string
  = Some rest.
Proof.
  induction a as [|c a IH]; intros H.
  - reflexivity.
  - cbn [PyStr.contains] in H. apply orb_false_elim in H as [H1 H2].
    cbn [String.append PyStr.after_first].
    rewrite (startswith_newline c _ a), H1. now apply IH.
Qed.

Lemma before_last_at_end (sep s : string) :
  PyStr.before_last sep (s ++ sep)%string = Some s.
Proof.
  unfold PyStr.before_last. rewrite rev_app.
  assert (H : forall p r : string,
             PyStr.after_first p (p ++ r)%string = Some r).
  { intros p r. destruct p as [|c p].
    - destruct r; reflexivity.
    - cbn [String.append PyStr.after_first].
      assert (Hs : forall q t : string,
                 PyStr.startswith q (q ++ t)%string = true).
      { induction q as [|d q IHq]; intros t; cbn; [reflexivity|].
        now rewrite Ascii.eqb_refl, IHq. }
      change (String c (p ++ r)%string) with (String c p ++ r)%string.
      rewrite Hs. cbn [String.length PyStr.drop].
      clear Hs. revert r. induction p as [|d p IHp]; intros r; cbn;
        [reflexivity|]. apply IHp. }
  rewrite H. now rewrite rev_rev.
Qed.

Lemma lstrip_app (a b : string) :
  PyStr.lstrip (a ++ b)%string
  = match PyStr.lstrip a with
    | EmptyString => PyStr.lstrip b
    | String _ _ => (PyStr.lstrip a ++ b)%string
    end.
Proof.
  induction a as [|c a IH]; cbn [String.append PyStr.lstrip].
  - reflexivity.
  - destruct (PyStr.is_space c); [exact IH | reflexivity].
Qed.

Lemma rstrip_newline (s : string) :
  PyStr.rstrip (s ++ PyStr.newline)%string = PyStr.rstrip s.
Proof. unfold PyStr.rstrip. now rewrite rev_app. Qed.

Lemma strip_newline (s : string) :
  PyStr.strip (s ++ PyStr.newline)%string = PyStr.strip s.
Proof.
  unfold PyStr.strip. rewrite lstrip_app.
  destruct (PyStr.lstrip s) as [|c r].
  - reflexivity.
  - apply rstrip_newline.
Qed.

Section Fence.
Context {rt : Runtime}.

(** X12. The fence clean-up recovers the body of a fenced answer: for a
    text made of the fence, a language tag without a newline, a newline,
    a body, a newline and the closing fence, the result is the body
    stripped of its surrounding whitespace, whatever the body contains
    (further fences inside it too). *)
Theorem strip_fence_of_fenced (lang body : string) :
  PyStr.contains PyStr.newline lang = false ->
  strip_fence (fence ++ lang ++ PyStr.newline ++ body ++ PyStr.newline
               ++ fence)%string
  = Done (PyStr.strip body).
Proof.
  intros Hlang. unfold strip_fence.
  change (PyStr.startswith fence (fence ++ ?x)%string) with true.
  cbv iota.
  assert (Hhead : PyStr.contains PyStr.newline (fence ++ lang)%string
                  = false).
  { unfold fence. cbn [String.append PyStr.contains].
    rewrite Hlang. reflexivity. }
  replace (fence ++ lang ++ PyStr.newline ++ body ++ PyStr.newline
           ++ fence)%string
    with ((fence ++ lang) ++ PyStr.newline
          ++ (body ++ PyStr.newline) ++ fence)%string
    by now rewrite !str_app_assoc.
  rewrite (after_first_newline _ _ Hhead), before_last_at_end.
  now rewrite strip_newline.
Qed.

(** X13. A fenced answer without any newline cannot be cleaned: for every
    text that starts with the fence and has no newline, the clean-up
    raises IndexError (which the summarizer catches, writing nothing). *)
Theorem strip_fence_needs_a_newline (text : string) :
  PyStr.startswith fence text = true ->
  PyStr.contains PyStr.newline text = false ->
  strip_fence text = Raise IndexError.
Proof.
  intros Hfence Hline. unfold strip_fence.
  now rewrite Hfence, (after_first_absent _ _ Hline).
Qed.

End Fence.

(** ** The reply and its context *)

Lemma str_length_app (a b : string) :
  String.length (a ++ b)%string = (String.length a + String.length b)%nat.
Proof.
  induction a as [|c a IH]; cbn [String.append String.length];
    [reflexivity|].
  now rewrite IH.
Qed.

Lemma take_length (n : nat) (s : string) :
  String.length (take n s) = Nat.min n (String.length s).
Proof.
  revert s. induction n as [|n IH]; intros [|c s]; cbn [take String.length];
    try reflexivity.
  now rewrite IH.
Qed.

Lemma shorten_length (s : string) : (String.length (shorten s) <= 403)%nat.
Proof.
  unfold shorten. destruct (Nat.ltb_spec 400 (String.length s)).
  - rewrite str_length_app, take_length. cbn [String.length]. lia.
  - lia.
Qed.





Section Reply.
Context {rt : Runtime}.

Lemma gemini_reply_is_short (genai : exec (string -> exec string))
    (u h c m s : string) :
  (String.length (get_gemini_response genai u h c m s) <= 403)%nat.
Proof.
  unfold get_gemini_response.
  destruct genai as [generate_content|]; cbn [bind]; [|cbn; lia].
  destruct (generate_content _) as [raw|]; cbn [bind];
    [apply shorten_length | cbn; lia].
Qed.

Lemma recent_history_50 (st : store) (phone : string) :
  get_conversation_history st phone 50
  = Done (map entry_of_row
            (List.rev (Sql.limit 50
                         (Sql.order_by_desc msg_id (messages_of st phone))))).
Proof. now rewrite recent_history_bound. Qed.

Lemma get_ai_response_done (genai : exec (string -> exec string))
    (env : google_env) (now : string) (st : store)
    (user_speech from_number : string) :
  exists history,
    get_conversation_history st from_number 50 = Done history
    /\ get_ai_response genai env now st user_speech from_number
       = Done (get_gemini_response genai user_speech (history_text history)
                 (get_workspace_context env now user_speech)
                 (memories_text (get_memories st from_number))
                 (summaries_text (get_summaries st from_number))).
Proof.
  eexists. split; [apply recent_history_50|].
  unfold get_ai_response. now rewrite recent_history_50.
Qed.

(** X14. The reply that is spoken never has more than 403 characters,
    whatever the model, Gmail, the calendar and the database hold:
    [get_ai_response] returns normally, a model answer is stripped and,
    beyond 400 characters, cut to its first 400 followed by three dots,
    and the apology used when the model fails is shorter. An answer of at
    most 400 characters (after stripping) is returned as it is. *)
Theorem reply_is_short (genai : exec (string -> exec string))
    (env : google_env) (now : string) (st : store)
    (user_speech from_number history context memories summaries : string) :
  (exists reply,
     get_ai_response genai env now st user_speech from_number = Done reply
     /\ (String.length reply <= 403)%nat)
  /\ (String.length (get_gemini_response genai user_speech history context
                       memories summaries) <= 403)%nat
  /\ (forall generate_content raw,
        genai = Done generate_content ->
        generate_content (reply_prompt user_speech history context
                            memories summaries) = Done raw ->
        (String.length (PyStr.strip raw) <= 400)%nat ->
        get_gemini_response genai user_speech history context memories
          summaries = PyStr.strip raw).
Proof.
  split.
  { destruct (get_ai_response_done genai env now st user_speech from_number)
      as (h & _ & ->).
    eexists. split; [reflexivity | apply gemini_reply_is_short]. }
  split; [apply gemini_reply_is_short|].
  intros generate_content raw -> Hraw Hlen.
  unfold get_gemini_response. cbn [bind]. rewrite Hraw. cbn [bind].
  unfold shorten. destruct (Nat.ltb_spec 400 (String.length (PyStr.strip raw)));
    [lia | reflexivity].
Qed.




End Reply.

Section Workspace.
Context {rt : Runtime}.

Lemma no_tokens_no_service {S : Type} (env : google_env)
    (build : pyval -> pyval -> pyval -> pyval -> exec S) :
  google_tokens env = EmptyString ->
  or_none (build_service env build) = None.
Proof.
  intros H. unfold build_service, load_tokens. rewrite H.
  destruct (google_import env) as [[]|]; reflexivity.
Qed.

(** X16. The workspace context is the empty string, whatever Gmail and
    the calendar hold, when the utterance contains none of the trigger
    words, and also when [GOOGLE_TOKENS] is empty. When the utterance has
    an e-mail word and the Gmail listing raises, the result is empty as
    well, even if the utterance also asks for the calendar: the one
    [try] around both blocks ends the function before the calendar
    block. *)
Theorem workspace_context_is_empty (env : google_env) (now speech : string) :
  (mentions email_words (PyStr.lower speech) = false ->
   mentions calendar_words (PyStr.lower speech) = false ->
   get_workspace_context env now speech = EmptyString)
  /\ (google_tokens env = EmptyString ->
      get_workspace_context env now speech = EmptyString)
  /\ (forall gmail e,
        mentions email_words (PyStr.lower speech) = true ->
        get_gmail_service env = Some gmail ->
        gmail_list_unread gmail = Raise e ->
        get_workspace_context env now speech = EmptyString).
Proof.
  unfold get_workspace_context. split; [|split].
  - intros -> ->. reflexivity.
  - intros Htok. unfold get_gmail_service, get_calendar_service.
    rewrite !(no_tokens_no_service _ _ Htok).
    destruct (mentions email_words _), (mentions calendar_words _);
      reflexivity.
  - intros gmail e -> -> Hlist. unfold email_part. rewrite Hlist.
    reflexivity.
Qed.

End Workspace.

(** ** Backup and restore *)

Lemma py_first_truthy (files file : pyval) :
  py_first files = Done file -> Py.truthy files = true.
Proof.
  destruct files as [| | | |s|l|d]; cbn; try discriminate.
  - destruct s; [discriminate | reflexivity].
  - destruct l; [discriminate | reflexivity].
Qed.

Section Backup.
Context {rt : Runtime} {rm : Remote}.

Lemma restore_by_first_file (env : google_env) (st : store) (d : drive) :
  build_service env build_drive = Done (Some tt) ->
  restore_memory_from_drive env st d
  = match first_file_content d with
    | Done content =>
        try_pass st (data <- loads content ;; import_memory_from_json st data)
    | Raise _ => st
    end.
Proof.
  intros Hsvc. unfold restore_memory_from_drive, first_file_content.
  rewrite Hsvc. cbn [bind].
  destruct (files_list d) as [results|]; cbn [bind]; [|reflexivity].
  destruct (Py.get results "files" (PList [])) as [files|]; cbn [bind];
    [|reflexivity].
  destruct (Py.truthy files) eqn:Ht.
  - destruct (py_first files) as [file|]; cbn [bind]; [|reflexivity].
    destruct (Py.getitem file "id") as [id|]; cbn [bind]; [|reflexivity].
    destruct (files_get_media d id) as [content|]; cbn [bind];
      [|reflexivity].
    destruct (loads content) as [data|]; cbn [bind try_pass];
      [|reflexivity].
    now destruct (import_memory_from_json st data).
  - destruct (py_first files) as [file|] eqn:Hf; cbn [bind];
      [|reflexivity].
    apply py_first_truthy in Hf. congruence.
Qed.

(** X17. A restore that finds nothing usable leaves the database as it
    is and raises nothing: without [GOOGLE_TOKENS], when the Drive client
    cannot be built, when the listing fails or shows no file, when the
    file cannot be downloaded, when its content is not JSON, and when the
    import of the decoded content raises. *)
Theorem restore_without_usable_backup (env : google_env) (st : store)
    (d : drive) :
  (google_tokens env = EmptyString ->
   restore_memory_from_drive env st d = st)
  /\ (forall e, build_service env build_drive = Raise e ->
                restore_memory_from_drive env st d = st)
  /\ (forall e, first_file_content d = Raise e ->
                restore_memory_from_drive env st d = st)
  /\ (forall content,
        first_file_content d = Done content ->
        json_loads content = None ->
        restore_memory_from_drive env st d = st)
  /\ (forall content data e,
        first_file_content d = Done content ->
        json_loads content = Some data ->
        import_memory_from_json st data = Raise e ->
        restore_memory_from_drive env st d = st).
Proof.
  assert (Hcases : forall P : Prop,
             (build_service env build_drive = Done (Some tt) -> P) ->
             (restore_memory_from_drive env st d = st -> P) -> P).
  { intros P Hsome Hst.
    destruct (build_service env build_drive) as [[[]|]|] eqn:E.
    - now apply Hsome.
    - apply Hst. unfold restore_memory_from_drive. now rewrite E.
    - apply Hst. unfold restore_memory_from_drive. now rewrite E. }
  split; [|split; [|split; [|split]]].
  - intros Htok. unfold restore_memory_from_drive, build_service,
      load_tokens.
    rewrite Htok. now destruct (google_import env) as [[]|].
  - intros e E. unfold restore_memory_from_drive. now rewrite E.
  - intros e E. apply Hcases; [|trivial]. intros Hsvc.
    now rewrite (restore_by_first_file _ _ _ Hsvc), E.
  - intros content E Hparse. apply Hcases; [|trivial]. intros Hsvc.
    rewrite (restore_by_first_file _ _ _ Hsvc), E. unfold loads.
    now rewrite Hparse.
  - intros content data e E Hparse Himport.
    apply Hcases; [|trivial]. intros Hsvc.
    rewrite (restore_by_first_file _ _ _ Hsvc), E. unfold loads.
    rewrite Hparse. cbn [bind]. now rewrite Himport.
Qed.

Lemma backup_uploads_the_export (env : google_env) (now : string)
    (st : store) (d : drive) :
  build_service env build_drive = Done (Some tt) ->
  update_serves -> create_serves ->
  drive_accepts d (json_dumps (export_memory_to_json st now)) ->
  first_file_content (backup_memory_to_drive env now st d)
  = Done (json_dumps (export_memory_to_json st now)).
Proof.
  intros Hsvc Hupdate Hcreate (results & files & Hlist & Hfiles & Hup).
  unfold backup_memory_to_drive. rewrite Hsvc. cbn [bind].
  rewrite Hlist. cbn [bind]. rewrite Hfiles. cbn [bind].
  destruct files as [|file rest].
  - destruct Hup as (d' & Hd'). cbn [Py.truthy]. rewrite Hd'.
    exact (Hcreate d d' results _ Hlist Hfiles Hd').
  - destruct Hup as (id & d' & Hid & Hd').
    cbn [Py.truthy py_first bind]. rewrite Hid. cbn [bind]. rewrite Hd'.
    destruct (Hupdate d d' id _ Hd') as [Hsame Hmedia].
    unfold first_file_content. rewrite Hsame, Hlist. cbn [bind].
    rewrite Hfiles. cbn [bind py_first]. rewrite Hid. cbn [bind].
    exact Hmedia.
Qed.

(** X18. Backup and restore compose to a round trip. Suppose the Drive
    client can be built, [json.loads] reads back what [json.dumps] wrote
    for the export, the Drive serves what an update or a create uploaded,
    and it answers the listing and accepts the upload. Then
    [backup_memory_to_drive] puts the JSON text of the export in the
    first listed file (updating it when the listing shows a file,
    creating it otherwise), and [restore_memory_from_drive] into the empty
    database gives the messages, facts and summaries of the store that
    was backed up, in the same order, and the same answers of
    [get_all_history] and [get_memories]. *)
Theorem backup_then_restore (env : google_env) (now : string) (st : store)
    (d : drive) :
  consistent st ->
  build_service env build_drive = Done (Some tt) ->
  json_loads (json_dumps (export_memory_to_json st now))
  = Some (export_memory_to_json st now) ->
  update_serves -> create_serves ->
  drive_accepts d (json_dumps (export_memory_to_json st now)) ->
  let d' := backup_memory_to_drive env now st d in
  let st' := restore_memory_from_drive env empty_store d' in
  first_file_content d' = Done (json_dumps (export_memory_to_json st now))
  /\ map message_data (messages st') = map message_data (messages st)
  /\ map memory_data (memories st') = map memory_data (memories st)
  /\ map summary_data (summaries st') = map summary_data (summaries st)
  /\ (forall phone,
        get_all_history st' phone = get_all_history st phone
        /\ get_memories st' phone = get_memories st phone).
Proof.
  intros Hst Hsvc Hjson Hupdate Hcreate Haccepts. cbv zeta.
  pose proof (backup_uploads_the_export env now st d Hsvc Hupdate Hcreate
                Haccepts) as Hserved.
  split; [exact Hserved|].
  rewrite (restore_by_first_file _ _ _ Hsvc), Hserved. unfold loads.
  rewrite Hjson. cbn [bind].
  destruct (import_of_export_into_empty st now Hst)
    as (st' & Hrun & Hm & Hf & Hs & Hread).
  rewrite Hrun. cbn [try_pass]. auto.
Qed.

End Backup.

(** ** The voice webhooks *)

Lemma lookup_set_item (key : string) (v : pyval) (d : list (string * pyval)) :
  Py.lookup key (Json.set_item key v d) = Some v.
Proof.
  induction d as [|[k x] rest IH]; cbn [Json.set_item Py.lookup].
  - now rewrite String.eqb_refl.
  - destruct (String.eqb k key) eqn:E; cbn [Py.lookup]; rewrite E;
      [reflexivity | exact IH].
Qed.

Lemma lookup_set_item_other (key other : string) (v : pyval)
    (d : list (string * pyval)) :
  other <> key ->
  Py.lookup other (Json.set_item key v d) = Py.lookup other d.
Proof.
  intros Hne. induction d as [|[k x] rest IH];
    cbn [Json.set_item Py.lookup].
  - destruct (String.eqb_spec key other); [congruence | reflexivity].
  - destruct (String.eqb_spec k key) as [->|Hk]; cbn [Py.lookup].
    + destruct (String.eqb_spec key other); [congruence | reflexivity].
    + now rewrite IH.
Qed.

Lemma set_item_length (key : string) (v : pyval) (d : list (string * pyval)) :
  List.length (Json.set_item key v d)
  = match Py.lookup key d with
    | Some _ => List.length d
    | None => S (List.length d)
    end.
Proof.
  induction d as [|[k x] rest IH]; cbn [Json.set_item Py.lookup];
    [reflexivity|].
  destruct (String.eqb k key); cbn [List.length]; [reflexivity|].
  rewrite IH. now destruct (Py.lookup key rest).
Qed.

Lemma lookup_dict_pop (key : string) (d : list (string * pyval)) :
  Py.lookup key (dict_pop key d) = None.
Proof.
  unfold dict_pop. induction d as [|[k x] rest IH]; cbn [filter Py.lookup fst];
    [reflexivity|].
  destruct (String.eqb k key) eqn:E; cbn [negb]; [exact IH|].
  cbn [Py.lookup]. now rewrite E.
Qed.

Lemma lookup_dict_pop_other (key other : string) (d : list (string * pyval)) :
  other <> key -> Py.lookup other (dict_pop key d) = Py.lookup other d.
Proof.
  intros Hne. unfold dict_pop.
  induction d as [|[k x] rest IH]; cbn [filter Py.lookup fst];
    [reflexivity|].
  destruct (String.eqb_spec k key) as [->|Hk]; cbn [negb Py.lookup].
  - destruct (String.eqb_spec key other); [congruence | exact IH].
  - now rewrite IH.
Qed.

Section Webhooks.
Context {rt : Runtime} {rm : Remote}.

Lemma history_of_messages (st st' : store) (phone : string) :
  messages st' = messages st ->
  get_all_history st' phone = get_all_history st phone.
Proof. unfold get_all_history, messages_of. now intros ->. Qed.

Lemma extract_frame (st : store) (phone speech now : string) :
  let st' := extract_memories_from_message st phone speech now in
  messages st' = messages st
  /\ summaries st' = summaries st
  /\ grows (memories st) (memories st').
Proof.
  cbv zeta. rewrite extract_by_first_category.
  destruct (first_category (PyStr.lower speech)) as [category|].
  - destruct (save_memory_extends st phone
                (PStr (PyStr.strip speech)) category now) as (_ & Hf & _).
    repeat split; [exact Hf].
  - repeat split. apply grows_refl.
Qed.

Lemma history_after_save (st : store) (phone role content now : string) :
  well_keyed st = true ->
  get_all_history
    (with_messages st
       (messages st ++ [new_message (messages st) phone role content now]))
    phone
  = get_all_history st phone
    ++ [{| role := role; content := content; timestamp := now |}].
Proof.
  intros Hst.
  assert (Hst' : well_keyed
                   (with_messages st
                      (messages st
                       ++ [new_message (messages st) phone role content
                             now])) = true).
  { eapply well_keyed_save_message; [exact Hst | apply save_message_done]. }
  rewrite (history_of_well_keyed _ _ Hst'), (history_of_well_keyed _ _ Hst).
  now rewrite messages_of_save, map_app.
Qed.

(** X19. One conversational turn. For a non-empty utterance without a
    goodbye word, on a database that meets the key constraints,
    [voice_process] succeeds; the caller's history gains exactly the
    utterance as a user message followed by the reply as an assistant
    message; the reply has at most 403 characters and is the text spoken
    in the answer, which keeps the call open; no summary is written, no
    stored fact is changed, and the active calls and the remote backup
    are untouched. *)
Theorem voice_process_turn (genai : exec (string -> exec string))
    (env : google_env) (clock : turn_clock) (a : server)
    (speech from_number : string) :
  well_keyed (db a) = true ->
  nonempty speech = true ->
  mentions goodbye_words (PyStr.lower speech) = false ->
  exists a' reply,
    voice_process genai env clock a speech from_number
    = Done (a', [ Gather (speech_gather "/voice/process" None)
                    [(reply, polly)];
                  Say "Anything else?" polly;
                  Redirect "/voice/process" ])
    /\ get_all_history (db a') from_number
       = get_all_history (db a) from_number
         ++ [ {| role := "user"; content := speech;
                 timestamp := at_user clock |};
              {| role := "assistant"; content := reply;
                 timestamp := at_reply clock |} ]
    /\ (String.length reply <= 403)%nat
    /\ summaries (db a') = summaries (db a)
    /\ grows (memories (db a)) (memories (db a'))
    /\ active_calls a' = active_calls a
    /\ remote a' = remote a.
Proof.
  intros Hst Hspeech Hbye. unfold voice_process.
  rewrite Hspeech, save_message_done. cbn [negb bind]. rewrite Hbye.
  set (st1 := with_messages (db a) _).
  destruct (get_ai_response_done genai env (at_calendar clock) st1 speech
              from_number) as (history & _ & ->).
  set (reply := get_gemini_response genai speech _ _ _ _).
  rewrite save_message_done. cbn [bind].
  set (st2 := with_messages st1 _).
  eexists. exists reply. split; [reflexivity|].
  cbn [db active_calls remote].
  destruct (extract_frame st2 from_number speech (at_fact clock))
    as (Hm & Hs & Hf).
  assert (Hst1 : well_keyed st1 = true).
  { eapply well_keyed_save_message; [exact Hst | apply save_message_done]. }
  split; [|split; [|split; [|split; [|split; reflexivity]]]].
  - rewrite (history_of_messages _ _ _ Hm). unfold st2.
    rewrite (history_after_save _ _ _ _ _ Hst1). unfold st1.
    rewrite (history_after_save _ _ _ _ _ Hst), <- app_assoc.
    reflexivity.
  - apply gemini_reply_is_short.
  - now rewrite Hs.
  - exact Hf.
Qed.

(** X20. The goodbye turn. For an utterance with a goodbye word
    ("goodbye", "bye", "hang up", "end call", "that's all", in any case),
    on a database that meets the key constraints, [voice_process]
    succeeds, answers with the farewell and a hang-up, and takes the
    caller out of the active calls, leaving the other callers' entries as
    they are; the caller's history gains the utterance as a user message
    and no assistant message; the summarizer runs after the utterance is
    stored, so that it adds at most one summary and changes no stored
    fact. *)
Theorem voice_process_goodbye (genai : exec (string -> exec string))
    (env : google_env) (clock : turn_clock) (a : server)
    (speech from_number : string) :
  well_keyed (db a) = true ->
  nonempty speech = true ->
  mentions goodbye_words (PyStr.lower speech) = true ->
  exists a',
    voice_process genai env clock a speech from_number
    = Done (a', [ Say "Great talking with you! Everything we discussed is saved in my memory. Talk soon!" polly;
                  Hangup ])
    /\ get_all_history (db a') from_number
       = get_all_history (db a) from_number
         ++ [ {| role := "user"; content := speech;
                 timestamp := at_user clock |} ]
    /\ Py.lookup from_number (active_calls a') = None
    /\ (forall other, other <> from_number ->
          Py.lookup other (active_calls a')
          = Py.lookup other (active_calls a))
    /\ grows (memories (db a)) (memories (db a'))
    /\ exists rows, summaries (db a') = summaries (db a) ++ rows
                    /\ (List.length rows <= 1)%nat.
Proof.
  intros Hst Hspeech Hbye. unfold voice_process.
  rewrite Hspeech, save_message_done. cbn [negb bind]. rewrite Hbye.
  set (st1 := with_messages (db a) _).
  eexists. split; [reflexivity|]. cbn [db active_calls remote].
  pose proof (summarize_and_extract_frame genai (at_summary clock) st1
                from_number) as H.
  destruct (summarize_and_extract genai (at_summary clock) st1 from_number)
    as [[st2 calls] r].
  cbn [fst]. destruct H as (_ & _ & Hm & Hf & Hs).
  split; [|split; [|split; [|split]]].
  - rewrite (history_of_messages _ _ _ Hm). unfold st1.
    apply (history_after_save _ _ _ _ _ Hst).
  - apply lookup_dict_pop.
  - intros other Hne. now apply lookup_dict_pop_other.
  - exact Hf.
  - exact Hs.
Qed.

(** X21. An incoming call is registered once: after [voice_incoming] the
    caller is in [active_calls] with the start time of this call, the
    entries of the other callers are as before, and the dict has one
    entry more only if the caller was not in it; the database and the
    remote backup are not touched. *)
Theorem voice_incoming_registers_the_call (a : server)
    (from_number now : string) :
  let a' := fst (voice_incoming a from_number now) in
  Py.lookup from_number (active_calls a')
  = Some (PDict [("started", PStr now)])
  /\ (forall other, other <> from_number ->
        Py.lookup other (active_calls a')
        = Py.lookup other (active_calls a))
  /\ List.length (active_calls a')
     = match Py.lookup from_number (active_calls a) with
       | Some _ => List.length (active_calls a)
       | None => S (List.length (active_calls a))
       end
  /\ db a' = db a
  /\ remote a' = remote a.
Proof.
  cbv zeta. unfold voice_incoming. cbn [fst db active_calls remote].
  split; [apply lookup_set_item|].
  split; [intros other Hne; now apply lookup_set_item_other|].
  split; [apply set_item_length|]. split; reflexivity.
Qed.

End Webhooks.

(** ** The properties on the sample data *)

Lemma sample_store_is_consistent : consistent (rt := basic_runtime) sample_store.
Proof.
  split; [reflexivity|].
  unfold settled_counts, sample_store. cbn [summaries].
  constructor; [|constructor].
  split; reflexivity.
Defined.

Lemma recent_history_is_the_tail_sample :
  well_keyed sample_store = true
  /\ get_conversation_history sample_store caller 3
     = Done (last_n 3 (get_all_history sample_store caller))
  /\ get_conversation_history sample_store caller (-1)
     = Done (get_all_history sample_store caller)
  /\ get_conversation_history sample_store caller (- 2 ^ 63 - 1)
     = Raise OverflowError.
Proof.
  split; [reflexivity|].
  destruct (recent_history_is_the_tail sample_store caller 3 eq_refl)
    as (Hk & _ & _).
  destruct (recent_history_is_the_tail sample_store caller (-1) eq_refl)
    as (_ & Hneg & _).
  destruct (recent_history_is_the_tail sample_store caller (- 2 ^ 63 - 1)
              eq_refl) as (_ & _ & Hout).
  split; [apply Hk; split; vm_compute; discriminate|].
  split; [apply Hneg; split; [vm_compute; discriminate | reflexivity]|].
  apply Hout. left. reflexivity.
Defined.

Lemma save_message_touches_one_history_sample :
  well_keyed sample_store = true
  /\ exists st',
       save_message (rt := basic_runtime) sample_store caller "user"
         "Thanks" "2024-05-01T09:01:00+00:00" = Done st'
       /\ get_message_count st' caller = 5%Z
       /\ get_all_history st' other_caller = [].
Proof.
  split; [reflexivity|].
  destruct (save_message_touches_one_history (rt := basic_runtime)
              sample_store caller "user" "Thanks"
              "2024-05-01T09:01:00+00:00" eq_refl)
    as (st' & Hrun & _ & Hcount & Hother & _).
  exists st'. split; [exact Hrun|]. split; [exact Hcount|].
  destruct (Hother other_caller) as [H _]; [discriminate | exact H].
Defined.

Lemma save_memory_then_get_memories_sample :
  well_keyed sample_store = true
  /\ get_memories
       (save_memory (rt := basic_runtime) sample_store caller
          (PStr "I love hiking on weekends") "personal"
          "2024-05-02T10:00:00+00:00") caller
     = get_memories sample_store caller
  /\ get_memories
       (save_memory (rt := basic_runtime) sample_store caller
          (PStr "likes tea") "preference" "2024-05-02T10:00:00+00:00")
       caller
     = get_memories sample_store caller
       ++ [("likes tea", Some "preference", "2024-05-02T10:00:00+00:00")].
Proof.
  split; [reflexivity|]. split.
  - exact (proj1 (save_memory_then_get_memories (rt := basic_runtime)
                    sample_store caller "I love hiking on weekends"
                    "personal" "2024-05-02T10:00:00+00:00" eq_refl)).
  - exact (proj1 (save_memory_then_get_memories (rt := basic_runtime)
                    sample_store caller "likes tea" "preference"
                    "2024-05-02T10:00:00+00:00" eq_refl)).
Defined.

Lemma save_summary_always_appends_sample :
  well_keyed sample_store = true
  /\ (0 <= 4 <= Sql.max_int64)%Z
  /\ exists st',
       save_summary (rt := basic_runtime) sample_store caller
         (PStr "The caller plans a hike.") 4 "2024-05-02T10:00:00+00:00"
       = Done st'
       /\ get_summaries st' caller
          = get_summaries sample_store caller
            ++ [("The caller plans a hike.", SInteger 4,
                 "2024-05-02T10:00:00+00:00")].
Proof.
  assert (Hcount : (0 <= 4 <= Sql.max_int64)%Z)
    by (split; vm_compute; discriminate).
  split; [reflexivity|]. split; [exact Hcount|].
  destruct (save_summary_always_appends (rt := basic_runtime) sample_store
              caller "The caller plans a hike." 4
              "2024-05-02T10:00:00+00:00" eq_refl Hcount)
    as (st' & Hrun & Hsum & _).
  exists st'. split; [exact Hrun | exact Hsum].
Defined.

Lemma step_extends_sample :
  step (rt := basic_runtime) sample_store
    (extract_memories_from_message (rt := basic_runtime) sample_store caller
       "My name is Sam" "2024-05-02T10:00:00+00:00")
  /\ extends sample_store
       (extract_memories_from_message (rt := basic_runtime) sample_store
          caller "My name is Sam" "2024-05-02T10:00:00+00:00").
Proof.
  assert (H : step (rt := basic_runtime) sample_store
                (extract_memories_from_message (rt := basic_runtime)
                   sample_store caller "My name is Sam"
                   "2024-05-02T10:00:00+00:00"))
    by apply step_extract.
  split; [exact H | exact (step_extends _ _ H)].
Defined.

Lemma reachable_is_consistent_sample :
  reachable (rt := basic_runtime)
    (save_memory (rt := basic_runtime)
       (save_memory (rt := basic_runtime) empty_store caller (PStr "likes tea") "preference"
          "2024-05-02T10:00:00+00:00")
       caller (PStr "likes tea") "personal" "2024-05-02T10:00:01+00:00")
  /\ consistent (rt := basic_runtime)
       (save_memory (rt := basic_runtime)
          (save_memory (rt := basic_runtime) empty_store caller (PStr "likes tea") "preference"
             "2024-05-02T10:00:00+00:00")
          caller (PStr "likes tea") "personal" "2024-05-02T10:00:01+00:00").
Proof.
  assert (H : reachable (rt := basic_runtime)
                (save_memory (rt := basic_runtime)
                   (save_memory (rt := basic_runtime) empty_store caller
                      (PStr "likes tea") "preference"
                      "2024-05-02T10:00:00+00:00")
                   caller (PStr "likes tea") "personal"
                   "2024-05-02T10:00:01+00:00")).
  { eapply reach_step; [eapply reach_step; [apply reach_empty|]|];
      apply step_save_memory. }
  split; [exact H | exact (reachable_is_consistent _ H)].
Defined.

Lemma export_then_import_into_empty_sample :
  consistent (rt := basic_runtime) sample_store
  /\ exists st',
       import_memory_from_json (rt := basic_runtime) empty_store
         (export_memory_to_json sample_store (sample_clock 0)) = Done st'
       /\ get_all_history st' caller = get_all_history sample_store caller
       /\ get_memories st' caller = get_memories sample_store caller.
Proof.
  split; [exact sample_store_is_consistent|].
  destruct (export_then_import_into_empty (rt := basic_runtime) sample_store
              (sample_clock 0) sample_store_is_consistent)
    as (st' & Hrun & _ & _ & _ & Hread).
  exists st'. split; [exact Hrun | exact (Hread caller)].
Defined.

Lemma import_twice_sample :
  exists st1 st2,
    import_memory_from_json (rt := basic_runtime) sample_store
      (PDict sample_snapshot) = Done st1
    /\ import_memory_from_json (rt := basic_runtime) st1
         (PDict sample_snapshot) = Done st2
    /\ memories st2 = memories st1
    /\ List.length (messages st2) = 6%nat.
Proof.
  destruct (import_memory_from_json (rt := basic_runtime) sample_store
              (PDict sample_snapshot)) as [st1|e] eqn:E1;
    [|vm_compute in E1; discriminate].
  destruct (import_twice (rt := basic_runtime) sample_store st1
              (PDict sample_snapshot) E1) as (st2 & Hrun & Hmem & Hlen & _).
  exists st1, st2. split; [reflexivity|]. split; [exact Hrun|].
  split; [exact Hmem|].
  assert (H1 : List.length (messages st1) = 5%nat)
    by (vm_compute in E1; injection E1 as <-; reflexivity).
  rewrite H1 in Hlen. cbn in Hlen. lia.
Defined.

Lemma summarizer_prompt_of_recent_sample :
  get_all_history busy_store caller
  = firstn 1 (get_all_history busy_store caller)
    ++ skipn 1 (get_all_history busy_store caller)
  /\ List.length (skipn 1 (get_all_history busy_store caller)) = 20%nat
  /\ snd (fst (summarize_and_extract (rt := basic_runtime)
                 (answering fenced_answer) sample_clock busy_store caller))
     = [prompt_of
          (PyStr.join_lines
             (map render_turn
                (skipn 1 (get_all_history busy_store caller))))].
Proof.
  split; [reflexivity|]. split; [reflexivity|].
  exact (summarizer_prompt_of_recent (rt := basic_runtime)
           (fun _ => Done fenced_answer) sample_clock busy_store caller
           (firstn 1 (get_all_history busy_store caller))
           (skipn 1 (get_all_history busy_store caller))
           eq_refl eq_refl).
Defined.

Lemma strip_fence_of_fenced_sample :
  strip_fence fenced_answer = Done answer_text.
Proof.
  exact (strip_fence_of_fenced "json" answer_text eq_refl).
Defined.

Lemma strip_fence_needs_a_newline_sample :
  strip_fence (fence ++ "json{}" ++ fence)%string = Raise IndexError.
Proof.
  exact (strip_fence_needs_a_newline (fence ++ "json{}" ++ fence)%string
           eq_refl eq_refl).
Defined.

Lemma simple_remote_update_serves : update_serves (rm := simple_remote).
Proof.
  intros d d' id content H. cbn in H.
  destruct id as [| | | |i| |]; try discriminate.
  destruct (existsb (fun f => String.eqb (fst f) i) d) eqn:E;
    [|discriminate].
  injection H as <-. split.
  - cbn. do 5 f_equal. rewrite map_map. apply map_ext. intros f.
    unfold listed_file. destruct (String.eqb_spec (fst f) i) as [->|];
      reflexivity.
  - cbn. induction d as [|f rest IH]; [discriminate|].
    cbn [map find existsb] in *.
    destruct (String.eqb (fst f) i) eqn:Ef.
    + cbn [fst]. rewrite String.eqb_refl. reflexivity.
    + rewrite Ef. apply IH. exact E.
Qed.

Lemma simple_remote_create_serves : create_serves (rm := simple_remote).
Proof.
  intros d d' results content Hlist Hfiles Hcreate. cbn in Hlist.
  injection Hlist as <-. cbn in Hfiles.
  destruct d as [|f rest]; [|discriminate].
  cbn in Hcreate. injection Hcreate as <-. reflexivity.
Qed.

Lemma backup_then_restore_sample :
  let d' :=
    backup_memory_to_drive (rt := basic_runtime) (rm := simple_remote)
      sample_env (at_export sample_turn_clock) sample_store
      [("file7", "{}")] in
  let st' :=
    restore_memory_from_drive (rt := basic_runtime) (rm := simple_remote)
      sample_env empty_store d' in
  first_file_content (rm := simple_remote) d'
  = Done (json_dumps (Remote := simple_remote)
            (export_memory_to_json sample_store
               (at_export sample_turn_clock)))
  /\ get_all_history st' caller = get_all_history sample_store caller
  /\ get_memories st' caller = get_memories sample_store caller.
Proof.
  cbv zeta.
  assert (Haccepts :
            drive_accepts (rm := simple_remote) [("file7", "{}")]
              (json_dumps (Remote := simple_remote)
                 (export_memory_to_json sample_store
                    (at_export sample_turn_clock)))).
  { eexists _, _. split; [reflexivity|]. split; [reflexivity|].
    eexists _, _. split; reflexivity. }
  assert (Hsvc : build_service (rt := basic_runtime) sample_env
                   (build_drive (Remote := simple_remote))
                 = Done (Some tt)) by reflexivity.
  assert (Hjson :
            json_loads (Runtime := basic_runtime)
              (json_dumps (Remote := simple_remote)
                 (export_memory_to_json sample_store
                    (at_export sample_turn_clock)))
            = Some (export_memory_to_json sample_store
                      (at_export sample_turn_clock)))
    by (vm_compute; reflexivity).
  destruct (backup_then_restore (rt := basic_runtime) (rm := simple_remote)
              sample_env (at_export sample_turn_clock) sample_store
              [("file7", "{}")] sample_store_is_consistent Hsvc Hjson
              simple_remote_update_serves simple_remote_create_serves
              Haccepts)
    as (Hserved & _ & _ & _ & Hread).
  split; [exact Hserved | exact (Hread caller)].
Defined.

Lemma voice_process_turn_sample :
  exists a' reply,
    voice_process (rt := basic_runtime) (rm := simple_remote)
      (answering "You are free on Saturday.") sample_env sample_turn_clock
      sample_server "What about Saturday" caller
    = Done (a', [ Gather (speech_gather "/voice/process" None)
                    [(reply, polly)];
                  Say "Anything else?" polly;
                  Redirect "/voice/process" ])
    /\ List.length (get_all_history (db a') caller) = 6%nat
    /\ summaries (db a') = summaries sample_store.
Proof.
  destruct (voice_process_turn (rt := basic_runtime) (rm := simple_remote)
              (answering "You are free on Saturday.") sample_env
              sample_turn_clock
              sample_server "What about Saturday" caller eq_refl eq_refl eq_refl)
    as (a' & reply & Hrun & Hhist & _ & Hsum & _).
  exists a', reply. split; [exact Hrun|]. split; [|exact Hsum].
  rewrite Hhist, length_app. reflexivity.
Defined.

Lemma voice_process_goodbye_sample :
  exists a',
    voice_process (rt := basic_runtime) (rm := simple_remote)
      (answering fenced_answer) sample_env sample_turn_clock
      (fst (voice_incoming sample_server caller
              "2024-05-02T17:59:00+00:00"))
      "OK, bye" caller
    = Done (a', [ Say "Great talking with you! Everything we discussed is saved in my memory. Talk soon!" polly;
                  Hangup ])
    /\ List.length (get_all_history (db a') caller) = 5%nat
    /\ Py.lookup caller (active_calls a') = None.
Proof.
  destruct (voice_process_goodbye (rt := basic_runtime) (rm := simple_remote)
              (answering fenced_answer) sample_env sample_turn_clock
              (fst (voice_incoming sample_server caller
                      "2024-05-02T17:59:00+00:00"))
              "OK, bye" caller eq_refl eq_refl eq_refl)
    as (a' & Hrun & Hhist & Hcall & _).
  exists a'. split; [exact Hrun|]. split; [|exact Hcall].
  rewrite Hhist, length_app. reflexivity.
Defined.
